(** * OctoPrint-EEPROM-Marlin: the view model of [eeprom_marlin.js]

    A shallow embedding of [EepromMarlinViewModel]
    (src/octoprint_eeprom_marlin/static/js/eeprom_marlin.js): the regular
    expressions assigned by [setRegExVars], the line extractor
    [eepromFieldParse], the observable arrays it fills, [saveEeprom],
    [loadEeprom], [backupEeprom], the file-restore callback of
    [handleFileSelect] and the log feed [fromCurrentData].

    Conventions of the embedding.
    - A JavaScript string is a [string] of the Standard Library: a sequence
      of code units below 256.
    - A value stored in a field is [VUndef] ([undefined]) or [VStr s]; these
      are the only values the script ever puts there (a capture of a match
      array, the literal [''], or an index past the end of the match array).
    - [self] is the record [VM]; a method that mutates [self] is a function
      [VM -> VM].  The commands handed to [control.sendCustomCommand], the
      callbacks handed to [setTimeout] and the downloads triggered through
      the temporary anchor element are logged in [sent], [timers] and
      [downloads].  DOM updates, notifications and console output are left
      out. *)

From Stdlib Require Import Bool Arith List Ascii String NArith Lia.
From Stdlib Require Import Numbers.DecimalString.
Import ListNotations.
Open Scope string_scope.
Open Scope list_scope.

Set Implicit Arguments.

(** ** JavaScript values held by the fields *)

Inductive jsval : Type :=
  | VUndef : jsval
  | VStr : string -> jsval.

(** [a == b] on [undefined] and strings: two strings are compared code unit
    by code unit, [undefined == undefined] holds and [undefined] is never
    equal to a string. *)
Definition loose_eq (a b : jsval) : bool :=
  match a, b with
  | VUndef, VUndef => true
  | VStr x, VStr y => String.eqb x y
  | _, _ => false
  end.

(** [a != b]. *)
Definition loose_neq (a b : jsval) : bool := negb (loose_eq a b).

(** [ToString], as applied by [+] with a string on the left. *)
Definition to_str (v : jsval) : string :=
  match v with
  | VUndef => "undefined"
  | VStr s => s
  end.

(** ** Regular expressions

    The literals of the script are sequences of one-character atoms, each
    used once, under a greedy [*] or under a greedy [+], possibly wrapped in
    a capturing group.  There is no alternation, no nested group and no
    quantified group. *)

Module Regex.

Inductive citem : Type :=
  | CChar (c : ascii)            (* a single character of a class *)
  | CRange (lo hi : ascii)       (* lo-hi *)
  | CSpace.                      (* \s *)

Inductive atom : Type :=
  | ALit (c : ascii)                         (* a pattern character *)
  | ADot                                     (* . *)
  | AClass (neg : bool) (items : list citem). (* [...] and [^...] *)

Inductive piece : Type :=
  | One (a : atom)
  | Star (a : atom)
  | Plus (a : atom).

Inductive node : Type :=
  | Bare (p : piece)
  | Group (p : piece).

Record regex : Type := { nodes : list node; ignoreCase : bool }.

Definition code (c : ascii) : N := N_of_ascii c.

(** White space in the sense of [\s], among the code units below 256. *)
Definition is_space (c : ascii) : bool :=
  let n := code c in
  ((9 <=? n) && (n <=? 13) || (n =? 32) || (n =? 160))%N.

(** Line terminators, excluded by [.], among the code units below 256. *)
Definition is_line_terminator (c : ascii) : bool :=
  let n := code c in ((n =? 10) || (n =? 13))%N.

(** [Canonicalize] under the [i] flag.  Only a-z are folded: every pattern
    character and class member of the script's case-insensitive literals
    is below 128, and a code unit of 128 or more never canonicalizes to
    one below 128. *)
Definition canonicalize (ic : bool) (c : ascii) : ascii :=
  if ic then
    let n := code c in
    if ((97 <=? n) && (n <=? 122))%N then ascii_of_N (n - 32) else c
  else c.

Definition char_eq (ic : bool) (a b : ascii) : bool :=
  Ascii.eqb (canonicalize ic a) (canonicalize ic b).

Definition citem_match (ic : bool) (i : citem) (c : ascii) : bool :=
  match i with
  | CChar x => char_eq ic x c
  | CRange lo hi =>
      if ic then
        (* some member of the range has the canonical form of [c] *)
        let n := code c in
        let up := code (canonicalize true c) in
        let lw := if ((65 <=? n) && (n <=? 90))%N then (n + 32)%N else n in
        let inr := fun k => ((code lo <=? k) && (k <=? code hi))%N in
        inr n || inr up || inr lw
      else ((code lo <=? code c) && (code c <=? code hi))%N
  | CSpace => is_space c
  end.

Definition atom_match (ic : bool) (a : atom) (c : ascii) : bool :=
  match a with
  | ALit x => char_eq ic x c
  | ADot => negb (is_line_terminator c)
  | AClass neg items => xorb neg (existsb (fun i => citem_match ic i c) items)
  end.

Section Matcher.
Variable ic : bool.
Variable R : Type.

(** A continuation receives the text just consumed and what is left. *)
Definition cont : Type := list ascii -> list ascii -> option R.

(** The greedy repetition: one more character is tried first, the
    continuation at the present position only when that fails.
    [taken] is the text consumed so far, in reverse. *)
Fixpoint repeat_greedy (a : atom) (s taken : list ascii) (k : cont)
  : option R :=
  match s with
  | c :: s' =>
      if atom_match ic a c then
        match repeat_greedy a s' (c :: taken) k with
        | Some r => Some r
        | None => k (rev taken) s
        end
      else k (rev taken) s
  | [] => k (rev taken) s
  end.

Definition piece_match (p : piece) (s : list ascii) (k : cont)
  : option R :=
  match p with
  | One a =>
      match s with
      | c :: s' => if atom_match ic a c then k [c] s' else None
      | [] => None
      end
  | Star a => repeat_greedy a s [] k
  | Plus a =>
      match s with
      | c :: s' =>
          if atom_match ic a c then repeat_greedy a s' [c] k else None
      | [] => None
      end
  end.
End Matcher.

(** A successful match at one position: the matched text, the captures in
    order, and the rest of the input. *)
Record found : Type :=
  { matched : list ascii; captures : list jsval; rest : list ascii }.

(** Matching the nodes from the head of [s]; [whole] and [caps] are the
    matched text and the captures so far, in reverse. *)
Fixpoint match_nodes (ic : bool) (re : list node) (s whole : list ascii)
    (caps : list jsval) : option found :=
  match re with
  | [] => Some {| matched := rev whole; captures := rev caps; rest := s |}
  | Bare p :: re' =>
      piece_match ic p s
        (fun t r => match_nodes ic re' r (rev t ++ whole) caps)
  | Group p :: re' =>
      piece_match ic p s
        (fun t r =>
           match_nodes ic re' r (rev t ++ whole)
             (VStr (string_of_list_ascii t) :: caps))
  end.

Definition match_here (rx : regex) (s : list ascii) : option found :=
  match_nodes (ignoreCase rx) (nodes rx) s [] [].

(** The match array: index 0 is the matched text, index [k] the [k]-th
    group. *)
Definition match_array (f : found) : list jsval :=
  VStr (string_of_list_ascii (matched f)) :: captures f.

(** The leftmost position at which the pattern matches. *)
Fixpoint search (rx : regex) (s : list ascii) : option (list jsval) :=
  match match_here rx s with
  | Some f => Some (match_array f)
  | None =>
      match s with
      | [] => None
      | _ :: s' => search rx s'
      end
  end.

(** [rx.exec(str)] for a literal without the [g] and [y] flags: [None] is
    [null]. *)
Definition exec (rx : regex) (str : string) : option (list jsval) :=
  search rx (list_ascii_of_string str).

(** [str.replace(rx, rep)] for a literal with the [g] flag and a
    replacement without [$]: every match, left to right, none overlapping.
    [skip] counts the characters of a match already replaced that are
    still to be dropped. *)
Fixpoint replace_from (rx : regex) (rep s : list ascii) (skip : nat)
  : list ascii :=
  match skip with
  | S k =>
      match s with
      | [] => []
      | _ :: s' => replace_from rx rep s' k
      end
  | O =>
      match match_here rx s with
      | Some f =>
          match s with
          | [] => rep
          | c :: s' =>
              match List.length (matched f) with
              | O => rep ++ c :: replace_from rx rep s' 0
              | S n => rep ++ replace_from rx rep s' n
              end
          end
      | None =>
          match s with
          | [] => []
          | c :: s' => c :: replace_from rx rep s' 0
          end
      end
  end.

Definition replace_all (rx : regex) (rep str : string) : string :=
  string_of_list_ascii
    (replace_from rx (list_ascii_of_string rep) (list_ascii_of_string str) 0).

(** Building blocks for writing the literals. *)
Definition lit (s : string) : list node :=
  map (fun c => Bare (One (ALit c))) (list_ascii_of_string s).

Definition digit : citem := CRange "0" "9".

End Regex.
Import Regex.

(** [m[k]]: an index past the end of the match array reads [undefined]. *)
Definition at_index (m : list jsval) (k : nat) : jsval := nth k m VUndef.
Notation "m .[ k ]" := (at_index m k) (at level 1, left associativity, format "m .[ k ]").

(** ** The patterns of [setRegExVars] *)

(** One slot of a parameter line: the one-letter class [c] in a group, then
    any text, greedy, in a group. *)
Definition slot (c : ascii) : list node :=
  [Group (One (AClass false [CChar c])); Group (Star ADot)].

(** The separator between two slots: one character that is not a digit. *)
Definition sep : node := Bare (One (AClass true [digit])).

Fixpoint slots (cs : list ascii) : list node :=
  match cs with
  | [] => []
  | [c] => slot c
  | c :: cs' => slot c ++ sep :: slots cs'
  end.

(** The literal of a parameter line: the command text [cmd], then one slot
    per letter of [cs], two slots separated by one non-digit. *)
Definition family (cmd : string) (cs : list ascii) : regex :=
  {| nodes := lit cmd ++ slots cs; ignoreCase := false |}.

Record Grammar : Type := {
  eepromM501RegEx : regex;
  eepromOKRegEx : regex;
  eepromM92RegEx : regex;
  eepromM200RegEx : regex;
  eepromM201RegEx : regex;
  eepromM203RegEx : regex;
  eepromM206RegEx : regex;
  eepromM304RegEx : regex;
  eepromM420RegEx : regex;
  eepromM851RegEx : regex;
  eepromM665RegEx : regex;
  eepromM666RegEx : regex;
  eepromM900RegEx : regex;
  eepromM205RegEx : regex;
  eepromM145S0RegEx : regex;
  eepromM145S1RegEx : regex;
  eepromM145S2RegEx : regex;
  eepromM301RegEx : regex;
  eepromM204RegEx : regex
}.

(** The literals, named after the property they are assigned to and, where
    one property receives different literals, after the branch. *)
Module Lit.
Definition M501 : regex := {| nodes := lit "M501"; ignoreCase := false |}.
Definition OK : regex := {| nodes := lit "ok"; ignoreCase := false |}.
Definition M92 : regex := family "M92 " ["X"; "Y"; "Z"; "E"]%char.
Definition M200 : regex := family "M200 " ["D"]%char.
Definition M201 : regex := family "M201 " ["X"; "Y"; "Z"; "E"]%char.
Definition M203 : regex := family "M203 " ["X"; "Y"; "Z"; "E"]%char.
Definition M206 : regex := family "M206 " ["X"; "Y"; "Z"]%char.
Definition M304 : regex := family "M304 " ["P"; "I"; "D"]%char.
Definition M420 : regex :=
  {| nodes := lit "M420 " ++
              [Group (One (AClass false [CChar "S"]));
               Group (Star (AClass false [CRange "0" "1"]));
               Bare (Star (AClass true [digit]));
               Group (Star (AClass false [CChar "Z"]));
               Group (Star ADot)];
     ignoreCase := false |}.
Definition M851 : regex := family "M851 " ["Z"]%char.
Definition M665 : regex :=
  family "M665 " ["L"; "R"; "H"; "S"; "B"; "X"; "Y"; "Z"]%char.
Definition M666 : regex := family "M666 " ["X"; "Y"; "Z"]%char.
Definition M900_bugfix : regex :=
  {| nodes := lit "M900 " ++
              [Group (One (AClass false [CChar "K"]));
               Group (Plus (AClass false [digit; CChar "."]));
               Group (Star ADot)];
     ignoreCase := false |}.
Definition M900 : regex := family "M900 " ["K"; "R"]%char.
Definition M205_bugfix : regex :=
  family "M205 " ["B"; "S"; "T"; "X"; "Y"; "Z"; "E"]%char.
Definition M205 : regex :=
  family "M205 " ["S"; "T"; "B"; "X"; "Y"; "Z"; "E"]%char.
Definition M205_noY : regex :=
  family "M205 " ["S"; "T"; "B"; "X"; "Z"; "E"]%char.
Definition M145S0 : regex := family "M145 S0 " ["H"; "B"; "F"]%char.
Definition M145S1 : regex := family "M145 S1 " ["H"; "B"; "F"]%char.
Definition M145S2 : regex := family "M145 S2 " ["H"; "B"; "F"]%char.
Definition M145M0 : regex := family "M145 M0 " ["H"; "B"; "F"]%char.
Definition M145M1 : regex := family "M145 M1 " ["H"; "B"; "F"]%char.
Definition M145M2 : regex := family "M145 M2 " ["H"; "B"; "F"]%char.
Definition M301 : regex := family "M301 " ["P"; "I"; "D"]%char.
Definition M301_rc : regex := family "M301 " ["P"; "I"; "D"; "C"; "L"]%char.
Definition M204 : regex := family "M204 " ["P"; "R"; "T"]%char.
Definition M204_legacy : regex := family "M204 " ["S"; "T"]%char.
Definition firmware : regex :=
  {| nodes := lit "FIRMWARE_NAME:" ++
              [Group (Star (AClass true [CSpace]))] ++ lit " " ++
              [Group (Star (AClass true [CSpace]))];
     ignoreCase := true |}.
Definition firmwareCap : regex :=
  {| nodes := lit "Cap:" ++ [Group (Star (AClass true [CSpace]))];
     ignoreCase := true |}.
Definition marlin : regex :=
  {| nodes := lit "Marlin" ++ [Bare (Star (AClass true [CSpace]))];
     ignoreCase := true |}.
Definition Recv : regex := {| nodes := lit "Recv"; ignoreCase := true |}.
End Lit.

(** The source text of a pattern, for comparing the literals above with the
    script. *)
Module Show.
Definition chr (c : ascii) : string := String c "".
Definition citem (i : Regex.citem) : string :=
  match i with
  | CChar c => chr c
  | CRange lo hi => chr lo ++ "-" ++ chr hi
  | CSpace => "\s"
  end.
Definition atom (a : Regex.atom) : string :=
  match a with
  | ALit c => chr c
  | ADot => "."
  | AClass neg items =>
      "[" ++ (if neg then "^" else "") ++ String.concat "" (map citem items) ++ "]"
  end.
Definition piece (p : Regex.piece) : string :=
  match p with
  | One a => atom a
  | Star a => atom a ++ "*"
  | Plus a => atom a ++ "+"
  end.
Definition node (n : Regex.node) : string :=
  match n with
  | Bare p => piece p
  | Group p => "(" ++ piece p ++ ")"
  end.
Definition regex (rx : Regex.regex) : string :=
  "/" ++ String.concat "" (map node (nodes rx)) ++ "/"
      ++ (if ignoreCase rx then "i" else "").
End Show.

(** ** The view model *)

(** One entry of an observable array.  [unit_] is the property [unit]. *)
Record field : Type := {
  dataType : string;
  label : string;
  origValue : jsval;
  value : jsval;
  unit_ : string;
  description : string
}.

(** The observable arrays of the view model. *)
Inductive section : Type :=
  | eepromData1
  | eepromData2
  | eepromDataLevel
  | eepromDataSteps
  | eepromDataFRates
  | eepromDataMaxAccel
  | eepromDataAccel
  | eepromDataPID
  | eepromDataPIDB
  | eepromDataHoming
  | eepromDataMaterialHS0
  | eepromDataMaterialHS1
  | eepromDataMaterialHS2
  | eepromDataFilament
  | eepromDataEndstop
  | eepromDataDelta1
  | eepromDataDelta2
  | eepromDataLinear.

Definition section_eq_dec (a b : section) : {a = b} + {a <> b}.
Proof. decide equality. Defined.

Definition section_eqb (a b : section) : bool :=
  if section_eq_dec a b then true else false.

(** A callback handed to [setTimeout]: the only one in the script is
    [function() { self.setControls(true); }]. *)
Inductive callback : Type :=
  | SetControlsTrue.

Record timer : Type := { callback_ : callback; delay : nat }.

(** A download triggered through the temporary anchor element. *)
Record download : Type := { file_name : string; content : string }.

(** [self], the globals it shares with the page, and the logs of its
    outputs.  [isPrinting] is the computed observable of that name, read
    from the connection view model. *)
Record VM : Type := {
  re : Grammar;
  execBackup : bool;
  startBackup : bool;
  backupConfig : string;
  stateControls : bool;
  FIRMWARE_NAME : string;
  FIRMWARE_INFO : string;
  isMarlinFirmware : bool;
  isPrinting : bool;
  hasChangedEepromForm : bool;
  data : section -> list field;
  sent : list string;
  timers : list timer;
  downloads : list download
}.

Section Setters.
Variable self : VM.

Definition set_re (g : Grammar) : VM :=
  {| re := g; execBackup := execBackup self; startBackup := startBackup self;
     backupConfig := backupConfig self; stateControls := stateControls self;
     FIRMWARE_NAME := FIRMWARE_NAME self; FIRMWARE_INFO := FIRMWARE_INFO self;
     isMarlinFirmware := isMarlinFirmware self; isPrinting := isPrinting self;
     hasChangedEepromForm := hasChangedEepromForm self; data := data self;
     sent := sent self; timers := timers self; downloads := downloads self |}.

Definition set_execBackup (b : bool) : VM :=
  {| re := re self; execBackup := b; startBackup := startBackup self;
     backupConfig := backupConfig self; stateControls := stateControls self;
     FIRMWARE_NAME := FIRMWARE_NAME self; FIRMWARE_INFO := FIRMWARE_INFO self;
     isMarlinFirmware := isMarlinFirmware self; isPrinting := isPrinting self;
     hasChangedEepromForm := hasChangedEepromForm self; data := data self;
     sent := sent self; timers := timers self; downloads := downloads self |}.

Definition set_startBackup (b : bool) : VM :=
  {| re := re self; execBackup := execBackup self; startBackup := b;
     backupConfig := backupConfig self; stateControls := stateControls self;
     FIRMWARE_NAME := FIRMWARE_NAME self; FIRMWARE_INFO := FIRMWARE_INFO self;
     isMarlinFirmware := isMarlinFirmware self; isPrinting := isPrinting self;
     hasChangedEepromForm := hasChangedEepromForm self; data := data self;
     sent := sent self; timers := timers self; downloads := downloads self |}.

Definition set_backupConfig (s : string) : VM :=
  {| re := re self; execBackup := execBackup self;
     startBackup := startBackup self;
     backupConfig := s; stateControls := stateControls self;
     FIRMWARE_NAME := FIRMWARE_NAME self; FIRMWARE_INFO := FIRMWARE_INFO self;
     isMarlinFirmware := isMarlinFirmware self; isPrinting := isPrinting self;
     hasChangedEepromForm := hasChangedEepromForm self; data := data self;
     sent := sent self; timers := timers self; downloads := downloads self |}.

Definition set_stateControls (b : bool) : VM :=
  {| re := re self; execBackup := execBackup self;
     startBackup := startBackup self;
     backupConfig := backupConfig self; stateControls := b;
     FIRMWARE_NAME := FIRMWARE_NAME self; FIRMWARE_INFO := FIRMWARE_INFO self;
     isMarlinFirmware := isMarlinFirmware self; isPrinting := isPrinting self;
     hasChangedEepromForm := hasChangedEepromForm self; data := data self;
     sent := sent self; timers := timers self; downloads := downloads self |}.

Definition set_FIRMWARE_NAME (s : string) : VM :=
  {| re := re self; execBackup := execBackup self;
     startBackup := startBackup self;
     backupConfig := backupConfig self; stateControls := stateControls self;
     FIRMWARE_NAME := s; FIRMWARE_INFO := FIRMWARE_INFO self;
     isMarlinFirmware := isMarlinFirmware self; isPrinting := isPrinting self;
     hasChangedEepromForm := hasChangedEepromForm self; data := data self;
     sent := sent self; timers := timers self; downloads := downloads self |}.

Definition set_FIRMWARE_INFO (s : string) : VM :=
  {| re := re self; execBackup := execBackup self;
     startBackup := startBackup self;
     backupConfig := backupConfig self; stateControls := stateControls self;
     FIRMWARE_NAME := FIRMWARE_NAME self; FIRMWARE_INFO := s;
     isMarlinFirmware := isMarlinFirmware self; isPrinting := isPrinting self;
     hasChangedEepromForm := hasChangedEepromForm self; data := data self;
     sent := sent self; timers := timers self; downloads := downloads self |}.

Definition set_isMarlinFirmware (b : bool) : VM :=
  {| re := re self; execBackup := execBackup self;
     startBackup := startBackup self;
     backupConfig := backupConfig self; stateControls := stateControls self;
     FIRMWARE_NAME := FIRMWARE_NAME self; FIRMWARE_INFO := FIRMWARE_INFO self;
     isMarlinFirmware := b; isPrinting := isPrinting self;
     hasChangedEepromForm := hasChangedEepromForm self; data := data self;
     sent := sent self; timers := timers self; downloads := downloads self |}.

Definition set_hasChangedEepromForm (b : bool) : VM :=
  {| re := re self; execBackup := execBackup self;
     startBackup := startBackup self;
     backupConfig := backupConfig self; stateControls := stateControls self;
     FIRMWARE_NAME := FIRMWARE_NAME self; FIRMWARE_INFO := FIRMWARE_INFO self;
     isMarlinFirmware := isMarlinFirmware self; isPrinting := isPrinting self;
     hasChangedEepromForm := b; data := data self;
     sent := sent self; timers := timers self; downloads := downloads self |}.

Definition set_data (d : section -> list field) : VM :=
  {| re := re self; execBackup := execBackup self;
     startBackup := startBackup self;
     backupConfig := backupConfig self; stateControls := stateControls self;
     FIRMWARE_NAME := FIRMWARE_NAME self; FIRMWARE_INFO := FIRMWARE_INFO self;
     isMarlinFirmware := isMarlinFirmware self; isPrinting := isPrinting self;
     hasChangedEepromForm := hasChangedEepromForm self; data := d;
     sent := sent self; timers := timers self; downloads := downloads self |}.

Definition set_sent (l : list string) : VM :=
  {| re := re self; execBackup := execBackup self;
     startBackup := startBackup self;
     backupConfig := backupConfig self; stateControls := stateControls self;
     FIRMWARE_NAME := FIRMWARE_NAME self; FIRMWARE_INFO := FIRMWARE_INFO self;
     isMarlinFirmware := isMarlinFirmware self; isPrinting := isPrinting self;
     hasChangedEepromForm := hasChangedEepromForm self; data := data self;
     sent := l; timers := timers self; downloads := downloads self |}.

Definition set_timers (l : list timer) : VM :=
  {| re := re self; execBackup := execBackup self;
     startBackup := startBackup self;
     backupConfig := backupConfig self; stateControls := stateControls self;
     FIRMWARE_NAME := FIRMWARE_NAME self; FIRMWARE_INFO := FIRMWARE_INFO self;
     isMarlinFirmware := isMarlinFirmware self; isPrinting := isPrinting self;
     hasChangedEepromForm := hasChangedEepromForm self; data := data self;
     sent := sent self; timers := l; downloads := downloads self |}.

Definition set_downloads (l : list download) : VM :=
  {| re := re self; execBackup := execBackup self;
     startBackup := startBackup self;
     backupConfig := backupConfig self; stateControls := stateControls self;
     FIRMWARE_NAME := FIRMWARE_NAME self; FIRMWARE_INFO := FIRMWARE_INFO self;
     isMarlinFirmware := isMarlinFirmware self; isPrinting := isPrinting self;
     hasChangedEepromForm := hasChangedEepromForm self; data := data self;
     sent := sent self; timers := timers self; downloads := l |}.
End Setters.

(** Statements in sequence. *)
Definition seq (F G : VM -> VM) : VM -> VM := fun self => G (F self).
Infix ";;" := seq (at level 61, right associativity).

Definition skip : VM -> VM := fun self => self.

(** [self.<array>.push(f)]. *)
Definition push (s : section) (f : field) : VM -> VM :=
  fun self =>
    set_data self
      (fun s' => if section_eqb s' s then data self s' ++ [f] else data self s').

(** [self.<array>([])]. *)
Definition clear (s : section) : VM -> VM :=
  fun self =>
    set_data self (fun s' => if section_eqb s' s then [] else data self s').

(** [self.control.sendCustomCommand({ command: cmd })]. *)
Definition sendCustomCommand (cmd : string) : VM -> VM :=
  fun self => set_sent self (sent self ++ [cmd]).

(** [setTimeout(cb, ms)]. *)
Definition setTimeout (cb : callback) (ms : nat) : VM -> VM :=
  fun self =>
    set_timers self (timers self ++ [{| callback_ := cb; delay := ms |}]).

(** [match = self.<pattern>.exec(line); if (match) { body }]. *)
Definition on_match (rx : Grammar -> regex) (line : string)
    (body : list jsval -> VM -> VM) : VM -> VM :=
  fun self =>
    match exec (rx (re self)) line with
    | Some m => body m self
    | None => self
    end.

(** [if (self.firmware_name() == n1 || self.firmware_name() == n2 || ...)
    { F } else { G }]. *)
Definition if_firmware_name (names : list string) (F G : VM -> VM)
  : VM -> VM :=
  fun self =>
    if existsb (String.eqb (FIRMWARE_NAME self)) names then F self
    else G self.

(** [if (self.<array>().length === 0) { F }]. *)
Definition if_empty (s : section) (F : VM -> VM) : VM -> VM :=
  fun self =>
    if Nat.eqb (List.length (data self s)) 0 then F self else self.

(** [if (b) { F }] for a condition that does not read [self]. *)
Definition when (b : bool) (F : VM -> VM) : VM -> VM :=
  fun self => if b then F self else self.

(** Assignment to one pattern property of [self]: [assign_<name> rx] is
    [self.<name> = rx]. *)
Section Assign.
Variable rx : regex.
Variable g : Grammar.

Definition assign_eepromM501RegEx : Grammar :=
  {| eepromM501RegEx := rx; eepromOKRegEx := eepromOKRegEx g; eepromM92RegEx
  := eepromM92RegEx g; eepromM200RegEx := eepromM200RegEx g; eepromM201RegEx
  := eepromM201RegEx g; eepromM203RegEx := eepromM203RegEx g;
  eepromM206RegEx := eepromM206RegEx g; eepromM304RegEx := eepromM304RegEx
  g; eepromM420RegEx := eepromM420RegEx g; eepromM851RegEx :=
  eepromM851RegEx g; eepromM665RegEx := eepromM665RegEx g; eepromM666RegEx
  := eepromM666RegEx g; eepromM900RegEx := eepromM900RegEx g;
  eepromM205RegEx := eepromM205RegEx g; eepromM145S0RegEx :=
  eepromM145S0RegEx g; eepromM145S1RegEx := eepromM145S1RegEx g;
  eepromM145S2RegEx := eepromM145S2RegEx g; eepromM301RegEx :=
  eepromM301RegEx g; eepromM204RegEx := eepromM204RegEx g |}.

Definition assign_eepromOKRegEx : Grammar :=
  {| eepromM501RegEx := eepromM501RegEx g; eepromOKRegEx := rx;
  eepromM92RegEx := eepromM92RegEx g; eepromM200RegEx := eepromM200RegEx g;
  eepromM201RegEx := eepromM201RegEx g; eepromM203RegEx := eepromM203RegEx
  g; eepromM206RegEx := eepromM206RegEx g; eepromM304RegEx :=
  eepromM304RegEx g; eepromM420RegEx := eepromM420RegEx g; eepromM851RegEx
  := eepromM851RegEx g; eepromM665RegEx := eepromM665RegEx g;
  eepromM666RegEx := eepromM666RegEx g; eepromM900RegEx := eepromM900RegEx
  g; eepromM205RegEx := eepromM205RegEx g; eepromM145S0RegEx :=
  eepromM145S0RegEx g; eepromM145S1RegEx := eepromM145S1RegEx g;
  eepromM145S2RegEx := eepromM145S2RegEx g; eepromM301RegEx :=
  eepromM301RegEx g; eepromM204RegEx := eepromM204RegEx g |}.

Definition assign_eepromM92RegEx : Grammar :=
  {| eepromM501RegEx := eepromM501RegEx g; eepromOKRegEx := eepromOKRegEx g;
  eepromM92RegEx := rx; eepromM200RegEx := eepromM200RegEx g;
  eepromM201RegEx := eepromM201RegEx g; eepromM203RegEx := eepromM203RegEx
  g; eepromM206RegEx := eepromM206RegEx g; eepromM304RegEx :=
  eepromM304RegEx g; eepromM420RegEx := eepromM420RegEx g; eepromM851RegEx
  := eepromM851RegEx g; eepromM665RegEx := eepromM665RegEx g;
  eepromM666RegEx := eepromM666RegEx g; eepromM900RegEx := eepromM900RegEx
  g; eepromM205RegEx := eepromM205RegEx g; eepromM145S0RegEx :=
  eepromM145S0RegEx g; eepromM145S1RegEx := eepromM145S1RegEx g;
  eepromM145S2RegEx := eepromM145S2RegEx g; eepromM301RegEx :=
  eepromM301RegEx g; eepromM204RegEx := eepromM204RegEx g |}.

Definition assign_eepromM200RegEx : Grammar :=
  {| eepromM501RegEx := eepromM501RegEx g; eepromOKRegEx := eepromOKRegEx g;
  eepromM92RegEx := eepromM92RegEx g; eepromM200RegEx := rx; eepromM201RegEx
  := eepromM201RegEx g; eepromM203RegEx := eepromM203RegEx g;
  eepromM206RegEx := eepromM206RegEx g; eepromM304RegEx := eepromM304RegEx
  g; eepromM420RegEx := eepromM420RegEx g; eepromM851RegEx :=
  eepromM851RegEx g; eepromM665RegEx := eepromM665RegEx g; eepromM666RegEx
  := eepromM666RegEx g; eepromM900RegEx := eepromM900RegEx g;
  eepromM205RegEx := eepromM205RegEx g; eepromM145S0RegEx :=
  eepromM145S0RegEx g; eepromM145S1RegEx := eepromM145S1RegEx g;
  eepromM145S2RegEx := eepromM145S2RegEx g; eepromM301RegEx :=
  eepromM301RegEx g; eepromM204RegEx := eepromM204RegEx g |}.

Definition assign_eepromM201RegEx : Grammar :=
  {| eepromM501RegEx := eepromM501RegEx g; eepromOKRegEx := eepromOKRegEx g;
  eepromM92RegEx := eepromM92RegEx g; eepromM200RegEx := eepromM200RegEx g;
  eepromM201RegEx := rx; eepromM203RegEx := eepromM203RegEx g;
  eepromM206RegEx := eepromM206RegEx g; eepromM304RegEx := eepromM304RegEx
  g; eepromM420RegEx := eepromM420RegEx g; eepromM851RegEx :=
  eepromM851RegEx g; eepromM665RegEx := eepromM665RegEx g; eepromM666RegEx
  := eepromM666RegEx g; eepromM900RegEx := eepromM900RegEx g;
  eepromM205RegEx := eepromM205RegEx g; eepromM145S0RegEx :=
  eepromM145S0RegEx g; eepromM145S1RegEx := eepromM145S1RegEx g;
  eepromM145S2RegEx := eepromM145S2RegEx g; eepromM301RegEx :=
  eepromM301RegEx g; eepromM204RegEx := eepromM204RegEx g |}.

Definition assign_eepromM203RegEx : Grammar :=
  {| eepromM501RegEx := eepromM501RegEx g; eepromOKRegEx := eepromOKRegEx g;
  eepromM92RegEx := eepromM92RegEx g; eepromM200RegEx := eepromM200RegEx g;
  eepromM201RegEx := eepromM201RegEx g; eepromM203RegEx := rx;
  eepromM206RegEx := eepromM206RegEx g; eepromM304RegEx := eepromM304RegEx
  g; eepromM420RegEx := eepromM420RegEx g; eepromM851RegEx :=
  eepromM851RegEx g; eepromM665RegEx := eepromM665RegEx g; eepromM666RegEx
  := eepromM666RegEx g; eepromM900RegEx := eepromM900RegEx g;
  eepromM205RegEx := eepromM205RegEx g; eepromM145S0RegEx :=
  eepromM145S0RegEx g; eepromM145S1RegEx := eepromM145S1RegEx g;
  eepromM145S2RegEx := eepromM145S2RegEx g; eepromM301RegEx :=
  eepromM301RegEx g; eepromM204RegEx := eepromM204RegEx g |}.

Definition assign_eepromM206RegEx : Grammar :=
  {| eepromM501RegEx := eepromM501RegEx g; eepromOKRegEx := eepromOKRegEx g;
  eepromM92RegEx := eepromM92RegEx g; eepromM200RegEx := eepromM200RegEx g;
  eepromM201RegEx := eepromM201RegEx g; eepromM203RegEx := eepromM203RegEx
  g; eepromM206RegEx := rx; eepromM304RegEx := eepromM304RegEx g;
  eepromM420RegEx := eepromM420RegEx g; eepromM851RegEx := eepromM851RegEx
  g; eepromM665RegEx := eepromM665RegEx g; eepromM666RegEx :=
  eepromM666RegEx g; eepromM900RegEx := eepromM900RegEx g; eepromM205RegEx
  := eepromM205RegEx g; eepromM145S0RegEx := eepromM145S0RegEx g;
  eepromM145S1RegEx := eepromM145S1RegEx g; eepromM145S2RegEx :=
  eepromM145S2RegEx g; eepromM301RegEx := eepromM301RegEx g; eepromM204RegEx
  := eepromM204RegEx g |}.

Definition assign_eepromM304RegEx : Grammar :=
  {| eepromM501RegEx := eepromM501RegEx g; eepromOKRegEx := eepromOKRegEx g;
  eepromM92RegEx := eepromM92RegEx g; eepromM200RegEx := eepromM200RegEx g;
  eepromM201RegEx := eepromM201RegEx g; eepromM203RegEx := eepromM203RegEx
  g; eepromM206RegEx := eepromM206RegEx g; eepromM304RegEx := rx;
  eepromM420RegEx := eepromM420RegEx g; eepromM851RegEx := eepromM851RegEx
  g; eepromM665RegEx := eepromM665RegEx g; eepromM666RegEx :=
  eepromM666RegEx g; eepromM900RegEx := eepromM900RegEx g; eepromM205RegEx
  := eepromM205RegEx g; eepromM145S0RegEx := eepromM145S0RegEx g;
  eepromM145S1RegEx := eepromM145S1RegEx g; eepromM145S2RegEx :=
  eepromM145S2RegEx g; eepromM301RegEx := eepromM301RegEx g; eepromM204RegEx
  := eepromM204RegEx g |}.

Definition assign_eepromM420RegEx : Grammar :=
  {| eepromM501RegEx := eepromM501RegEx g; eepromOKRegEx := eepromOKRegEx g;
  eepromM92RegEx := eepromM92RegEx g; eepromM200RegEx := eepromM200RegEx g;
  eepromM201RegEx := eepromM201RegEx g; eepromM203RegEx := eepromM203RegEx
  g; eepromM206RegEx := eepromM206RegEx g; eepromM304RegEx :=
  eepromM304RegEx g; eepromM420RegEx := rx; eepromM851RegEx :=
  eepromM851RegEx g; eepromM665RegEx := eepromM665RegEx g; eepromM666RegEx
  := eepromM666RegEx g; eepromM900RegEx := eepromM900RegEx g;
  eepromM205RegEx := eepromM205RegEx g; eepromM145S0RegEx :=
  eepromM145S0RegEx g; eepromM145S1RegEx := eepromM145S1RegEx g;
  eepromM145S2RegEx := eepromM145S2RegEx g; eepromM301RegEx :=
  eepromM301RegEx g; eepromM204RegEx := eepromM204RegEx g |}.

Definition assign_eepromM851RegEx : Grammar :=
  {| eepromM501RegEx := eepromM501RegEx g; eepromOKRegEx := eepromOKRegEx g;
  eepromM92RegEx := eepromM92RegEx g; eepromM200RegEx := eepromM200RegEx g;
  eepromM201RegEx := eepromM201RegEx g; eepromM203RegEx := eepromM203RegEx
  g; eepromM206RegEx := eepromM206RegEx g; eepromM304RegEx :=
  eepromM304RegEx g; eepromM420RegEx := eepromM420RegEx g; eepromM851RegEx
  := rx; eepromM665RegEx := eepromM665RegEx g; eepromM666RegEx :=
  eepromM666RegEx g; eepromM900RegEx := eepromM900RegEx g; eepromM205RegEx
  := eepromM205RegEx g; eepromM145S0RegEx := eepromM145S0RegEx g;
  eepromM145S1RegEx := eepromM145S1RegEx g; eepromM145S2RegEx :=
  eepromM145S2RegEx g; eepromM301RegEx := eepromM301RegEx g; eepromM204RegEx
  := eepromM204RegEx g |}.

Definition assign_eepromM665RegEx : Grammar :=
  {| eepromM501RegEx := eepromM501RegEx g; eepromOKRegEx := eepromOKRegEx g;
  eepromM92RegEx := eepromM92RegEx g; eepromM200RegEx := eepromM200RegEx g;
  eepromM201RegEx := eepromM201RegEx g; eepromM203RegEx := eepromM203RegEx
  g; eepromM206RegEx := eepromM206RegEx g; eepromM304RegEx :=
  eepromM304RegEx g; eepromM420RegEx := eepromM420RegEx g; eepromM851RegEx
  := eepromM851RegEx g; eepromM665RegEx := rx; eepromM666RegEx :=
  eepromM666RegEx g; eepromM900RegEx := eepromM900RegEx g; eepromM205RegEx
  := eepromM205RegEx g; eepromM145S0RegEx := eepromM145S0RegEx g;
  eepromM145S1RegEx := eepromM145S1RegEx g; eepromM145S2RegEx :=
  eepromM145S2RegEx g; eepromM301RegEx := eepromM301RegEx g; eepromM204RegEx
  := eepromM204RegEx g |}.

Definition assign_eepromM666RegEx : Grammar :=
  {| eepromM501RegEx := eepromM501RegEx g; eepromOKRegEx := eepromOKRegEx g;
  eepromM92RegEx := eepromM92RegEx g; eepromM200RegEx := eepromM200RegEx g;
  eepromM201RegEx := eepromM201RegEx g; eepromM203RegEx := eepromM203RegEx
  g; eepromM206RegEx := eepromM206RegEx g; eepromM304RegEx :=
  eepromM304RegEx g; eepromM420RegEx := eepromM420RegEx g; eepromM851RegEx
  := eepromM851RegEx g; eepromM665RegEx := eepromM665RegEx g;
  eepromM666RegEx := rx; eepromM900RegEx := eepromM900RegEx g;
  eepromM205RegEx := eepromM205RegEx g; eepromM145S0RegEx :=
  eepromM145S0RegEx g; eepromM145S1RegEx := eepromM145S1RegEx g;
  eepromM145S2RegEx := eepromM145S2RegEx g; eepromM301RegEx :=
  eepromM301RegEx g; eepromM204RegEx := eepromM204RegEx g |}.

Definition assign_eepromM900RegEx : Grammar :=
  {| eepromM501RegEx := eepromM501RegEx g; eepromOKRegEx := eepromOKRegEx g;
  eepromM92RegEx := eepromM92RegEx g; eepromM200RegEx := eepromM200RegEx g;
  eepromM201RegEx := eepromM201RegEx g; eepromM203RegEx := eepromM203RegEx
  g; eepromM206RegEx := eepromM206RegEx g; eepromM304RegEx :=
  eepromM304RegEx g; eepromM420RegEx := eepromM420RegEx g; eepromM851RegEx
  := eepromM851RegEx g; eepromM665RegEx := eepromM665RegEx g;
  eepromM666RegEx := eepromM666RegEx g; eepromM900RegEx := rx;
  eepromM205RegEx := eepromM205RegEx g; eepromM145S0RegEx :=
  eepromM145S0RegEx g; eepromM145S1RegEx := eepromM145S1RegEx g;
  eepromM145S2RegEx := eepromM145S2RegEx g; eepromM301RegEx :=
  eepromM301RegEx g; eepromM204RegEx := eepromM204RegEx g |}.

Definition assign_eepromM205RegEx : Grammar :=
  {| eepromM501RegEx := eepromM501RegEx g; eepromOKRegEx := eepromOKRegEx g;
  eepromM92RegEx := eepromM92RegEx g; eepromM200RegEx := eepromM200RegEx g;
  eepromM201RegEx := eepromM201RegEx g; eepromM203RegEx := eepromM203RegEx
  g; eepromM206RegEx := eepromM206RegEx g; eepromM304RegEx :=
  eepromM304RegEx g; eepromM420RegEx := eepromM420RegEx g; eepromM851RegEx
  := eepromM851RegEx g; eepromM665RegEx := eepromM665RegEx g;
  eepromM666RegEx := eepromM666RegEx g; eepromM900RegEx := eepromM900RegEx
  g; eepromM205RegEx := rx; eepromM145S0RegEx := eepromM145S0RegEx g;
  eepromM145S1RegEx := eepromM145S1RegEx g; eepromM145S2RegEx :=
  eepromM145S2RegEx g; eepromM301RegEx := eepromM301RegEx g; eepromM204RegEx
  := eepromM204RegEx g |}.

Definition assign_eepromM145S0RegEx : Grammar :=
  {| eepromM501RegEx := eepromM501RegEx g; eepromOKRegEx := eepromOKRegEx g;
  eepromM92RegEx := eepromM92RegEx g; eepromM200RegEx := eepromM200RegEx g;
  eepromM201RegEx := eepromM201RegEx g; eepromM203RegEx := eepromM203RegEx
  g; eepromM206RegEx := eepromM206RegEx g; eepromM304RegEx :=
  eepromM304RegEx g; eepromM420RegEx := eepromM420RegEx g; eepromM851RegEx
  := eepromM851RegEx g; eepromM665RegEx := eepromM665RegEx g;
  eepromM666RegEx := eepromM666RegEx g; eepromM900RegEx := eepromM900RegEx
  g; eepromM205RegEx := eepromM205RegEx g; eepromM145S0RegEx := rx;
  eepromM145S1RegEx := eepromM145S1RegEx g; eepromM145S2RegEx :=
  eepromM145S2RegEx g; eepromM301RegEx := eepromM301RegEx g; eepromM204RegEx
  := eepromM204RegEx g |}.

Definition assign_eepromM145S1RegEx : Grammar :=
  {| eepromM501RegEx := eepromM501RegEx g; eepromOKRegEx := eepromOKRegEx g;
  eepromM92RegEx := eepromM92RegEx g; eepromM200RegEx := eepromM200RegEx g;
  eepromM201RegEx := eepromM201RegEx g; eepromM203RegEx := eepromM203RegEx
  g; eepromM206RegEx := eepromM206RegEx g; eepromM304RegEx :=
  eepromM304RegEx g; eepromM420RegEx := eepromM420RegEx g; eepromM851RegEx
  := eepromM851RegEx g; eepromM665RegEx := eepromM665RegEx g;
  eepromM666RegEx := eepromM666RegEx g; eepromM900RegEx := eepromM900RegEx
  g; eepromM205RegEx := eepromM205RegEx g; eepromM145S0RegEx :=
  eepromM145S0RegEx g; eepromM145S1RegEx := rx; eepromM145S2RegEx :=
  eepromM145S2RegEx g; eepromM301RegEx := eepromM301RegEx g; eepromM204RegEx
  := eepromM204RegEx g |}.

Definition assign_eepromM145S2RegEx : Grammar :=
  {| eepromM501RegEx := eepromM501RegEx g; eepromOKRegEx := eepromOKRegEx g;
  eepromM92RegEx := eepromM92RegEx g; eepromM200RegEx := eepromM200RegEx g;
  eepromM201RegEx := eepromM201RegEx g; eepromM203RegEx := eepromM203RegEx
  g; eepromM206RegEx := eepromM206RegEx g; eepromM304RegEx :=
  eepromM304RegEx g; eepromM420RegEx := eepromM420RegEx g; eepromM851RegEx
  := eepromM851RegEx g; eepromM665RegEx := eepromM665RegEx g;
  eepromM666RegEx := eepromM666RegEx g; eepromM900RegEx := eepromM900RegEx
  g; eepromM205RegEx := eepromM205RegEx g; eepromM145S0RegEx :=
  eepromM145S0RegEx g; eepromM145S1RegEx := eepromM145S1RegEx g;
  eepromM145S2RegEx := rx; eepromM301RegEx := eepromM301RegEx g;
  eepromM204RegEx := eepromM204RegEx g |}.

Definition assign_eepromM301RegEx : Grammar :=
  {| eepromM501RegEx := eepromM501RegEx g; eepromOKRegEx := eepromOKRegEx g;
  eepromM92RegEx := eepromM92RegEx g; eepromM200RegEx := eepromM200RegEx g;
  eepromM201RegEx := eepromM201RegEx g; eepromM203RegEx := eepromM203RegEx
  g; eepromM206RegEx := eepromM206RegEx g; eepromM304RegEx :=
  eepromM304RegEx g; eepromM420RegEx := eepromM420RegEx g; eepromM851RegEx
  := eepromM851RegEx g; eepromM665RegEx := eepromM665RegEx g;
  eepromM666RegEx := eepromM666RegEx g; eepromM900RegEx := eepromM900RegEx
  g; eepromM205RegEx := eepromM205RegEx g; eepromM145S0RegEx :=
  eepromM145S0RegEx g; eepromM145S1RegEx := eepromM145S1RegEx g;
  eepromM145S2RegEx := eepromM145S2RegEx g; eepromM301RegEx := rx;
  eepromM204RegEx := eepromM204RegEx g |}.

Definition assign_eepromM204RegEx : Grammar :=
  {| eepromM501RegEx := eepromM501RegEx g; eepromOKRegEx := eepromOKRegEx g;
  eepromM92RegEx := eepromM92RegEx g; eepromM200RegEx := eepromM200RegEx g;
  eepromM201RegEx := eepromM201RegEx g; eepromM203RegEx := eepromM203RegEx
  g; eepromM206RegEx := eepromM206RegEx g; eepromM304RegEx :=
  eepromM304RegEx g; eepromM420RegEx := eepromM420RegEx g; eepromM851RegEx
  := eepromM851RegEx g; eepromM665RegEx := eepromM665RegEx g;
  eepromM666RegEx := eepromM666RegEx g; eepromM900RegEx := eepromM900RegEx
  g; eepromM205RegEx := eepromM205RegEx g; eepromM145S0RegEx :=
  eepromM145S0RegEx g; eepromM145S1RegEx := eepromM145S1RegEx g;
  eepromM145S2RegEx := eepromM145S2RegEx g; eepromM301RegEx :=
  eepromM301RegEx g; eepromM204RegEx := rx |}.
End Assign.

(** A block of assignments, executed top to bottom. *)
Definition assignments (l : list (Grammar -> Grammar)) (g : Grammar)
  : Grammar :=
  fold_left (fun g a => a g) l g.

(** [self.setRegExVars(version)] (lines 15-71).  The branch for the 1.0.2
    family assigns no material-heatup pattern: the three properties keep
    what an earlier call left there. *)
Definition setRegExVars (version : string) : VM -> VM :=
  fun self =>
    let eq := String.eqb version in
    let all_versions :=
      assignments
        [assign_eepromM501RegEx Lit.M501;
         assign_eepromOKRegEx Lit.OK;
         assign_eepromM92RegEx Lit.M92;
         assign_eepromM200RegEx Lit.M200;
         assign_eepromM201RegEx Lit.M201;
         assign_eepromM203RegEx Lit.M203;
         assign_eepromM206RegEx Lit.M206;
         assign_eepromM304RegEx Lit.M304;
         assign_eepromM420RegEx Lit.M420;
         assign_eepromM851RegEx Lit.M851;
         assign_eepromM665RegEx Lit.M665;
         assign_eepromM666RegEx Lit.M666] in
    let specific :=
      if eq "Marlin bugfix-2.0.x" then
        assignments
          [assign_eepromM900RegEx Lit.M900_bugfix;
           assign_eepromM205RegEx Lit.M205_bugfix;
           assign_eepromM145S0RegEx Lit.M145S0;
           assign_eepromM145S1RegEx Lit.M145S1;
           assign_eepromM145S2RegEx Lit.M145S2;
           assign_eepromM301RegEx Lit.M301;
           assign_eepromM204RegEx Lit.M204]
      else if eq "latest" || eq "Marlin 1.1.0-RC8" || eq "Marlin 1.1.1"
              || eq "Marlin 1.1.2" || eq "Marlin 1.1.3" || eq "Marlin 1.1.4"
              || eq "Marlin 1.1.5" || eq "Marlin 1.1.6" || eq "Marlin 1.1.7"
              || eq "Marlin 1.1.8" then
        assignments
          [assign_eepromM205RegEx Lit.M205;
           assign_eepromM145S0RegEx Lit.M145S0;
           assign_eepromM145S1RegEx Lit.M145S1;
           assign_eepromM145S2RegEx Lit.M145S2;
           assign_eepromM301RegEx Lit.M301;
           assign_eepromM204RegEx Lit.M204;
           assign_eepromM900RegEx Lit.M900]
      else if eq "Marlin 1.1.0-RC1" || eq "Marlin 1.1.0-RC2"
              || eq "Marlin 1.1.0-RC3" || eq "Marlin 1.1.0-RC4"
              || eq "Marlin 1.1.0-RC5" || eq "Marlin 1.1.0-RC6"
              || eq "Marlin 1.1.0-RC7" then
        assignments
          [assign_eepromM205RegEx Lit.M205_noY;
           assign_eepromM145S0RegEx Lit.M145M0;
           assign_eepromM145S1RegEx Lit.M145M1;
           assign_eepromM145S2RegEx Lit.M145M2;
           assign_eepromM301RegEx Lit.M301_rc;
           assign_eepromM204RegEx Lit.M204;
           assign_eepromM900RegEx Lit.M900]
      else if eq "Marlin 1.0.2+" || eq "Marlin V1.0.2;" || eq "Marlin 1.0.2"
              || eq "Marlin V1;" then
        assignments
          [assign_eepromM204RegEx Lit.M204_legacy;
           assign_eepromM205RegEx Lit.M205_noY;
           assign_eepromM301RegEx Lit.M301;
           assign_eepromM900RegEx Lit.M900]
      else
        assignments
          [assign_eepromM205RegEx Lit.M205;
           assign_eepromM145S0RegEx Lit.M145S0;
           assign_eepromM145S1RegEx Lit.M145S1;
           assign_eepromM145S2RegEx Lit.M145S2;
           assign_eepromM301RegEx Lit.M301;
           assign_eepromM204RegEx Lit.M204;
           assign_eepromM900RegEx Lit.M900] in
    set_re self (specific (all_versions (re self))).

(** [self.eepromFieldParse(line, restoreBackup)] (lines 134-1282); [m] is
    the variable [match].  The statements are in the order of the script. *)
Definition eepromFieldParse (line : string) (restoreBackup : bool)
  : VM -> VM :=
  (fun self =>
     match exec (eepromOKRegEx (re self)) line with
     | Some matchOK => setTimeout SetControlsTrue 2000 self
     | None => self
     end) ;;
  on_match eepromM92RegEx line (fun m =>
    push eepromDataSteps
      {| dataType := "M92 X"; label := "X axis";
         origValue := (if restoreBackup then VStr "" else m.[2]);
         value := m.[2];
         unit_ := "mm"; description := "steps per unit" |} ;;
    push eepromDataSteps
      {| dataType := "M92 Y"; label := "Y axis";
         origValue := (if restoreBackup then VStr "" else m.[4]);
         value := m.[4];
         unit_ := "mm"; description := "steps per unit" |} ;;
    push eepromDataSteps
      {| dataType := "M92 Z"; label := "Z axis";
         origValue := (if restoreBackup then VStr "" else m.[6]);
         value := m.[6];
         unit_ := "mm"; description := "steps per unit" |} ;;
    push eepromDataSteps
      {| dataType := "M92 E"; label := "Extruder";
         origValue := (if restoreBackup then VStr "" else m.[8]);
         value := m.[8];
         unit_ := "mm"; description := "steps per unit" |}) ;;
  on_match eepromM203RegEx line (fun m =>
    push eepromDataFRates
      {| dataType := "M203 X"; label := "X axis";
         origValue := (if restoreBackup then VStr "" else m.[2]);
         value := m.[2];
         unit_ := "mm"; description := "rate per unit" |} ;;
    push eepromDataFRates
      {| dataType := "M203 Y"; label := "Y axis";
         origValue := (if restoreBackup then VStr "" else m.[4]);
         value := m.[4];
         unit_ := "mm"; description := "rate per unit" |} ;;
    push eepromDataFRates
      {| dataType := "M203 Z"; label := "Z axis";
         origValue := (if restoreBackup then VStr "" else m.[6]);
         value := m.[6];
         unit_ := "mm"; description := "rate per unit" |} ;;
    push eepromDataFRates
      {| dataType := "M203 E"; label := "Extruder";
         origValue := (if restoreBackup then VStr "" else m.[8]);
         value := m.[8];
         unit_ := "mm"; description := "rate per unit" |}) ;;
  on_match eepromM201RegEx line (fun m =>
    push eepromDataMaxAccel
      {| dataType := "M201 X"; label := "X axis";
         origValue := (if restoreBackup then VStr "" else m.[2]);
         value := m.[2];
         unit_ := "mm/s2"; description := "" |} ;;
    push eepromDataMaxAccel
      {| dataType := "M201 Y"; label := "Y axis";
         origValue := (if restoreBackup then VStr "" else m.[4]);
         value := m.[4];
         unit_ := "mm/s2"; description := "" |} ;;
    push eepromDataMaxAccel
      {| dataType := "M201 Z"; label := "Z axis";
         origValue := (if restoreBackup then VStr "" else m.[6]);
         value := m.[6];
         unit_ := "mm/s2"; description := "" |} ;;
    push eepromDataMaxAccel
      {| dataType := "M201 E"; label := "Extruder";
         origValue := (if restoreBackup then VStr "" else m.[8]);
         value := m.[8];
         unit_ := "mm/s2"; description := "" |}) ;;
  on_match eepromM851RegEx line (fun m =>
    push eepromData1
      {| dataType := "M851 Z"; label := "Z-Probe Offset";
         origValue := (if restoreBackup then VStr "" else m.[2]);
         value := m.[2];
         unit_ := "mm"; description := "" |}) ;;
  on_match eepromM206RegEx line (fun m =>
    push eepromDataHoming
      {| dataType := "M206 X"; label := "X axis";
         origValue := (if restoreBackup then VStr "" else m.[2]);
         value := m.[2];
         unit_ := "mm"; description := "" |} ;;
    push eepromDataHoming
      {| dataType := "M206 Y"; label := "Y axis";
         origValue := (if restoreBackup then VStr "" else m.[4]);
         value := m.[4];
         unit_ := "mm"; description := "" |} ;;
    push eepromDataHoming
      {| dataType := "M206 Z"; label := "Z axis";
         origValue := (if restoreBackup then VStr "" else m.[6]);
         value := m.[6];
         unit_ := "mm"; description := "" |}) ;;
  on_match eepromM666RegEx line (fun m =>
    push eepromDataEndstop
      {| dataType := "M666 X"; label := "X axis";
         origValue := (if restoreBackup then VStr "" else m.[2]);
         value := m.[2];
         unit_ := "mm"; description := "" |} ;;
    push eepromDataEndstop
      {| dataType := "M666 Y"; label := "Y axis";
         origValue := (if restoreBackup then VStr "" else m.[4]);
         value := m.[4];
         unit_ := "mm"; description := "" |} ;;
    push eepromDataEndstop
      {| dataType := "M666 Z"; label := "Z axis";
         origValue := (if restoreBackup then VStr "" else m.[6]);
         value := m.[6];
         unit_ := "mm"; description := "" |}) ;;
  on_match eepromM665RegEx line (fun m =>
    push eepromDataDelta1
      {| dataType := "M665 L"; label := "Diag Rod";
         origValue := (if restoreBackup then VStr "" else m.[2]);
         value := m.[2];
         unit_ := "mm"; description := "" |} ;;
    push eepromDataDelta1
      {| dataType := "M665 R"; label := "Radius";
         origValue := (if restoreBackup then VStr "" else m.[4]);
         value := m.[4];
         unit_ := "mm"; description := "" |} ;;
    push eepromDataDelta1
      {| dataType := "M665 S"; label := "Segments";
         origValue := (if restoreBackup then VStr "" else m.[6]);
         value := m.[6];
         unit_ := "s"; description := "" |} ;;
    push eepromDataDelta2
      {| dataType := "M665 A"; label := "Diag A";
         origValue := (if restoreBackup then VStr "" else m.[8]);
         value := m.[8];
         unit_ := "mm"; description := "" |} ;;
    push eepromDataDelta2
      {| dataType := "M665 B"; label := "Diag B";
         origValue := (if restoreBackup then VStr "" else m.[10]);
         value := m.[10];
         unit_ := "mm"; description := "" |} ;;
    push eepromDataDelta2
      {| dataType := "M665 C"; label := "Diag C";
         origValue := (if restoreBackup then VStr "" else m.[12]);
         value := m.[12];
         unit_ := "mm"; description := "" |}) ;;
  on_match eepromM900RegEx line (fun m =>
    push eepromDataLinear
      {| dataType := "M900 K"; label := "Linear Advance K";
         origValue := (if restoreBackup then VStr "" else m.[2]);
         value := m.[2];
         unit_ := "mm"; description := "" |} ;;
    push eepromDataLinear
      {| dataType := "M900 R"; label := "Linear Ratio";
         origValue := (if restoreBackup then VStr "" else m.[4]);
         value := m.[4];
         unit_ := "mm"; description := "" |}) ;;
  on_match eepromM200RegEx line (fun m =>
    if_empty eepromDataFilament (
      push eepromDataFilament
        {| dataType := "M200 D"; label := "Diameter";
           origValue := (if restoreBackup then VStr "" else m.[2]);
           value := m.[2];
           unit_ := "mm"; description := "" |})) ;;
  on_match eepromM304RegEx line (fun m =>
    push eepromDataPIDB
      {| dataType := "M304 P"; label := "Bed Kp";
         origValue := (if restoreBackup then VStr "" else m.[2]);
         value := m.[2];
         unit_ := "term"; description := "" |} ;;
    push eepromDataPIDB
      {| dataType := "M304 I"; label := "Ki";
         origValue := (if restoreBackup then VStr "" else m.[4]);
         value := m.[4];
         unit_ := "term"; description := "" |} ;;
    push eepromDataPIDB
      {| dataType := "M304 D"; label := "Kd";
         origValue := (if restoreBackup then VStr "" else m.[6]);
         value := m.[6];
         unit_ := "term"; description := "" |}) ;;
  (if_firmware_name
     ["Marlin 1.1.0-RC8"; "Marlin 1.1.1"; "Marlin 1.1.2"; "Marlin 1.1.3";
      "Marlin 1.1.4"; "Marlin 1.1.5"; "Marlin 1.1.6"; "Marlin 1.1.7";
      "Marlin 1.1.8"; "Marlin bugfix-2.0.x"; "Marlin bugfix-2.0.x (Github)"]
    (
      on_match eepromM205RegEx line (fun m =>
        push eepromData1
          {| dataType := "M205 S"; label := "Min feedrate";
             origValue := (if restoreBackup then VStr "" else m.[2]);
             value := m.[2];
             unit_ := "mm/s"; description := "" |} ;;
        push eepromData1
          {| dataType := "M205 T"; label := "Min travel";
             origValue := (if restoreBackup then VStr "" else m.[4]);
             value := m.[4];
             unit_ := "mm/s"; description := "" |} ;;
        push eepromData1
          {| dataType := "M205 B"; label := "Min segment";
             origValue := (if restoreBackup then VStr "" else m.[6]);
             value := m.[6];
             unit_ := "mm/s"; description := "" |} ;;
        push eepromData2
          {| dataType := "M205 X"; label := "Max X jerk";
             origValue := (if restoreBackup then VStr "" else m.[8]);
             value := m.[8];
             unit_ := "mm/s"; description := "" |} ;;
        push eepromData2
          {| dataType := "M205 Y"; label := "Max Y jerk";
             origValue := (if restoreBackup then VStr "" else m.[10]);
             value := m.[10];
             unit_ := "mm/s"; description := "" |} ;;
        push eepromData2
          {| dataType := "M205 Z"; label := "Max Z jerk";
             origValue := (if restoreBackup then VStr "" else m.[12]);
             value := m.[12];
             unit_ := "mm/s"; description := "" |} ;;
        push eepromData2
          {| dataType := "M205 E"; label := "Max E jerk";
             origValue := (if restoreBackup then VStr "" else m.[14]);
             value := m.[14];
             unit_ := "mm/s"; description := "" |}) ;;
      on_match eepromM204RegEx line (fun m =>
        push eepromDataAccel
          {| dataType := "M204 P"; label := "Printing moves";
             origValue := (if restoreBackup then VStr "" else m.[2]);
             value := m.[2];
             unit_ := "mm/s2"; description := "" |} ;;
        push eepromDataAccel
          {| dataType := "M204 R"; label := "Retract";
             origValue := (if restoreBackup then VStr "" else m.[4]);
             value := m.[4];
             unit_ := "mm/s2"; description := "" |} ;;
        push eepromDataAccel
          {| dataType := "M204 T"; label := "Travel";
             origValue := (if restoreBackup then VStr "" else m.[6]);
             value := m.[6];
             unit_ := "mm/s2"; description := "" |}) ;;
      on_match eepromM301RegEx line (fun m =>
        push eepromDataPID
          {| dataType := "M301 P"; label := "Hotend Kp";
             origValue := (if restoreBackup then VStr "" else m.[2]);
             value := m.[2];
             unit_ := "term"; description := "" |} ;;
        push eepromDataPID
          {| dataType := "M301 I"; label := "Ki";
             origValue := (if restoreBackup then VStr "" else m.[4]);
             value := m.[4];
             unit_ := "term"; description := "" |} ;;
        push eepromDataPID
          {| dataType := "M301 D"; label := "Kd";
             origValue := (if restoreBackup then VStr "" else m.[6]);
             value := m.[6];
             unit_ := "term"; description := "" |}) ;;
      on_match eepromM145S0RegEx line (fun m =>
        push eepromDataMaterialHS0
          {| dataType := "M145 S0 H"; label := "S0 Hotend Temperature";
             origValue := (if restoreBackup then VStr "" else m.[2]);
             value := m.[2];
             unit_ := ""; description := "" |} ;;
        push eepromDataMaterialHS0
          {| dataType := "M145 S0 B"; label := "Bed Temperature";
             origValue := (if restoreBackup then VStr "" else m.[4]);
             value := m.[4];
             unit_ := ""; description := "" |} ;;
        push eepromDataMaterialHS0
          {| dataType := "M145 S0 F"; label := "Fan Speed";
             origValue := (if restoreBackup then VStr "" else m.[6]);
             value := m.[6];
             unit_ := ""; description := "" |}) ;;
      on_match eepromM145S1RegEx line (fun m =>
        push eepromDataMaterialHS1
          {| dataType := "M145 S1 H"; label := "S1 Hotend Temperature";
             origValue := (if restoreBackup then VStr "" else m.[2]);
             value := m.[2];
             unit_ := ""; description := "" |} ;;
        push eepromDataMaterialHS1
          {| dataType := "M145 S1 B"; label := "Bed Temperature";
             origValue := (if restoreBackup then VStr "" else m.[4]);
             value := m.[4];
             unit_ := ""; description := "" |} ;;
        push eepromDataMaterialHS1
          {| dataType := "M145 S1 F"; label := "Fan Speed";
             origValue := (if restoreBackup then VStr "" else m.[6]);
             value := m.[6];
             unit_ := ""; description := "" |}) ;;
      on_match eepromM145S2RegEx line (fun m =>
        push eepromDataMaterialHS2
          {| dataType := "M145 S2 H"; label := "S2 Hotend Temperature";
             origValue := (if restoreBackup then VStr "" else m.[2]);
             value := m.[2];
             unit_ := ""; description := "" |} ;;
        push eepromDataMaterialHS2
          {| dataType := "M145 S2 B"; label := "Bed Temperature";
             origValue := (if restoreBackup then VStr "" else m.[4]);
             value := m.[4];
             unit_ := ""; description := "" |} ;;
        push eepromDataMaterialHS2
          {| dataType := "M145 S2 F"; label := "Fan Speed";
             origValue := (if restoreBackup then VStr "" else m.[6]);
             value := m.[6];
             unit_ := ""; description := "" |}) ;;
      on_match eepromM420RegEx line (fun m =>
        push eepromDataLevel
          {| dataType := "M420 S"; label := "Auto Bed Leveling";
             origValue := (if restoreBackup then VStr "" else m.[2]);
             value := m.[2];
             unit_ := "0/1"; description := "" |} ;;
        when (3 <=? List.length m)%nat (
          push eepromDataLevel
            {| dataType := "M420 Z"; label := "Fade height";
               origValue := (if restoreBackup then VStr "" else m.[4]);
               value := m.[4];
               unit_ := "mm"; description := "" |})))
    (if_firmware_name
       ["Marlin 1.1.0-RC1"; "Marlin 1.1.0-RC2"; "Marlin 1.1.0-RC3";
        "Marlin 1.1.0-RC4"; "Marlin 1.1.0-RC5"; "Marlin 1.1.0-RC6";
        "Marlin 1.1.0-RC7"]
      (
        on_match eepromM205RegEx line (fun m =>
          push eepromData1
            {| dataType := "M205 S"; label := "Min feedrate";
               origValue := (if restoreBackup then VStr "" else m.[2]);
               value := m.[2];
               unit_ := "mm/s"; description := "" |} ;;
          push eepromData1
            {| dataType := "M205 T"; label := "Min travel";
               origValue := (if restoreBackup then VStr "" else m.[4]);
               value := m.[4];
               unit_ := "mm/s"; description := "" |} ;;
          push eepromData1
            {| dataType := "M205 B"; label := "Min segment";
               origValue := (if restoreBackup then VStr "" else m.[6]);
               value := m.[6];
               unit_ := "mm/s"; description := "" |} ;;
          push eepromData2
            {| dataType := "M205 X"; label := "Max X jerk";
               origValue := (if restoreBackup then VStr "" else m.[8]);
               value := m.[8];
               unit_ := "mm/s"; description := "" |} ;;
          push eepromData2
            {| dataType := "M205 Y"; label := "Max Y jerk";
               origValue := (if restoreBackup then VStr "" else m.[10]);
               value := m.[10];
               unit_ := "mm/s"; description := "" |} ;;
          push eepromData2
            {| dataType := "M205 Z"; label := "Max Z jerk";
               origValue := (if restoreBackup then VStr "" else m.[12]);
               value := m.[12];
               unit_ := "mm/s"; description := "" |} ;;
          push eepromData2
            {| dataType := "M205 E"; label := "Max E jerk";
               origValue := (if restoreBackup then VStr "" else m.[14]);
               value := m.[14];
               unit_ := "mm/s"; description := "" |}) ;;
        on_match eepromM204RegEx line (fun m =>
          push eepromDataAccel
            {| dataType := "M204 P"; label := "Printing moves";
               origValue := (if restoreBackup then VStr "" else m.[2]);
               value := m.[2];
               unit_ := "mm/s2"; description := "" |} ;;
          push eepromDataAccel
            {| dataType := "M204 R"; label := "Retract";
               origValue := (if restoreBackup then VStr "" else m.[4]);
               value := m.[4];
               unit_ := "mm/s2"; description := "" |} ;;
          push eepromDataAccel
            {| dataType := "M204 T"; label := "Travel";
               origValue := (if restoreBackup then VStr "" else m.[6]);
               value := m.[6];
               unit_ := "mm/s2"; description := "" |}) ;;
        on_match eepromM301RegEx line (fun m =>
          push eepromDataPID
            {| dataType := "M301 P"; label := "Hotend Kp";
               origValue := (if restoreBackup then VStr "" else m.[2]);
               value := m.[2];
               unit_ := "term"; description := "" |} ;;
          push eepromDataPID
            {| dataType := "M301 I"; label := "Ki";
               origValue := (if restoreBackup then VStr "" else m.[4]);
               value := m.[4];
               unit_ := "term"; description := "" |} ;;
          push eepromDataPID
            {| dataType := "M301 D"; label := "Kd";
               origValue := (if restoreBackup then VStr "" else m.[6]);
               value := m.[6];
               unit_ := "term"; description := "" |} ;;
          push eepromDataPID
            {| dataType := "M301 C"; label := "Kc";
               origValue := (if restoreBackup then VStr "" else m.[8]);
               value := m.[8];
               unit_ := "term"; description := "" |} ;;
          push eepromDataPID
            {| dataType := "M301 L"; label := "LPQ";
               origValue := (if restoreBackup then VStr "" else m.[10]);
               value := m.[10];
               unit_ := "len"; description := "" |}) ;;
        on_match eepromM145S0RegEx line (fun m =>
          push eepromDataMaterialHS0
            {| dataType := "M145 M0 H"; label := "M0 Hotend Temperature";
               origValue := (if restoreBackup then VStr "" else m.[2]);
               value := m.[2];
               unit_ := ""; description := "" |} ;;
          push eepromDataMaterialHS0
            {| dataType := "M145 M0 B"; label := "Bed Temperature";
               origValue := (if restoreBackup then VStr "" else m.[4]);
               value := m.[4];
               unit_ := ""; description := "" |} ;;
          push eepromDataMaterialHS0
            {| dataType := "M145 M0 F"; label := "Fan Speed";
               origValue := (if restoreBackup then VStr "" else m.[6]);
               value := m.[6];
               unit_ := ""; description := "" |}) ;;
        on_match eepromM145S1RegEx line (fun m =>
          push eepromDataMaterialHS1
            {| dataType := "M145 M1 H"; label := "M1 Hotend Temperature";
               origValue := (if restoreBackup then VStr "" else m.[2]);
               value := m.[2];
               unit_ := ""; description := "" |} ;;
          push eepromDataMaterialHS1
            {| dataType := "M145 M1 B"; label := "Bed Temperature";
               origValue := (if restoreBackup then VStr "" else m.[4]);
               value := m.[4];
               unit_ := ""; description := "" |} ;;
          push eepromDataMaterialHS1
            {| dataType := "M145 M1 F"; label := "Fan Speed";
               origValue := (if restoreBackup then VStr "" else m.[6]);
               value := m.[6];
               unit_ := ""; description := "" |}) ;;
        on_match eepromM145S2RegEx line (fun m =>
          push eepromDataMaterialHS2
            {| dataType := "M145 M2 H"; label := "M2 Hotend Temperature";
               origValue := (if restoreBackup then VStr "" else m.[2]);
               value := m.[2];
               unit_ := ""; description := "" |} ;;
          push eepromDataMaterialHS2
            {| dataType := "M145 M2 B"; label := "Bed Temperature";
               origValue := (if restoreBackup then VStr "" else m.[4]);
               value := m.[4];
               unit_ := ""; description := "" |} ;;
          push eepromDataMaterialHS2
            {| dataType := "M145 M2 F"; label := "Fan Speed";
               origValue := (if restoreBackup then VStr "" else m.[6]);
               value := m.[6];
               unit_ := ""; description := "" |}))
      (if_firmware_name
         ["Marlin 1.0.2+"; "Marlin V1.0.2;"; "Marlin 1.0.2"; "Marlin V1;"]
        (
          on_match eepromM205RegEx line (fun m =>
            push eepromData1
              {| dataType := "M205 S"; label := "Min feedrate";
                 origValue := (if restoreBackup then VStr "" else m.[2]);
                 value := m.[2];
                 unit_ := "mm/s"; description := "" |} ;;
            push eepromData1
              {| dataType := "M205 T"; label := "Min travel";
                 origValue := (if restoreBackup then VStr "" else m.[4]);
                 value := m.[4];
                 unit_ := "mm/s"; description := "" |} ;;
            push eepromData1
              {| dataType := "M205 B"; label := "Min segment";
                 origValue := (if restoreBackup then VStr "" else m.[6]);
                 value := m.[6];
                 unit_ := "mm/s"; description := "" |} ;;
            push eepromData2
              {| dataType := "M205 X"; label := "Max X jerk";
                 origValue := (if restoreBackup then VStr "" else m.[8]);
                 value := m.[8];
                 unit_ := "mm/s"; description := "" |} ;;
            push eepromData2
              {| dataType := "M205 Z"; label := "Max Z jerk";
                 origValue := (if restoreBackup then VStr "" else m.[10]);
                 value := m.[10];
                 unit_ := "mm/s"; description := "" |} ;;
            push eepromData2
              {| dataType := "M205 E"; label := "Max E jerk";
                 origValue := (if restoreBackup then VStr "" else m.[12]);
                 value := m.[12];
                 unit_ := "mm/s"; description := "" |}) ;;
          on_match eepromM204RegEx line (fun m =>
            push eepromDataAccel
              {| dataType := "M204 S"; label := "Printing moves";
                 origValue := (if restoreBackup then VStr "" else m.[2]);
                 value := m.[2];
                 unit_ := "mm/s2"; description := "" |} ;;
            push eepromDataAccel
              {| dataType := "M204 T"; label := "Travel";
                 origValue := (if restoreBackup then VStr "" else m.[4]);
                 value := m.[4];
                 unit_ := "mm/s2"; description := "" |}) ;;
          on_match eepromM301RegEx line (fun m =>
            push eepromDataPID
              {| dataType := "M301 P"; label := "Hotend Kp";
                 origValue := (if restoreBackup then VStr "" else m.[2]);
                 value := m.[2];
                 unit_ := "term"; description := "" |} ;;
            push eepromDataPID
              {| dataType := "M301 I"; label := "Ki";
                 origValue := (if restoreBackup then VStr "" else m.[4]);
                 value := m.[4];
                 unit_ := "term"; description := "" |} ;;
            push eepromDataPID
              {| dataType := "M301 D"; label := "Kd";
                 origValue := (if restoreBackup then VStr "" else m.[6]);
                 value := m.[6];
                 unit_ := "term"; description := "" |}))
        (
          on_match eepromM205RegEx line (fun m =>
            push eepromData1
              {| dataType := "M205 S"; label := "Min feedrate";
                 origValue := (if restoreBackup then VStr "" else m.[2]);
                 value := m.[2];
                 unit_ := "mm/s"; description := "" |} ;;
            push eepromData1
              {| dataType := "M205 T"; label := "Min travel";
                 origValue := (if restoreBackup then VStr "" else m.[4]);
                 value := m.[4];
                 unit_ := "mm/s"; description := "" |} ;;
            push eepromData1
              {| dataType := "M205 B"; label := "Min segment";
                 origValue := (if restoreBackup then VStr "" else m.[6]);
                 value := m.[6];
                 unit_ := "mm/s"; description := "" |} ;;
            push eepromData2
              {| dataType := "M205 X"; label := "Max X jerk";
                 origValue := (if restoreBackup then VStr "" else m.[8]);
                 value := m.[8];
                 unit_ := "mm/s"; description := "" |} ;;
            push eepromData2
              {| dataType := "M205 Y"; label := "Max Y jerk";
                 origValue := (if restoreBackup then VStr "" else m.[10]);
                 value := m.[10];
                 unit_ := "mm/s"; description := "" |} ;;
            push eepromData2
              {| dataType := "M205 Z"; label := "Max Z jerk";
                 origValue := (if restoreBackup then VStr "" else m.[12]);
                 value := m.[12];
                 unit_ := "mm/s"; description := "" |} ;;
            push eepromData2
              {| dataType := "M205 E"; label := "Max E jerk";
                 origValue := (if restoreBackup then VStr "" else m.[14]);
                 value := m.[14];
                 unit_ := "mm/s"; description := "" |}) ;;
          on_match eepromM204RegEx line (fun m =>
            push eepromDataAccel
              {| dataType := "M204 P"; label := "Printing moves";
                 origValue := (if restoreBackup then VStr "" else m.[2]);
                 value := m.[2];
                 unit_ := "mm/s2"; description := "" |} ;;
            push eepromDataAccel
              {| dataType := "M204 R"; label := "Retract";
                 origValue := (if restoreBackup then VStr "" else m.[4]);
                 value := m.[4];
                 unit_ := "mm/s2"; description := "" |} ;;
            push eepromDataAccel
              {| dataType := "M204 T"; label := "Travel";
                 origValue := (if restoreBackup then VStr "" else m.[6]);
                 value := m.[6];
                 unit_ := "mm/s2"; description := "" |}) ;;
          on_match eepromM301RegEx line (fun m =>
            push eepromDataPID
              {| dataType := "M301 P"; label := "Hotend Kp";
                 origValue := (if restoreBackup then VStr "" else m.[2]);
                 value := m.[2];
                 unit_ := "term"; description := "" |} ;;
            push eepromDataPID
              {| dataType := "M301 I"; label := "Ki";
                 origValue := (if restoreBackup then VStr "" else m.[4]);
                 value := m.[4];
                 unit_ := "term"; description := "" |} ;;
            push eepromDataPID
              {| dataType := "M301 D"; label := "Kd";
                 origValue := (if restoreBackup then VStr "" else m.[6]);
                 value := m.[6];
                 unit_ := "term"; description := "" |}) ;;
          on_match eepromM145S0RegEx line (fun m =>
            push eepromDataMaterialHS0
              {| dataType := "M145 S0 H"; label := "S0 Hotend Temperature";
                 origValue := (if restoreBackup then VStr "" else m.[2]);
                 value := m.[2];
                 unit_ := ""; description := "" |} ;;
            push eepromDataMaterialHS0
              {| dataType := "M145 S0 B"; label := "Bed Temperature";
                 origValue := (if restoreBackup then VStr "" else m.[4]);
                 value := m.[4];
                 unit_ := ""; description := "" |} ;;
            push eepromDataMaterialHS0
              {| dataType := "M145 S0 F"; label := "Fan Speed";
                 origValue := (if restoreBackup then VStr "" else m.[6]);
                 value := m.[6];
                 unit_ := ""; description := "" |}) ;;
          on_match eepromM145S1RegEx line (fun m =>
            push eepromDataMaterialHS1
              {| dataType := "M145 S1 H"; label := "S1 Hotend Temperature";
                 origValue := (if restoreBackup then VStr "" else m.[2]);
                 value := m.[2];
                 unit_ := ""; description := "" |} ;;
            push eepromDataMaterialHS1
              {| dataType := "M145 S1 B"; label := "Bed Temperature";
                 origValue := (if restoreBackup then VStr "" else m.[4]);
                 value := m.[4];
                 unit_ := ""; description := "" |} ;;
            push eepromDataMaterialHS1
              {| dataType := "M145 S1 F"; label := "Fan Speed";
                 origValue := (if restoreBackup then VStr "" else m.[6]);
                 value := m.[6];
                 unit_ := ""; description := "" |}) ;;
          on_match eepromM145S2RegEx line (fun m =>
            push eepromDataMaterialHS2
              {| dataType := "M145 S2 H"; label := "S2 Hotend Temperature";
                 origValue := (if restoreBackup then VStr "" else m.[2]);
                 value := m.[2];
                 unit_ := ""; description := "" |} ;;
            push eepromDataMaterialHS2
              {| dataType := "M145 S2 B"; label := "Bed Temperature";
                 origValue := (if restoreBackup then VStr "" else m.[4]);
                 value := m.[4];
                 unit_ := ""; description := "" |} ;;
            push eepromDataMaterialHS2
              {| dataType := "M145 S2 F"; label := "Fan Speed";
                 origValue := (if restoreBackup then VStr "" else m.[6]);
                 value := m.[6];
                 unit_ := ""; description := "" |}) ;;
          on_match eepromM420RegEx line (fun m =>
            push eepromDataLevel
              {| dataType := "M420 S"; label := "Auto Bed Leveling";
                 origValue := (if restoreBackup then VStr "" else m.[2]);
                 value := m.[2];
                 unit_ := "0/1"; description := "" |} ;;
            when (3 <=? List.length m)%nat (
              push eepromDataLevel
                {| dataType := "M420 Z"; label := "Fade height";
                   origValue := (if restoreBackup then VStr "" else m.[4]);
                   value := m.[4];
                   unit_ := "mm"; description := "" |})))))).

(** ** Controls, requests and the load cycle *)

(** [self.setControls(state)] (lines 1545-1555). *)
Definition setControls (state : bool) : VM -> VM :=
  fun self =>
    if negb (Bool.eqb (stateControls self) state) then
      set_stateControls self state
    else self.

(** The block that empties the eighteen arrays; it is the same in
    [loadEeprom], [backupEeprom] and the file-restore callback. *)
Definition reset_arrays : VM -> VM :=
  clear eepromData1 ;;
  clear eepromData2 ;;
  clear eepromDataLevel ;;
  clear eepromDataSteps ;;
  clear eepromDataFRates ;;
  clear eepromDataMaxAccel ;;
  clear eepromDataAccel ;;
  clear eepromDataPID ;;
  clear eepromDataPIDB ;;
  clear eepromDataHoming ;;
  clear eepromDataMaterialHS0 ;;
  clear eepromDataMaterialHS1 ;;
  clear eepromDataMaterialHS2 ;;
  clear eepromDataFilament ;;
  clear eepromDataEndstop ;;
  clear eepromDataDelta1 ;;
  clear eepromDataDelta2 ;;
  clear eepromDataLinear.

(** [self._requestFirmwareInfo()] (lines 1751-1755). *)
Definition _requestFirmwareInfo : VM -> VM :=
  fun self =>
    if negb (isPrinting self) then sendCustomCommand "M115" self else self.

(** [self._requestEepromData()] (lines 1757-1762). *)
Definition _requestEepromData : VM -> VM :=
  fun self =>
    if negb (isPrinting self) then
      (sendCustomCommand "M504" ;; sendCustomCommand "M501") self
    else self.

(** [self._requestSaveDataToEeprom(data_type, value)] (lines 1764-1767). *)
Definition _requestSaveDataToEeprom (data_type : string) (value : jsval)
  : VM -> VM :=
  let cmd := (data_type ++ to_str value)%string in
  sendCustomCommand cmd.

(** [self.loadEeprom()] (lines 1557-1584). *)
Definition loadEeprom : VM -> VM :=
  setControls false ;;
  reset_arrays ;;
  _requestEepromData ;;
  (fun self => set_hasChangedEepromForm self false).

(** [self.backupEeprom()] (lines 1439-1466). *)
Definition backupEeprom : VM -> VM :=
  setControls false ;;
  (fun self => set_execBackup self true) ;;
  (fun self => set_backupConfig self "") ;;
  reset_arrays ;;
  _requestEepromData.

(** ** Saving *)

(** [data.origValue = v]. *)
Definition set_origValue (data : field) (v : jsval) : field :=
  {| dataType := dataType data; label := label data; origValue := v;
     value := value data; unit_ := unit_ data;
     description := description data |}.

(** One pass of [_.each(eepromData, function(data) { ... })] in
    [saveEeprom]: the entries as the pass leaves them, and [self]. *)
Fixpoint save_each (eepromData : list field) (self : VM) : list field * VM :=
  match eepromData with
  | [] => ([], self)
  | data :: others =>
      if loose_neq (origValue data) (value data) then
        let self := _requestSaveDataToEeprom (dataType data) (value data) self in
        let data := set_origValue data (value data) in
        let (others, self) := save_each others self in
        (data :: others, self)
      else
        let (others, self) := save_each others self in
        (data :: others, self)
  end.

(** [eepromData = self.<array>(); _.each(eepromData, ...)]. *)
Definition save_array (s : section) : VM -> VM :=
  fun self =>
    let (eepromData, self) := save_each (data self s) self in
    set_data self
      (fun s' => if section_eqb s' s then eepromData else data self s').

(** The eighteen passes of [saveEeprom], in the order of the script. *)
Definition save_arrays : VM -> VM :=
  save_array eepromData1 ;;
  save_array eepromData2 ;;
  save_array eepromDataLevel ;;
  save_array eepromDataSteps ;;
  save_array eepromDataFRates ;;
  save_array eepromDataMaxAccel ;;
  save_array eepromDataAccel ;;
  save_array eepromDataPID ;;
  save_array eepromDataPIDB ;;
  save_array eepromDataHoming ;;
  save_array eepromDataMaterialHS0 ;;
  save_array eepromDataMaterialHS1 ;;
  save_array eepromDataMaterialHS2 ;;
  save_array eepromDataFilament ;;
  save_array eepromDataEndstop ;;
  save_array eepromDataDelta1 ;;
  save_array eepromDataDelta2 ;;
  save_array eepromDataLinear.

(** [self.saveEeprom()] (lines 1586-1749). *)
Definition saveEeprom : VM -> VM :=
  setControls false ;;
  let cmd := "M500" in
  save_arrays ;;
  sendCustomCommand cmd ;;
  (fun self => set_hasChangedEepromForm self false) ;;
  sendCustomCommand "M504" ;;
  loadEeprom.

(** ** Restore from a file and the log feed *)

Definition LF : string := String (ascii_of_nat 10) "".

(** [str.split('\n')]. *)
Fixpoint split_lines (str : string) : list string :=
  match str with
  | EmptyString => [""]
  | String c str' =>
      if Ascii.eqb c (ascii_of_nat 10) then "" :: split_lines str'
      else
        match split_lines str' with
        | first :: others => String c first :: others
        | [] => [String c ""]
        end
  end.

(** [_.each(list, f)]. *)
Definition each {A : Type} (l : list A) (f : A -> VM -> VM) : VM -> VM :=
  fun self => fold_left (fun self x => f x self) l self.

(** The [reader.onload] callback installed by [handleFileSelect]
    (lines 1509-1537); [result] is [e.target.result]. *)
Definition handleFileSelect_onload (result : string) : VM -> VM :=
  setControls false ;;
  (fun self => set_backupConfig self result) ;;
  reset_arrays ;;
  (fun self =>
     each (split_lines (backupConfig self))
       (fun line => eepromFieldParse line true) self).

(** [self.isMarlinFirmware(b)]: the subscriber, which calls [loadEeprom],
    runs when the value changes. *)
Definition write_isMarlinFirmware (b : bool) : VM -> VM :=
  fun self =>
    if Bool.eqb (isMarlinFirmware self) b then self
    else loadEeprom (set_isMarlinFirmware self b).

(** [self.onEventDisconnected()] (lines 1435-1437). *)
Definition onEventDisconnected : VM -> VM := write_isMarlinFirmware false.

(** [str.replace(pat, '')] for a string pattern: the first occurrence is
    removed. *)
Fixpoint remove_first (pat str : string) : string :=
  if String.prefix pat str then
    String.substring (String.length pat)
      (String.length str - String.length pat) str
  else
    match str with
    | EmptyString => EmptyString
    | String c str' => String c (remove_first pat str')
    end.

(** What the script reads from [new Date()]. *)
Record Date : Type := {
  getFullYear : nat;
  getMonth : nat;
  getDate : nat;
  getHours : nat;
  getMinutes : nat;
  getSeconds : nat
}.

(** A non-negative integer as a string. *)
Definition decimal (n : nat) : string :=
  NilEmpty.string_of_uint (Nat.to_uint n).

(** [if (n < 10) n = '0' + n;] followed by a use of [n] in a string. *)
Definition two_digits (n : nat) : string :=
  if (n <? 10)%nat then ("0" ++ decimal n)%string else decimal n.

(** The literal with the comma and the line feed, flags [gi]. *)
Definition commaLF : regex :=
  {| nodes := lit ("," ++ LF)%string; ignoreCase := true |}.

(** The part of [fromCurrentData] that runs for each line while the
    firmware is not yet known to be Marlin (lines 1307-1322). *)
Definition detect_firmware (line : string) : VM -> VM :=
  (fun self =>
     match exec Lit.firmware line with
     | Some m =>
         ((fun self =>
             set_FIRMWARE_NAME self
               (to_str m.[1] ++ " " ++ to_str m.[2])%string) ;;
          (fun self => set_FIRMWARE_INFO self (remove_first "Recv: " line)) ;;
          (fun self => setRegExVars (FIRMWARE_NAME self) self) ;;
          (fun self =>
             match exec Lit.marlin (to_str m.[0]) with
             | Some _ => write_isMarlinFirmware true self
             | None => self
             end)) self
     | None => self
     end) ;;
  (fun self =>
     match exec Lit.firmwareCap line with
     | Some m =>
         set_FIRMWARE_INFO self
           (FIRMWARE_INFO self ++ LF ++ remove_first "Recv: Cap:" line)%string
     | None => self
     end).

(** The end of a backup session in [fromCurrentData] (lines 1337-1370): the
    branch taken when the accumulated text holds the probe-offset line or an
    acknowledgement. *)
Definition finish_backup (now : Date) : VM -> VM :=
  (fun self => set_execBackup self false) ;;
  (fun self =>
     set_backupConfig self
       (replace_all Lit.Recv (LF ++ "Recv")%string (backupConfig self))) ;;
  (fun self =>
     set_backupConfig self (replace_all commaLF LF (backupConfig self))) ;;
  (fun self =>
     let backupYear := decimal (getFullYear now) in
     let backupMonth := two_digits (getMonth now + 1) in
     let backupDay := two_digits (getDate now) in
     let backupHours := two_digits (getHours now) in
     let backupMinutes := two_digits (getMinutes now) in
     let backupSeconds := two_digits (getSeconds now) in
     let backupDate :=
       (backupYear ++ "-" ++ backupMonth ++ "-" ++ backupDay ++ "_"
          ++ backupHours ++ backupMinutes ++ backupSeconds)%string in
     set_downloads self
       (downloads self ++
        [{| file_name := ("eeprom_marlin_" ++ backupDate ++ ".cfg")%string;
            content := backupConfig self |}])) ;;
  setTimeout SetControlsTrue 2000.

(** The part of [fromCurrentData] that follows a backup session
    (lines 1327-1372): the start marker, the accumulation and the end of the
    session.  [logs] is [data.logs]; an array used as a string is its
    elements joined by commas. *)
Definition capture_backup (now : Date) (logs : list string) : VM -> VM :=
  (fun self =>
     match exec (eepromM501RegEx (re self)) (String.concat "," logs) with
     | Some _ => set_startBackup self true
     | None => self
     end) ;;
  (fun self =>
     if execBackup self && startBackup self then
       ((fun self =>
           set_backupConfig self
             (backupConfig self ++ String.concat "," logs ++ LF)%string) ;;
        (fun self =>
           let m := exec (eepromM851RegEx (re self)) (backupConfig self) in
           let matchOK :=
             exec (eepromOKRegEx (re self)) (backupConfig self) in
           match m, matchOK with
           | None, None => self
           | _, _ => finish_backup now self
           end)) self
     else self).

(** [self.fromCurrentData(data)] (lines 1303-1379): [logs] is [data.logs],
    [now] the clock read when a backup ends. *)
Definition fromCurrentData (now : Date) (logs : list string) : VM -> VM :=
  (fun self => set_hasChangedEepromForm self true) ;;
  (fun self =>
     if negb (isMarlinFirmware self) then
       each logs detect_firmware self
     else
       (capture_backup now logs ;;
        each logs (fun line => eepromFieldParse line false)) self) ;;
  (fun self => set_hasChangedEepromForm self false).

(** The view model when its constructor returns: the patterns of
    [setRegExVars('Marlin bugfix-2.0.x')], empty arrays, no firmware name.
    [printing] is what the connection view model reports. *)
Definition initial (printing : bool) : VM :=
  setRegExVars "Marlin bugfix-2.0.x"
    {| re := {| eepromM501RegEx := Lit.M501; eepromOKRegEx := Lit.OK;
                eepromM92RegEx := Lit.M92; eepromM200RegEx := Lit.M200;
                eepromM201RegEx := Lit.M201; eepromM203RegEx := Lit.M203;
                eepromM206RegEx := Lit.M206; eepromM304RegEx := Lit.M304;
                eepromM420RegEx := Lit.M420; eepromM851RegEx := Lit.M851;
                eepromM665RegEx := Lit.M665; eepromM666RegEx := Lit.M666;
                eepromM900RegEx := Lit.M900; eepromM205RegEx := Lit.M205;
                eepromM145S0RegEx := Lit.M145S0;
                eepromM145S1RegEx := Lit.M145S1;
                eepromM145S2RegEx := Lit.M145S2;
                eepromM301RegEx := Lit.M301; eepromM204RegEx := Lit.M204 |};
       execBackup := false; startBackup := false; backupConfig := "";
       stateControls := true; FIRMWARE_NAME := ""; FIRMWARE_INFO := "";
       isMarlinFirmware := false; isPrinting := printing;
       hasChangedEepromForm := false; data := fun _ => [];
       sent := []; timers := []; downloads := [] |}.

(** ** The remaining handlers *)

(** The part of [fromHistoryData] that runs for each line
    (lines 1286-1299). *)
Definition detect_firmware_history (line : string) : VM -> VM :=
  (fun self =>
     match exec Lit.firmware line with
     | Some m =>
         ((fun self =>
             set_FIRMWARE_NAME self
               (to_str m.[1] ++ " " ++ to_str m.[2])%string) ;;
          (fun self => set_FIRMWARE_INFO self (remove_first "Recv: " line)) ;;
          (fun self => setRegExVars (FIRMWARE_NAME self) self) ;;
          (fun self =>
             match exec Lit.marlin (to_str m.[0]) with
             | Some _ => write_isMarlinFirmware true self
             | None => self
             end)) self
     | None => self
     end) ;;
  (fun self =>
     match exec Lit.firmwareCap line with
     | Some m =>
         set_FIRMWARE_INFO self
           (LF ++ LF ++ FIRMWARE_INFO self ++ LF ++
            remove_first "Recv: Cap:" line)%string
     | None => self
     end).

(** [self.fromHistoryData(data)] (lines 1284-1301); [logs] is
    [data.logs]. *)
Definition fromHistoryData (logs : list string) : VM -> VM :=
  each logs detect_firmware_history.

(** [self.onEventConnected()] (lines 1424-1428). *)
Definition onEventConnected : VM -> VM := _requestFirmwareInfo.

(** The [onproceed] callback of the confirmation dialog opened by
    [resetEeprom] (lines 1482-1498). *)
Definition resetEeprom_onproceed : VM -> VM :=
  setControls false ;;
  sendCustomCommand "M502" ;;
  sendCustomCommand "M500" ;;
  sendCustomCommand "M504" ;;
  loadEeprom.

(** The computed observables of lines 1381-1422. *)
Definition eepromDataCount (self : VM) : bool :=
  (0 <? List.length (data self eepromData1)
        + List.length (data self eepromData2))%nat.

Definition eepromDataStepsCount (self : VM) : bool :=
  (0 <? List.length (data self eepromDataSteps))%nat.

Definition eepromDataFRatesCount (self : VM) : bool :=
  (0 <? List.length (data self eepromDataFRates))%nat.

Definition eepromDataMaxAccelCount (self : VM) : bool :=
  (0 <? List.length (data self eepromDataMaxAccel))%nat.

Definition eepromDataAccelCount (self : VM) : bool :=
  (0 <? List.length (data self eepromDataAccel))%nat.

Definition eepromDataPIDCount (self : VM) : bool :=
  (0 <? List.length (data self eepromDataPID)
        + List.length (data self eepromDataPIDB))%nat.

Definition eepromDataHomingCount (self : VM) : bool :=
  (0 <? List.length (data self eepromDataHoming))%nat.

Definition eepromDataMaterialCount (self : VM) : bool :=
  (0 <? List.length (data self eepromDataMaterialHS0)
        + List.length (data self eepromDataMaterialHS1)
        + List.length (data self eepromDataMaterialHS2))%nat.

Definition eepromDataFilamentCount (self : VM) : bool :=
  (0 <? List.length (data self eepromDataFilament))%nat.

Definition eepromDataEndstopCount (self : VM) : bool :=
  (0 <? List.length (data self eepromDataEndstop))%nat.

Definition eepromDataDeltaCount (self : VM) : bool :=
  (0 <? List.length (data self eepromDataDelta1)
        + List.length (data self eepromDataDelta2))%nat.
(** * Vocabulary of the properties *)

(** ** Statements that change nothing but the arrays *)

(** [b] is [a] with other arrays. *)
Definition only_data (a b : VM) : Prop := b = set_data a (data b).

(** The patterns and the firmware name a statement runs under. *)
Definition context (g : Grammar) (fw : string) (self : VM) : Prop :=
  re self = g /\ FIRMWARE_NAME self = fw.

(** Under the context, [F] changes nothing but the arrays and appends
    exactly [new] to the array [s], whatever the arrays hold. *)
Definition emits_at (g : Grammar) (fw : string) (s : section)
    (new : list field) (F : VM -> VM) : Prop :=
  forall self, context g fw self ->
    only_data self (F self) /\ data (F self) s = data self s ++ new.

(** [F] appends to [s] a list that does not depend on the arrays. *)
Definition emits (g : Grammar) (fw : string) (s : section) (F : VM -> VM)
  : Prop :=
  exists new, emits_at g fw s new F.

(** [F] keeps the invariant [Inv]. *)
Definition preserves (Inv : VM -> Prop) (F : VM -> VM) : Prop :=
  forall self, Inv self -> Inv (F self).

(** [b] is [a] with more entries at the end of its arrays, each of them
    satisfying [P]. *)
Definition appended (P : field -> Prop) (a b : VM) : Prop :=
  only_data a b /\
  forall s, exists new, data b s = data a s ++ new /\ Forall P new.

(** The first statement of [eepromFieldParse]: the acknowledgement check. *)
Definition acknowledge (line : string) : VM -> VM :=
  fun self =>
    match exec (eepromOKRegEx (re self)) line with
    | Some matchOK => setTimeout SetControlsTrue 2000 self
    | None => self
    end.

(** The timer of the acknowledgement. *)
Definition reenable : timer := {| callback_ := SetControlsTrue; delay := 2000 |}.

(** [sub] occurs in [str]. *)
Definition occurs_in (sub str : string) : Prop :=
  exists before after : string, str = (before ++ sub ++ after)%string.

(** ** Version groups of the script *)

Definition bugfix_names : list string := ["Marlin bugfix-2.0.x"].

Definition stable_names : list string :=
  ["latest"; "Marlin 1.1.0-RC8"; "Marlin 1.1.1"; "Marlin 1.1.2";
   "Marlin 1.1.3"; "Marlin 1.1.4"; "Marlin 1.1.5"; "Marlin 1.1.6";
   "Marlin 1.1.7"; "Marlin 1.1.8"].

Definition rc_names : list string :=
  ["Marlin 1.1.0-RC1"; "Marlin 1.1.0-RC2"; "Marlin 1.1.0-RC3";
   "Marlin 1.1.0-RC4"; "Marlin 1.1.0-RC5"; "Marlin 1.1.0-RC6";
   "Marlin 1.1.0-RC7"].

Definition legacy_names : list string :=
  ["Marlin 1.0.2+"; "Marlin V1.0.2;"; "Marlin 1.0.2"; "Marlin V1;"].

(** Every version string [setRegExVars] compares with. *)
Definition enumerated_names : list string :=
  bugfix_names ++ stable_names ++ rc_names ++ legacy_names.

(** The patterns of the latest-stable branch. *)
Definition stable_grammar : Grammar :=
  {| eepromM501RegEx := Lit.M501; eepromOKRegEx := Lit.OK;
     eepromM92RegEx := Lit.M92; eepromM200RegEx := Lit.M200;
     eepromM201RegEx := Lit.M201; eepromM203RegEx := Lit.M203;
     eepromM206RegEx := Lit.M206; eepromM304RegEx := Lit.M304;
     eepromM420RegEx := Lit.M420; eepromM851RegEx := Lit.M851;
     eepromM665RegEx := Lit.M665; eepromM666RegEx := Lit.M666;
     eepromM900RegEx := Lit.M900; eepromM205RegEx := Lit.M205;
     eepromM145S0RegEx := Lit.M145S0; eepromM145S1RegEx := Lit.M145S1;
     eepromM145S2RegEx := Lit.M145S2;
     eepromM301RegEx := Lit.M301; eepromM204RegEx := Lit.M204 |}.

(** All the patterns of a grammar. *)
Definition patterns (g : Grammar) : list regex :=
  [eepromM501RegEx g; eepromOKRegEx g; eepromM92RegEx g; eepromM200RegEx g;
   eepromM201RegEx g; eepromM203RegEx g; eepromM206RegEx g;
   eepromM304RegEx g; eepromM420RegEx g; eepromM851RegEx g;
   eepromM665RegEx g; eepromM666RegEx g; eepromM900RegEx g;
   eepromM205RegEx g; eepromM145S0RegEx g; eepromM145S1RegEx g;
   eepromM145S2RegEx g; eepromM301RegEx g; eepromM204RegEx g].

Definition is_group (n : node) : bool :=
  match n with Group _ => true | Bare _ => false end.

(** The number of capturing groups of a pattern. *)
Definition groups (rx : regex) : nat :=
  List.length (filter is_group (nodes rx)).

(** The value of [f] is the text of a capturing group: the entry [k] of the
    match array of one of the patterns on [line], for one of the groups
    [1 .. groups rx] of the pattern. *)
Definition decoded (g : Grammar) (line : string) (f : field) : Prop :=
  exists rx m k,
    In rx (patterns g) /\ exec rx line = Some m /\
    (1 <= k <= groups rx)%nat /\ value f = m.[k].

(** The value of [f] was read in the match array of one of the patterns on
    [line] at an index [k] past the groups of the pattern, where a match
    array holds nothing. *)
Definition past_the_groups (g : Grammar) (line : string) (f : field)
  : Prop :=
  exists rx m k,
    In rx (patterns g) /\ exec rx line = Some m /\
    (groups rx < k)%nat /\ value f = m.[k].

(** The patterns, the firmware name and the filament array are as given. *)
Definition filament_is (g : Grammar) (fw : string) (d : list field)
    (self : VM) : Prop :=
  context g fw self /\ data self eepromDataFilament = d.

(** ** Saving *)

(** The test of [saveEeprom] on one entry. *)
Definition dirty (f : field) : bool := loose_neq (origValue f) (value f).

(** The command [saveEeprom] sends for an entry. *)
Definition command_of (f : field) : string :=
  (dataType f ++ to_str (value f))%string.

(** An entry after a pass of [saveEeprom]. *)
Definition committed (f : field) : field :=
  if dirty f then set_origValue f (value f) else f.

(** The arrays in the order [saveEeprom] goes through them. *)
Definition array_order : list section :=
  [eepromData1; eepromData2; eepromDataLevel; eepromDataSteps;
   eepromDataFRates; eepromDataMaxAccel; eepromDataAccel; eepromDataPID;
   eepromDataPIDB; eepromDataHoming; eepromDataMaterialHS0;
   eepromDataMaterialHS1; eepromDataMaterialHS2; eepromDataFilament;
   eepromDataEndstop; eepromDataDelta1; eepromDataDelta2; eepromDataLinear].

(** The save diff: the dirty entries, array by array. *)
Definition diff (self : VM) : list field :=
  flat_map (fun s => filter dirty (data self s)) array_order.

(** ** Example lines *)

Definition M92_line : string := "M92 X80.00 Y80.00 Z400.00 E500.00".

Definition M92_fields : list field :=
  [{| dataType := "M92 X"; label := "X axis"; origValue := VStr "80.00";
      value := VStr "80.00"; unit_ := "mm"; description := "steps per unit" |};
   {| dataType := "M92 Y"; label := "Y axis"; origValue := VStr "80.00";
      value := VStr "80.00"; unit_ := "mm"; description := "steps per unit" |};
   {| dataType := "M92 Z"; label := "Z axis"; origValue := VStr "400.00";
      value := VStr "400.00"; unit_ := "mm"; description := "steps per unit" |};
   {| dataType := "M92 E"; label := "Extruder"; origValue := VStr "500.00";
      value := VStr "500.00"; unit_ := "mm"; description := "steps per unit" |}].

(** The entry the extractor builds for the filament diameter. *)
Definition M200_field (restoreBackup : bool) (m : list jsval) : field :=
  {| dataType := "M200 D"; label := "Diameter";
     origValue := (if restoreBackup then VStr "" else m.[2]);
     value := m.[2]; unit_ := "mm"; description := "" |}.

(** The two entries the extractor builds for a bed-leveling line. *)
Definition M420_fields (restoreBackup : bool) (m : list jsval) : list field :=
  [{| dataType := "M420 S"; label := "Auto Bed Leveling";
      origValue := (if restoreBackup then VStr "" else m.[2]);
      value := m.[2]; unit_ := "0/1"; description := "" |};
   {| dataType := "M420 Z"; label := "Fade height";
      origValue := (if restoreBackup then VStr "" else m.[4]);
      value := m.[4]; unit_ := "mm"; description := "" |}].

(** ** Sample inputs *)

Definition sample_now : Date :=
  {| getFullYear := 2024; getMonth := 0; getDate := 5;
     getHours := 13; getMinutes := 4; getSeconds := 9 |}.

(** A session in which a Marlin 1.1.8 firmware was identified and a backup
    was requested. *)
Definition sample_backup_session : VM :=
  backupEeprom
    (fromCurrentData sample_now
       ["Recv: FIRMWARE_NAME:Marlin 1.1.8 (Github) SOURCE_CODE_URL:x"]
       (initial false)).

(** A batch that echoes the start marker and carries the two letters inside
    another word. *)
Definition sample_batch : list string :=
  ["Send: M501"; "Recv: echo:  token"].

(** The view model after a firmware of the 1.0.2 family was identified. *)
Definition sample_legacy : VM :=
  fromCurrentData sample_now
    ["Recv: FIRMWARE_NAME:Marlin 1.0.2 (Github) SOURCE_CODE_URL:x"]
    (initial false).

Definition M205_legacy_line : string :=
  "M205 S0.00 T0.00 B20000 X10.00 Z0.40 E5.00".

(** ** What a match looks like *)

Definition piece_of (n : node) : piece :=
  match n with Bare p => p | Group p => p end.

(** The text [t] is one the piece [p] can consume. *)
Definition piece_ok (ic : bool) (p : piece) (t : list ascii) : Prop :=
  match p with
  | One a => exists c, t = [c] /\ atom_match ic a c = true
  | Star a => Forall (fun c => atom_match ic a c = true) t
  | Plus a => t <> [] /\ Forall (fun c => atom_match ic a c = true) t
  end.

(** The captures, given the text each node consumed. *)
Fixpoint group_texts (re : list node) (ts : list (list ascii)) : list jsval :=
  match re, ts with
  | Group _ :: re', t :: ts' =>
      VStr (string_of_list_ascii t) :: group_texts re' ts'
  | Bare _ :: re', _ :: ts' => group_texts re' ts'
  | _, _ => []
  end.

(** [ts] gives, node by node, a text the pattern accepts. *)
Definition accepts (rx : regex) (ts : list (list ascii)) : Prop :=
  Forall2 (fun n t => piece_ok (ignoreCase rx) (piece_of n) t) (nodes rx) ts.

(** ** What a handler can change *)

(** The properties of [self]. *)
Inductive property : Type :=
  | P_re
  | P_execBackup
  | P_startBackup
  | P_backupConfig
  | P_stateControls
  | P_FIRMWARE_NAME
  | P_FIRMWARE_INFO
  | P_isMarlinFirmware
  | P_isPrinting
  | P_hasChangedEepromForm
  | P_data
  | P_sent
  | P_timers
  | P_downloads.

(** [a] and [b] agree on every property that is not in [l]. *)
Definition same_except (l : list property) (a b : VM) : Prop :=
  (In P_re l \/ re b = re a) /\
  (In P_execBackup l \/ execBackup b = execBackup a) /\
  (In P_startBackup l \/ startBackup b = startBackup a) /\
  (In P_backupConfig l \/ backupConfig b = backupConfig a) /\
  (In P_stateControls l \/ stateControls b = stateControls a) /\
  (In P_FIRMWARE_NAME l \/ FIRMWARE_NAME b = FIRMWARE_NAME a) /\
  (In P_FIRMWARE_INFO l \/ FIRMWARE_INFO b = FIRMWARE_INFO a) /\
  (In P_isMarlinFirmware l \/ isMarlinFirmware b = isMarlinFirmware a) /\
  (In P_isPrinting l \/ isPrinting b = isPrinting a) /\
  (In P_hasChangedEepromForm l \/
   hasChangedEepromForm b = hasChangedEepromForm a) /\
  (In P_data l \/ data b = data a) /\
  (In P_sent l \/ sent b = sent a) /\
  (In P_timers l \/ timers b = timers a) /\
  (In P_downloads l \/ downloads b = downloads a).

(** [F] changes no property outside [l]. *)
Definition changes (l : list property) (F : VM -> VM) : Prop :=
  forall self, same_except l self (F self).

(** ** Restore and save *)

(** The acknowledgement check of the extractor on one line. *)
Definition acknowledged (g : Grammar) (line : string) : bool :=
  match exec (eepromOKRegEx g) line with
  | Some _ => true
  | None => false
  end.

(** All the entries of the arrays, in the order [saveEeprom] goes through
    them. *)
Definition entries (self : VM) : list field :=
  flat_map (data self) array_order.

(** A session in which a Marlin 1.1.8 firmware was identified. *)
Definition sample_marlin : VM :=
  fromCurrentData sample_now
    ["Recv: FIRMWARE_NAME:Marlin 1.1.8 (Github) SOURCE_CODE_URL:x"]
    (initial false).

(** ** A backup session *)

(** [rx.exec(str)] used as a condition. *)
Definition matches (rx : regex) (str : string) : bool :=
  match exec rx str with
  | Some _ => true
  | None => false
  end.

(** The two replacements made on the text of a session when it ends. *)
Definition tidy (text : string) : string :=
  replace_all commaLF LF (replace_all Lit.Recv (LF ++ "Recv")%string text).

(** ** Identification of the firmware *)

(** The functions the page and OctoPrint call: the three buttons, the
    confirmed reset, the connection events, the restore callback and the
    two log feeds. *)
Definition entry_points (Q : (VM -> VM) -> Prop) : Prop :=
  Q loadEeprom /\
  Q backupEeprom /\
  Q saveEeprom /\
  Q resetEeprom_onproceed /\
  Q onEventConnected /\
  Q onEventDisconnected /\
  (forall result, Q (handleFileSelect_onload result)) /\
  (forall logs, Q (fromHistoryData logs)) /\
  (forall now logs, Q (fromCurrentData now logs)).

(** The number of white-space characters of a string. *)
Definition spaces (s : string) : nat :=
  List.length (filter is_space (list_ascii_of_string s)).

(** What one line does to the identification, given the match array [m] of
    the firmware pattern on it: the name is made of the two captures, the
    patterns are those of the name, and a first match of the Marlin pattern
    runs the load cycle. *)
Definition identified (m : list jsval) (self after : VM) : Prop :=
  let name := (to_str m.[1] ++ " " ++ to_str m.[2])%string in
  FIRMWARE_NAME after = name /\
  spaces name = 1 /\
  re after = re (setRegExVars name self) /\
  if matches Lit.marlin (to_str m.[0]) then
    isMarlinFirmware after = true /\
    if isMarlinFirmware self then
      same_except [P_FIRMWARE_NAME; P_FIRMWARE_INFO; P_re] self after
    else
      same_except
        [P_FIRMWARE_NAME; P_FIRMWARE_INFO; P_re; P_isMarlinFirmware;
         P_stateControls; P_data; P_sent; P_hasChangedEepromForm]
        self after /\
      stateControls after = false /\
      (forall s, data after s = []) /\
      sent after =
      sent self ++ (if isPrinting self then [] else ["M504"; "M501"])
  else
    same_except [P_FIRMWARE_NAME; P_FIRMWARE_INFO; P_re] self after.

(** The patterns are those of the firmware name, or the view model has not
    identified a firmware yet and holds the patterns its constructor
    assigned. *)
Definition in_step (self : VM) : Prop :=
  (FIRMWARE_NAME self = "" /\ re self = re (initial false)) \/
  exists x, re self = re (setRegExVars (FIRMWARE_NAME self) x).

(** ** Values read past the end of a match array *)

(** The two entries whose index lies past the last capture of the pattern
    in place: the linear-advance ratio under the patterns of the bugfix
    branch, which the view model also holds before any identification, and
    the E jerk under the names of the release candidates 1 to 7. *)
Definition reads_past_the_match (fw : string) (f : field) : Prop :=
  (dataType f = "M900 R" /\ In fw [""; "Marlin bugfix-2.0.x"]) \/
  (dataType f = "M205 E" /\ In fw rc_names).

(** Every name the script compares the firmware name with. *)
Definition compared_names : list string :=
  enumerated_names ++ ["Marlin bugfix-2.0.x (Github)"].

(** The patterns of the bugfix branch of [setRegExVars]. *)
Definition bugfix_grammar : Grammar :=
  {| eepromM501RegEx := Lit.M501; eepromOKRegEx := Lit.OK;
     eepromM92RegEx := Lit.M92; eepromM200RegEx := Lit.M200;
     eepromM201RegEx := Lit.M201; eepromM203RegEx := Lit.M203;
     eepromM206RegEx := Lit.M206; eepromM304RegEx := Lit.M304;
     eepromM420RegEx := Lit.M420; eepromM851RegEx := Lit.M851;
     eepromM665RegEx := Lit.M665; eepromM666RegEx := Lit.M666;
     eepromM900RegEx := Lit.M900_bugfix; eepromM205RegEx := Lit.M205_bugfix;
     eepromM145S0RegEx := Lit.M145S0; eepromM145S1RegEx := Lit.M145S1;
     eepromM145S2RegEx := Lit.M145S2;
     eepromM301RegEx := Lit.M301; eepromM204RegEx := Lit.M204 |}.

(** The patterns of the branch of the release candidates 1 to 7. *)
Definition rc_grammar : Grammar :=
  {| eepromM501RegEx := Lit.M501; eepromOKRegEx := Lit.OK;
     eepromM92RegEx := Lit.M92; eepromM200RegEx := Lit.M200;
     eepromM201RegEx := Lit.M201; eepromM203RegEx := Lit.M203;
     eepromM206RegEx := Lit.M206; eepromM304RegEx := Lit.M304;
     eepromM420RegEx := Lit.M420; eepromM851RegEx := Lit.M851;
     eepromM665RegEx := Lit.M665; eepromM666RegEx := Lit.M666;
     eepromM900RegEx := Lit.M900; eepromM205RegEx := Lit.M205_noY;
     eepromM145S0RegEx := Lit.M145M0; eepromM145S1RegEx := Lit.M145M1;
     eepromM145S2RegEx := Lit.M145M2;
     eepromM301RegEx := Lit.M301_rc; eepromM204RegEx := Lit.M204 |}.

(** The patterns of the branch of the 1.0.2 family, which keeps the three
    material-heatup patterns of [old]. *)
Definition legacy_grammar (old : Grammar) : Grammar :=
  {| eepromM501RegEx := Lit.M501; eepromOKRegEx := Lit.OK;
     eepromM92RegEx := Lit.M92; eepromM200RegEx := Lit.M200;
     eepromM201RegEx := Lit.M201; eepromM203RegEx := Lit.M203;
     eepromM206RegEx := Lit.M206; eepromM304RegEx := Lit.M304;
     eepromM420RegEx := Lit.M420; eepromM851RegEx := Lit.M851;
     eepromM665RegEx := Lit.M665; eepromM666RegEx := Lit.M666;
     eepromM900RegEx := Lit.M900; eepromM205RegEx := Lit.M205_noY;
     eepromM145S0RegEx := eepromM145S0RegEx old;
     eepromM145S1RegEx := eepromM145S1RegEx old;
     eepromM145S2RegEx := eepromM145S2RegEx old;
     eepromM301RegEx := Lit.M301; eepromM204RegEx := Lit.M204_legacy |}.

(** The names that take the first branch of the extractor. *)
Definition first_branch_names : list string :=
  ["Marlin 1.1.0-RC8"; "Marlin 1.1.1"; "Marlin 1.1.2"; "Marlin 1.1.3";
   "Marlin 1.1.4"; "Marlin 1.1.5"; "Marlin 1.1.6"; "Marlin 1.1.7";
   "Marlin 1.1.8"; "Marlin bugfix-2.0.x"; "Marlin bugfix-2.0.x (Github)"].

(** ** Which letter an entry shows *)

(** The last character of a [dataType], the parameter letter. *)
Definition letter_of (s : string) : string :=
  String.substring (String.length s - 1) 1 s.

(** The value of [f] is the capture that follows, in the match array of
    one of the patterns on [line], the capture of the letter of [f]. *)
Definition aligned (g : Grammar) (line : string) (f : field) : Prop :=
  exists rx m k,
    In rx (patterns g) /\ exec rx line = Some m /\
    m.[k] = VStr (letter_of (dataType f)) /\ value f = m.[S k].

(** The entries that are read at another place of the match array than
    the one of their letter: three of the delta entries and the fade height
    always, the first three advanced entries and the linear-advance ratio
    under the patterns of the bugfix branch, the last three jerks under the
    names of the release candidates 1 to 7. *)
Definition misaligned (fw : string) (f : field) : Prop :=
  In (dataType f) ["M665 S"; "M665 A"; "M665 C"; "M420 Z"] \/
  (In fw [""; "Marlin bugfix-2.0.x"] /\
   In (dataType f) ["M205 S"; "M205 T"; "M205 B"; "M900 R"]) \/
  (In fw rc_names /\ In (dataType f) ["M205 Y"; "M205 Z"; "M205 E"]).

(** ** Two lines whose entries are read at the wrong place *)

(** The four jerk entries the extractor builds under the names of the
    release candidates 1 to 7. *)
Definition M205_rc_jerks (restoreBackup : bool) (m : list jsval)
  : list field :=
  [{| dataType := "M205 X"; label := "Max X jerk";
      origValue := (if restoreBackup then VStr "" else m.[8]);
      value := m.[8]; unit_ := "mm/s"; description := "" |};
   {| dataType := "M205 Y"; label := "Max Y jerk";
      origValue := (if restoreBackup then VStr "" else m.[10]);
      value := m.[10]; unit_ := "mm/s"; description := "" |};
   {| dataType := "M205 Z"; label := "Max Z jerk";
      origValue := (if restoreBackup then VStr "" else m.[12]);
      value := m.[12]; unit_ := "mm/s"; description := "" |};
   {| dataType := "M205 E"; label := "Max E jerk";
      origValue := (if restoreBackup then VStr "" else m.[14]);
      value := m.[14]; unit_ := "mm/s"; description := "" |}].

(** The two linear-advance entries the extractor builds. *)
Definition M900_fields (restoreBackup : bool) (m : list jsval)
  : list field :=
  [{| dataType := "M900 K"; label := "Linear Advance K";
      origValue := (if restoreBackup then VStr "" else m.[2]);
      value := m.[2]; unit_ := "mm"; description := "" |};
   {| dataType := "M900 R"; label := "Linear Ratio";
      origValue := (if restoreBackup then VStr "" else m.[4]);
      value := m.[4]; unit_ := "mm"; description := "" |}].

(** A jerk line as a firmware of the release candidates reports it. *)
Definition M205_rc_line : string :=
  "echo:  M205 S0.00 T0.00 B20000 X20.00 Z0.40 E5.00".

(** The view model after a release candidate was identified. *)
Definition sample_rc : VM :=
  fromCurrentData sample_now
    ["Recv: FIRMWARE_NAME:Marlin 1.1.0-RC3 (Github) SOURCE_CODE_URL:x"]
    (initial false).

(** ** Patterns kept by [setRegExVars], and the visibility flags *)

(** [new] with the three material-heatup patterns of [old]. *)
Definition keep_M145 (old new : Grammar) : Grammar :=
  assign_eepromM145S0RegEx (eepromM145S0RegEx old)
    (assign_eepromM145S1RegEx (eepromM145S1RegEx old)
       (assign_eepromM145S2RegEx (eepromM145S2RegEx old) new)).

(** The eleven computed observables that show or hide a section. *)
Definition flags (self : VM) : list bool :=
  [eepromDataCount self; eepromDataStepsCount self;
   eepromDataFRatesCount self; eepromDataMaxAccelCount self;
   eepromDataAccelCount self; eepromDataPIDCount self;
   eepromDataHomingCount self; eepromDataMaterialCount self;
   eepromDataFilamentCount self; eepromDataEndstopCount self;
   eepromDataDeltaCount self].

(** ** The last value of a line *)

(** The patterns of a grammar that describe a parameter line: all but the
    two literal ones. *)
Definition line_patterns (g : Grammar) : list regex :=
  [eepromM92RegEx g; eepromM200RegEx g; eepromM201RegEx g;
   eepromM203RegEx g; eepromM206RegEx g; eepromM304RegEx g;
   eepromM420RegEx g; eepromM851RegEx g; eepromM665RegEx g;
   eepromM666RegEx g; eepromM900RegEx g; eepromM205RegEx g;
   eepromM145S0RegEx g; eepromM145S1RegEx g; eepromM145S2RegEx g;
   eepromM301RegEx g; eepromM204RegEx g].

(** The pattern ends in a group of any characters, as many as possible. *)
Definition open_ended (rx : regex) : bool :=
  match rev (nodes rx) with
  | Group (Star ADot) :: _ => true
  | _ => false
  end.

(** Every parameter pattern [self] holds ends in such a group. *)
Definition lines_open_ended (self : VM) : Prop :=
  forallb open_ended (line_patterns (re self)) = true.

(** A line with a carriage return after its first value and another
    before its tail. *)
Definition two_returns : string :=
  ("M92 X1" ++ String "013" "Y2 Z3 E4" ++ String "013" "tail")%string.

(** ** The lines of the backup file *)






(** * Properties *)

(** ** The literals agree with the script *)

Example source_of_all_versions :
  map Show.regex
    [Lit.M501; Lit.OK; Lit.M92; Lit.M200; Lit.M201; Lit.M203; Lit.M206;
     Lit.M304; Lit.M420; Lit.M851; Lit.M665; Lit.M666] =
  ["/M501/"; "/ok/";
   "/M92 ([X])(.*)[^0-9]([Y])(.*)[^0-9]([Z])(.*)[^0-9]([E])(.*)/";
   "/M200 ([D])(.*)/";
   "/M201 ([X])(.*)[^0-9]([Y])(.*)[^0-9]([Z])(.*)[^0-9]([E])(.*)/";
   "/M203 ([X])(.*)[^0-9]([Y])(.*)[^0-9]([Z])(.*)[^0-9]([E])(.*)/";
   "/M206 ([X])(.*)[^0-9]([Y])(.*)[^0-9]([Z])(.*)/";
   "/M304 ([P])(.*)[^0-9]([I])(.*)[^0-9]([D])(.*)/";
   "/M420 ([S])([0-1]*)[^0-9]*([Z]*)(.*)/";
   "/M851 ([Z])(.*)/";
   "/M665 ([L])(.*)[^0-9]([R])(.*)[^0-9]([H])(.*)[^0-9]([S])(.*)[^0-9]([B])(.*)[^0-9]([X])(.*)[^0-9]([Y])(.*)[^0-9]([Z])(.*)/";
   "/M666 ([X])(.*)[^0-9]([Y])(.*)[^0-9]([Z])(.*)/"].
Proof. reflexivity. Qed.

Example source_of_specific_versions :
  map Show.regex
    [Lit.M900_bugfix; Lit.M205_bugfix; Lit.M205; Lit.M205_noY; Lit.M900;
     Lit.M145S0; Lit.M145S1; Lit.M145S2; Lit.M145M0; Lit.M145M1; Lit.M145M2;
     Lit.M301; Lit.M301_rc; Lit.M204; Lit.M204_legacy] =
  ["/M900 ([K])([0-9.]+)(.*)/";
   "/M205 ([B])(.*)[^0-9]([S])(.*)[^0-9]([T])(.*)[^0-9]([X])(.*)[^0-9]([Y])(.*)[^0-9]([Z])(.*)[^0-9]([E])(.*)/";
   "/M205 ([S])(.*)[^0-9]([T])(.*)[^0-9]([B])(.*)[^0-9]([X])(.*)[^0-9]([Y])(.*)[^0-9]([Z])(.*)[^0-9]([E])(.*)/";
   "/M205 ([S])(.*)[^0-9]([T])(.*)[^0-9]([B])(.*)[^0-9]([X])(.*)[^0-9]([Z])(.*)[^0-9]([E])(.*)/";
   "/M900 ([K])(.*)[^0-9]([R])(.*)/";
   "/M145 S0 ([H])(.*)[^0-9]([B])(.*)[^0-9]([F])(.*)/";
   "/M145 S1 ([H])(.*)[^0-9]([B])(.*)[^0-9]([F])(.*)/";
   "/M145 S2 ([H])(.*)[^0-9]([B])(.*)[^0-9]([F])(.*)/";
   "/M145 M0 ([H])(.*)[^0-9]([B])(.*)[^0-9]([F])(.*)/";
   "/M145 M1 ([H])(.*)[^0-9]([B])(.*)[^0-9]([F])(.*)/";
   "/M145 M2 ([H])(.*)[^0-9]([B])(.*)[^0-9]([F])(.*)/";
   "/M301 ([P])(.*)[^0-9]([I])(.*)[^0-9]([D])(.*)/";
   "/M301 ([P])(.*)[^0-9]([I])(.*)[^0-9]([D])(.*)[^0-9]([C])(.*)[^0-9]([L])(.*)/";
   "/M204 ([P])(.*)[^0-9]([R])(.*)[^0-9]([T])(.*)/";
   "/M204 ([S])(.*)[^0-9]([T])(.*)/"].
Proof. reflexivity. Qed.

Example source_of_firmware_patterns :
  map Show.regex [Lit.firmware; Lit.firmwareCap; Lit.marlin; Lit.Recv] =
  ["/FIRMWARE_NAME:([^\s]*) ([^\s]*)/i"; "/Cap:([^\s]*)/i";
   "/Marlin[^\s]*/i"; "/Recv/i"].
Proof. reflexivity. Qed.

(** ** Statements that change nothing but the arrays *)

Lemma only_data_refl : forall a, only_data a a.
Proof. intros a; destruct a; reflexivity. Qed.

Lemma only_data_trans :
  forall a b c, only_data a b -> only_data b c -> only_data a c.
Proof.
  unfold only_data; intros a b c Hab Hbc.
  rewrite Hbc; simpl. rewrite Hab. reflexivity.
Qed.

Lemma only_data_push : forall s f self, only_data self (push s f self).
Proof. reflexivity. Qed.

Lemma only_data_re : forall a b, only_data a b -> re b = re a.
Proof. unfold only_data; intros a b H; rewrite H; reflexivity. Qed.

Lemma only_data_FIRMWARE_NAME :
  forall a b, only_data a b -> FIRMWARE_NAME b = FIRMWARE_NAME a.
Proof. unfold only_data; intros a b H; rewrite H; reflexivity. Qed.

Lemma only_data_timers : forall a b, only_data a b -> timers b = timers a.
Proof. unfold only_data; intros a b H; rewrite H; reflexivity. Qed.

Lemma only_data_execBackup :
  forall a b, only_data a b -> execBackup b = execBackup a.
Proof. unfold only_data; intros a b H; rewrite H; reflexivity. Qed.

Lemma only_data_downloads :
  forall a b, only_data a b -> downloads b = downloads a.
Proof. unfold only_data; intros a b H; rewrite H; reflexivity. Qed.

Lemma data_push_same :
  forall s f self, data (push s f self) s = data self s ++ [f].
Proof.
  intros s f self; simpl. unfold section_eqb.
  destruct (section_eq_dec s s); [reflexivity | contradiction].
Qed.

Lemma data_push_other :
  forall s s' f self, s <> s' -> data (push s' f self) s = data self s.
Proof.
  intros s s' f self Hne; simpl. unfold section_eqb.
  destruct (section_eq_dec s s'); [contradiction | reflexivity].
Qed.

(** *** The effect of a statement on one array *)

Section Effects.
Variable g : Grammar.
Variable fw : string.

Lemma context_only_data :
  forall a b, only_data a b -> context g fw a -> context g fw b.
Proof.
  intros a b H [Hr Hf]; split.
  - rewrite (only_data_re H); exact Hr.
  - rewrite (only_data_FIRMWARE_NAME H); exact Hf.
Qed.

Lemma emits_skip : forall s, emits_at g fw s [] skip.
Proof.
  intros s self _; split; [apply only_data_refl | ].
  unfold skip; rewrite app_nil_r; reflexivity.
Qed.

Lemma emits_seq :
  forall s n1 n2 F G,
    emits_at g fw s n1 F -> emits_at g fw s n2 G -> emits_at g fw s (n1 ++ n2) (F ;; G).
Proof.
  intros s n1 n2 F G HF HG self C.
  destruct (HF self C) as [fF dF].
  destruct (HG (F self) (context_only_data fF C)) as [fG dG].
  unfold seq; split.
  - exact (only_data_trans fF fG).
  - rewrite dG, dF, app_assoc; reflexivity.
Qed.

Lemma emits_push :
  forall s s' f,
    emits_at g fw s (if section_eqb s s' then [f] else []) (push s' f).
Proof.
  intros s s' f self _; split; [apply only_data_push | ].
  unfold section_eqb; destruct (section_eq_dec s s') as [-> | Hne].
  - apply data_push_same.
  - rewrite app_nil_r; apply data_push_other; exact Hne.
Qed.

Lemma untouched_push :
  forall s s' f, s <> s' -> emits_at g fw s [] (push s' f).
Proof.
  intros s s' f Hne self _; split; [apply only_data_push | ].
  rewrite app_nil_r; apply data_push_other; exact Hne.
Qed.

Lemma emits_on_match_some :
  forall s new rx line body m,
    exec (rx g) line = Some m ->
    emits_at g fw s new (body m) ->
    emits_at g fw s new (on_match rx line body).
Proof.
  intros s new rx line body m Hm Hb self C.
  unfold on_match. destruct C as [Hr Hf]. rewrite Hr, Hm.
  apply Hb; split; assumption.
Qed.

Lemma emits_on_match_none :
  forall s rx line body,
    exec (rx g) line = None -> emits_at g fw s [] (on_match rx line body).
Proof.
  intros s rx line body Hm self C.
  unfold on_match. destruct C as [Hr Hf]. rewrite Hr, Hm.
  split; [apply only_data_refl | rewrite app_nil_r; reflexivity].
Qed.

(** A statement guarded by a match leaves [s] alone when its body does. *)
Lemma untouched_on_match :
  forall s rx line body,
    (forall m, emits_at g fw s [] (body m)) ->
    emits_at g fw s [] (on_match rx line body).
Proof.
  intros s rx line body Hb.
  destruct (exec (rx g) line) as [m | ] eqn:Hm.
  - exact (emits_on_match_some _ _ _ Hm (Hb m)).
  - exact (emits_on_match_none _ _ _ _ Hm).
Qed.

Lemma emits_if_firmware_name :
  forall s new names F G,
    (existsb (String.eqb fw) names = true -> emits_at g fw s new F) ->
    (existsb (String.eqb fw) names = false -> emits_at g fw s new G) ->
    emits_at g fw s new (if_firmware_name names F G).
Proof.
  intros s new names F G HF HG self C.
  unfold if_firmware_name. destruct C as [Hr Hf]. rewrite Hf.
  destruct (existsb (String.eqb fw) names) eqn:E.
  - apply (HF eq_refl); split; assumption.
  - apply (HG eq_refl); split; assumption.
Qed.

Lemma untouched_if_empty :
  forall s s0 F, emits_at g fw s [] F -> emits_at g fw s [] (if_empty s0 F).
Proof.
  intros s s0 F HF self C. unfold if_empty.
  destruct (Nat.eqb (List.length (data self s0)) 0).
  - apply HF; exact C.
  - split; [apply only_data_refl | rewrite app_nil_r; reflexivity].
Qed.

Lemma emits_when_true :
  forall s new F, emits_at g fw s new F -> emits_at g fw s new (when true F).
Proof. intros s new F HF; exact HF. Qed.

Lemma untouched_when :
  forall s b F, emits_at g fw s [] F -> emits_at g fw s [] (when b F).
Proof.
  intros s b F HF; destruct b; [exact HF | apply emits_skip].
Qed.

Lemma emits_of_at : forall s new F, emits_at g fw s new F -> emits g fw s F.
Proof. intros s new F H; exists new; exact H. Qed.

Lemma emits_seq' :
  forall s F G, emits g fw s F -> emits g fw s G -> emits g fw s (F ;; G).
Proof.
  intros s F G [n1 H1] [n2 H2]; exists (n1 ++ n2).
  apply emits_seq; assumption.
Qed.

Lemma emits_on_match :
  forall s rx line body,
    (forall m, emits g fw s (body m)) -> emits g fw s (on_match rx line body).
Proof.
  intros s rx line body Hb.
  destruct (exec (rx g) line) as [m | ] eqn:Hm.
  - destruct (Hb m) as [new Hn]; exists new.
    exact (emits_on_match_some _ _ _ Hm Hn).
  - exists []; exact (emits_on_match_none _ _ _ _ Hm).
Qed.

Lemma emits_if_firmware_name' :
  forall s names F G,
    emits g fw s F -> emits g fw s G -> emits g fw s (if_firmware_name names F G).
Proof.
  intros s names F G [n1 H1] [n2 H2].
  destruct (existsb (String.eqb fw) names) eqn:E.
  - exists n1; apply emits_if_firmware_name; intros E'; [exact H1 | congruence].
  - exists n2; apply emits_if_firmware_name; intros E'; [congruence | exact H2].
Qed.

Lemma emits_when : forall s b F, emits g fw s F -> emits g fw s (when b F).
Proof.
  intros s b F [n H]; destruct b; [exists n; exact H | ].
  exists []; apply emits_skip.
Qed.
End Effects.

(** *** Invariants of the extractor's statements *)

Section Invariants.
Variable g : Grammar.
Variable fw : string.
Variable Inv : VM -> Prop.
Hypothesis Inv_context : forall self, Inv self -> context g fw self.

Lemma preserves_skip : preserves Inv skip.
Proof. intros self H; exact H. Qed.

Lemma preserves_seq :
  forall F G, preserves Inv F -> preserves Inv G -> preserves Inv (F ;; G).
Proof. intros F G HF HG self H; apply HG, HF, H. Qed.

Lemma preserves_on_match :
  forall rx line body,
    (forall m, exec (rx g) line = Some m -> preserves Inv (body m)) ->
    preserves Inv (on_match rx line body).
Proof.
  intros rx line body Hb self H. unfold on_match.
  destruct (Inv_context H) as [Hr _]. rewrite Hr.
  destruct (exec (rx g) line) as [m | ] eqn:Hm; [ | exact H].
  exact (Hb m eq_refl self H).
Qed.

Lemma preserves_if_firmware_name :
  forall names F G,
    (existsb (String.eqb fw) names = true -> preserves Inv F) ->
    (existsb (String.eqb fw) names = false -> preserves Inv G) ->
    preserves Inv (if_firmware_name names F G).
Proof.
  intros names F G HF HG self H. unfold if_firmware_name.
  destruct (Inv_context H) as [_ Hf]. rewrite Hf.
  destruct (existsb (String.eqb fw) names).
  - exact (HF eq_refl self H).
  - exact (HG eq_refl self H).
Qed.

Lemma preserves_when : forall b F, preserves Inv F -> preserves Inv (when b F).
Proof. intros b F HF self H; destruct b; [apply HF, H | exact H]. Qed.

Lemma preserves_if_empty :
  forall s F,
    (forall self,
       Inv self -> List.length (data self s) = 0 -> Inv (F self)) ->
    preserves Inv (if_empty s F).
Proof.
  intros s F HF self H. unfold if_empty.
  destruct (Nat.eqb (List.length (data self s)) 0) eqn:E; [ | exact H].
  apply HF; [exact H | apply Nat.eqb_eq; exact E].
Qed.
End Invariants.

Lemma acknowledge_data :
  forall line self, data (acknowledge line self) = data self.
Proof.
  intros line self; unfold acknowledge.
  destruct (exec _ line); reflexivity.
Qed.

Lemma acknowledge_context :
  forall g fw line self, context g fw self -> context g fw (acknowledge line self).
Proof.
  intros g fw line self C; unfold acknowledge.
  destruct (exec _ line); exact C.
Qed.

(** Walking through the statements of the extractor. *)
Ltac untouched_walk :=
  repeat first
    [ apply (@emits_seq _ _ _ [] [])
    | apply untouched_on_match; intros ?
    | apply emits_if_firmware_name; intros _
    | apply untouched_if_empty
    | apply untouched_when
    | apply emits_skip
    | exact (@emits_push _ _ _ _ _) ].

Ltac emits_walk Hs :=
  repeat first
    [ apply emits_seq'
    | apply emits_on_match; intros ?
    | apply emits_if_firmware_name'
    | apply emits_when
    | eapply emits_of_at; apply untouched_if_empty; apply untouched_push;
      exact Hs
    | eapply emits_of_at; apply emits_push ].

Ltac preserves_walk ctx branch_tac push_tac :=
  repeat first
    [ apply preserves_seq
    | apply (preserves_on_match ctx); intros ? ?
    | apply (preserves_if_firmware_name ctx); intros ?; branch_tac
    | apply preserves_when
    | apply preserves_skip
    | push_tac ].

(** ** The acknowledgement check *)

Lemma acknowledge_re : forall line self, re (acknowledge line self) = re self.
Proof. intros; unfold acknowledge; destruct (exec _ line); reflexivity. Qed.

Lemma acknowledge_FIRMWARE_NAME :
  forall line self,
    FIRMWARE_NAME (acknowledge line self) = FIRMWARE_NAME self.
Proof. intros; unfold acknowledge; destruct (exec _ line); reflexivity. Qed.

Lemma acknowledge_timers :
  forall line self,
    timers (acknowledge line self) =
    timers self ++
    match exec (eepromOKRegEx (re self)) line with
    | Some _ => [reenable]
    | None => []
    end.
Proof.
  intros; unfold acknowledge; destruct (exec _ line); simpl.
  - reflexivity.
  - rewrite app_nil_r; reflexivity.
Qed.

(** Splitting [eepromFieldParse] after the acknowledgement check. *)
Ltac after_acknowledge line self :=
  unfold eepromFieldParse;
  match goal with
  | |- context [seq ?A ?E self] =>
      change (seq A E self) with (E (acknowledge line self))
  end.

(** ** The extractor as a whole *)

(** On every array but the filament one, what [eepromFieldParse] appends
    depends on the line, the flag, the patterns and the firmware name
    only. *)
Lemma eepromFieldParse_emits :
  forall g fw line restoreBackup s,
    s <> eepromDataFilament ->
    exists new,
      forall self, context g fw self ->
        only_data (acknowledge line self)
          (eepromFieldParse line restoreBackup self) /\
        data (eepromFieldParse line restoreBackup self) s =
        data self s ++ new.
Proof.
  intros g fw line rb s Hs.
  assert (H : exists E, emits g fw s E /\
                        forall self, eepromFieldParse line rb self =
                                     E (acknowledge line self)).
  { unfold eepromFieldParse. eexists; split.
    2: { intros self. unfold seq at 1. reflexivity. }
    emits_walk Hs. }
  destruct H as [E [[new HE] HE']].
  exists new; intros self C. rewrite HE'.
  destruct (HE (acknowledge line self) (acknowledge_context line C)) as [f d].
  split; [exact f | ].
  rewrite d, acknowledge_data; reflexivity.
Qed.

(** ** Entries appended by the extractor *)

Lemma appended_refl : forall P a, appended P a a.
Proof.
  intros P a; split; [apply only_data_refl | ].
  intros s; exists []; split; [rewrite app_nil_r; reflexivity | constructor].
Qed.

Lemma appended_trans :
  forall P a b c, appended P a b -> appended P b c -> appended P a c.
Proof.
  intros P a b c [fab dab] [fbc dbc]; split.
  - exact (only_data_trans fab fbc).
  - intros s. destruct (dab s) as [n1 [e1 p1]], (dbc s) as [n2 [e2 p2]].
    exists (n1 ++ n2); split.
    + rewrite e2, e1, app_assoc; reflexivity.
    + apply Forall_app; split; assumption.
Qed.

Lemma appended_push :
  forall (P : field -> Prop) a s f,
    P f -> preserves (appended P a) (push s f).
Proof.
  intros P a s f Hf self H.
  apply (appended_trans H). split; [apply only_data_push | ].
  intros s'. destruct (section_eq_dec s' s) as [-> | Hne].
  - exists [f]; split; [apply data_push_same | repeat constructor; exact Hf].
  - exists []; split; [ | constructor].
    rewrite app_nil_r; apply data_push_other; exact Hne.
Qed.

Lemma appended_context :
  forall P g fw a,
    context g fw a -> forall self, appended P a self -> context g fw self.
Proof. intros P g fw a C self [f _]; exact (context_only_data f C). Qed.

(** The statements after the acknowledgement check keep [appended P a]
    once every entry they build satisfies [P]; [ptac] proves that for one
    entry, [btac] discards the branches the firmware name rules out. *)
Ltac appended_walk ctx btac ptac :=
  preserves_walk ctx btac
    ltac:(first
            [ apply appended_push; ptac
            | apply preserves_if_empty; intros ? ? _;
              apply appended_push; [ptac | assumption] ]).

Ltac no_branch := idtac.

Ltac concrete_branch :=
  idtac;
  match goal with
  | E : existsb _ _ = _ |- _ => try (vm_compute in E; discriminate E)
  end.

(** An entry of a match array read at an index from 1 on is the text of a
    group or lies past the groups. *)
Lemma group_or_past :
  forall g line rx m k f,
    In rx (patterns g) -> exec rx line = Some m -> (1 <= k)%nat ->
    value f = m.[k] ->
    decoded g line f \/ past_the_groups g line f.
Proof.
  intros g line rx m k f Hin Hm Hk Hv.
  destruct (le_lt_dec k (groups rx)) as [Hle | Hlt].
  - left. exists rx, m, k. repeat split; assumption.
  - right. exists rx, m, k. repeat split; assumption.
Qed.

(** The entry built from the match array of a pattern of [g] on [line]. *)
Ltac from_the_match g line :=
  match goal with
  | Hm : exec ?rx line = Some ?m |- _ =>
      eapply (@group_or_past g line rx m);
      [simpl; tauto | exact Hm | | reflexivity]; lia
  end.

(** In restore mode every entry has an empty [origValue] and a [value]
    read in the match array at an index from 1 on. *)
Lemma eepromFieldParse_restore :
  forall line self,
    appended
      (fun f => origValue f = VStr "" /\
                (decoded (re self) line f \/ past_the_groups (re self) line f))
      (acknowledge line self) (eepromFieldParse line true self).
Proof.
  intros line self.
  set (g := re self). set (fw := FIRMWARE_NAME self).
  set (a := acknowledge line self).
  assert (Ca : context g fw a).
  { apply acknowledge_context; split; reflexivity. }
  pose proof (appended_context
                (P := fun f => origValue f = VStr "" /\
                               (decoded g line f \/ past_the_groups g line f))
                Ca) as ctx.
  after_acknowledge line self. fold a.
  match goal with
  | |- appended ?P a (?E a) =>
      assert (H : preserves (appended P a) E)
  end.
  { appended_walk ctx no_branch
      ltac:(split; [reflexivity | from_the_match g line]). }
  apply H, appended_refl.
Qed.

(** In live mode every entry has [origValue] equal to [value], read in the
    match array at an index from 1 on. *)
Lemma eepromFieldParse_live :
  forall line self,
    appended
      (fun f => origValue f = value f /\
                (decoded (re self) line f \/ past_the_groups (re self) line f))
      (acknowledge line self) (eepromFieldParse line false self).
Proof.
  intros line self.
  set (g := re self). set (fw := FIRMWARE_NAME self).
  set (a := acknowledge line self).
  assert (Ca : context g fw a).
  { apply acknowledge_context; split; reflexivity. }
  pose proof (appended_context
                (P := fun f => origValue f = value f /\
                               (decoded g line f \/ past_the_groups g line f))
                Ca) as ctx.
  after_acknowledge line self. fold a.
  match goal with
  | |- appended ?P a (?E a) =>
      assert (H : preserves (appended P a) E)
  end.
  { appended_walk ctx no_branch
      ltac:(split; [reflexivity | from_the_match g line]). }
  apply H, appended_refl.
Qed.

(** From [appended] to the arrays of [self]. *)
Lemma appended_after_acknowledge :
  forall P line self self',
    appended P (acknowledge line self) self' ->
    forall s, exists new, data self' s = data self s ++ new /\ Forall P new.
Proof.
  intros P line self self' [_ d] s.
  destruct (d s) as [new [e p]]; exists new; split; [ | exact p].
  rewrite e, acknowledge_data; reflexivity.
Qed.

(** With a firmware name of the 1.0.2 family no entry is the Y jerk. *)
Lemma eepromFieldParse_legacy :
  forall fw, In fw legacy_names ->
  forall line restoreBackup self,
    FIRMWARE_NAME self = fw ->
    appended (fun f => dataType f <> "M205 Y")
      (acknowledge line self) (eepromFieldParse line restoreBackup self).
Proof.
  intros fw Hfw line rb self Hself.
  set (g := re self). set (a := acknowledge line self).
  assert (Ca : context g fw a).
  { apply acknowledge_context; split; [reflexivity | exact Hself]. }
  pose proof (appended_context (P := fun f => dataType f <> "M205 Y") Ca)
    as ctx.
  after_acknowledge line self. fold a.
  match goal with
  | |- appended ?P a (?E a) =>
      assert (H : preserves (appended P a) E)
  end.
  { simpl in Hfw.
    destruct Hfw as [<- | [<- | [<- | [<- | []]]]];
      appended_walk ctx concrete_branch ltac:(simpl; discriminate). }
  apply H, appended_refl.
Qed.

(** ** The matcher *)

Lemma repeat_greedy_some :
  forall ic (R : Type) a s taken (k : cont R) r,
    repeat_greedy ic a s taken k = Some r ->
    exists t rest, k t rest = Some r.
Proof.
  intros ic R a s; induction s as [ | c s' IH]; intros taken k r H; simpl in H.
  - eauto.
  - destruct (atom_match ic a c); [ | eauto].
    destruct (repeat_greedy ic a s' (c :: taken) k) as [r' | ] eqn:E.
    + injection H as <-. exact (IH _ _ _ E).
    + eauto.
Qed.

Lemma piece_match_some :
  forall ic (R : Type) p s (k : cont R) r,
    piece_match ic p s k = Some r -> exists t rest, k t rest = Some r.
Proof.
  intros ic R p s k r H; destruct p as [a | a | a]; simpl in H.
  - destruct s as [ | c s']; [discriminate | ].
    destruct (atom_match ic a c); [eauto | discriminate].
  - exact (repeat_greedy_some _ _ _ _ _ H).
  - destruct s as [ | c s']; [discriminate | ].
    destruct (atom_match ic a c); [ | discriminate].
    exact (repeat_greedy_some _ _ _ _ _ H).
Qed.

Lemma match_nodes_captures :
  forall ic re s whole caps f,
    match_nodes ic re s whole caps = Some f ->
    List.length (captures f) =
    List.length caps + List.length (filter is_group re).
Proof.
  intros ic re; induction re as [ | n re' IH]; intros s whole caps f H;
    simpl in H.
  - injection H as <-; simpl. rewrite length_rev; lia.
  - destruct n as [p | p];
      destruct (piece_match_some _ _ _ _ H) as [t [r Hk]];
      apply IH in Hk; simpl in *; lia.
Qed.

(** A match array has one entry for the matched text and one per group. *)
Lemma exec_length :
  forall rx str m, exec rx str = Some m -> List.length m = S (groups rx).
Proof.
  intros rx str m; unfold exec.
  induction (list_ascii_of_string str) as [ | c s IH]; simpl;
    destruct (match_here rx _) as [f | ] eqn:E; intros H;
    try discriminate; try (apply IH; exact H);
    injection H as <-; simpl; f_equal;
    apply match_nodes_captures in E; exact E.
Qed.

Lemma list_ascii_of_string_app :
  forall a b : string,
    list_ascii_of_string (a ++ b) =
    list_ascii_of_string a ++ list_ascii_of_string b.
Proof.
  intros a b; induction a as [ | c a IH]; simpl; [reflexivity | ].
  rewrite IH; reflexivity.
Qed.

Lemma occurs_in_list :
  forall sub str,
    occurs_in sub str <->
    exists p r, list_ascii_of_string str = p ++ list_ascii_of_string sub ++ r.
Proof.
  intros sub str; split.
  - intros [b [a ->]].
    exists (list_ascii_of_string b), (list_ascii_of_string a).
    rewrite !list_ascii_of_string_app; reflexivity.
  - intros [p [r H]].
    exists (string_of_list_ascii p), (string_of_list_ascii r).
    rewrite <- (string_of_list_ascii_of_string str), H.
    rewrite <- (string_of_list_ascii_of_string sub) at 2.
    rewrite <- (string_of_list_ascii_of_string
                  (string_of_list_ascii p ++ _)).
    rewrite !list_ascii_of_string_app, !list_ascii_of_string_of_list_ascii.
    reflexivity.
Qed.

(** The acknowledgement pattern matches at the head of a text exactly when
    the text starts with the two letters. *)
Lemma match_here_OK :
  forall s,
    match_here Lit.OK s <> None <->
    exists r, s = ("o"%char :: "k"%char :: r).
Proof.
  intros s.
  destruct s as [ | c [ | c' r]]; cbv - [Ascii.eqb].
  - split; [intros H; contradiction H; reflexivity | intros [r H]; discriminate].
  - destruct (Ascii.eqb "o" c);
      (split; [intros H; contradiction H; reflexivity
              | intros [r H]; discriminate]).
  - destruct (Ascii.eqb_spec "o" c) as [<- | Hc].
    + destruct (Ascii.eqb_spec "k" c') as [<- | Hc'].
      * split; [intros _; exists r; reflexivity | intros _; discriminate].
      * split; [intros H; contradiction H; reflexivity | ].
        intros [r' H] _; congruence.
    + split; [intros H; contradiction H; reflexivity | ].
      intros [r' H] _; congruence.
Qed.

Lemma search_OK :
  forall s,
    search Lit.OK s <> None <->
    exists p r, s = p ++ "o"%char :: "k"%char :: r.
Proof.
  induction s as [ | c s IH]; simpl.
  - split; [intros H; contradiction H; reflexivity | ].
    intros [[ | ? ?] [r H]]; discriminate.
  - destruct (match_here Lit.OK (c :: s)) as [f | ] eqn:E.
    + split; [intros _ | intros _; discriminate].
      assert (H : match_here Lit.OK (c :: s) <> None) by (rewrite E; discriminate).
      apply match_here_OK in H. destruct H as [r H].
      exists [], r; exact H.
    + rewrite IH. split.
      * intros [p [r ->]]; exists (c :: p), r; reflexivity.
      * intros [[ | c0 p] [r H]].
        -- assert (H' : match_here Lit.OK (c :: s) <> None).
           { apply match_here_OK; exists r; exact H. }
           contradiction H'.
        -- injection H as _ ->. exists p, r; reflexivity.
Qed.

(** The acknowledgement pattern is not anchored: it matches exactly the
    texts in which the two letters occur. *)
Lemma exec_OK :
  forall str, exec Lit.OK str <> None <-> occurs_in "ok" str.
Proof.
  intros str; unfold exec. rewrite search_OK, occurs_in_list. reflexivity.
Qed.

(** ** The patterns after [setRegExVars] *)

(** The patterns every call of [setRegExVars] assigns, whatever the
    version. *)
Lemma setRegExVars_all_versions :
  forall version self,
    let g := re (setRegExVars version self) in
    eepromM501RegEx g = Lit.M501 /\ eepromOKRegEx g = Lit.OK /\
    eepromM92RegEx g = Lit.M92 /\ eepromM200RegEx g = Lit.M200 /\
    eepromM201RegEx g = Lit.M201 /\ eepromM203RegEx g = Lit.M203 /\
    eepromM206RegEx g = Lit.M206 /\ eepromM304RegEx g = Lit.M304 /\
    eepromM420RegEx g = Lit.M420 /\ eepromM851RegEx g = Lit.M851 /\
    eepromM665RegEx g = Lit.M665 /\ eepromM666RegEx g = Lit.M666.
Proof.
  intros version self. unfold setRegExVars. cbv zeta. cbn [re set_re].
  repeat match goal with
         | |- context [if ?b then _ else _] => destruct b
         end;
    repeat split; reflexivity.
Qed.

(** ** What the extractor leaves alone *)

Lemma eepromFieldParse_only_data :
  forall line restoreBackup self,
    only_data (acknowledge line self)
      (eepromFieldParse line restoreBackup self).
Proof.
  intros line rb self.
  destruct (@eepromFieldParse_emits (re self) (FIRMWARE_NAME self) line rb
              eepromData1) as [new H]; [discriminate | ].
  apply H; split; reflexivity.
Qed.

Lemma eepromFieldParse_re :
  forall line restoreBackup self,
    re (eepromFieldParse line restoreBackup self) = re self.
Proof.
  intros line rb self.
  rewrite (only_data_re (eepromFieldParse_only_data line rb self)).
  apply acknowledge_re.
Qed.

Lemma eepromFieldParse_FIRMWARE_NAME :
  forall line restoreBackup self,
    FIRMWARE_NAME (eepromFieldParse line restoreBackup self) =
    FIRMWARE_NAME self.
Proof.
  intros line rb self.
  rewrite (only_data_FIRMWARE_NAME (eepromFieldParse_only_data line rb self)).
  apply acknowledge_FIRMWARE_NAME.
Qed.

Lemma eepromFieldParse_context :
  forall g fw line restoreBackup self,
    context g fw self ->
    context g fw (eepromFieldParse line restoreBackup self).
Proof.
  intros g fw line rb self [Hr Hf]; split.
  - rewrite eepromFieldParse_re; exact Hr.
  - rewrite eepromFieldParse_FIRMWARE_NAME; exact Hf.
Qed.

Lemma eepromFieldParse_timers :
  forall line restoreBackup self,
    timers (eepromFieldParse line restoreBackup self) =
    timers self ++
    match exec (eepromOKRegEx (re self)) line with
    | Some _ => [reenable]
    | None => []
    end.
Proof.
  intros line rb self.
  rewrite (only_data_timers (eepromFieldParse_only_data line rb self)).
  apply acknowledge_timers.
Qed.

(** Leaving out the statements in front that do not touch the array. *)
Ltac skip_untouched :=
  repeat match goal with
         | |- emits_at ?g ?fw ?s ?new (seq _ _) =>
             apply (@emits_seq g fw s [] new); [solve [untouched_walk] | ]
         end.

(** ** Steps per unit *)

(** What one steps-per-unit line appends to [eepromDataSteps], for any
    patterns with the steps-per-unit literal of the script and any firmware
    name. *)
Lemma M92_line_emits :
  forall g fw self,
    eepromM92RegEx g = Lit.M92 ->
    context g fw self ->
    data (eepromFieldParse M92_line false self) eepromDataSteps =
    data self eepromDataSteps ++ M92_fields.
Proof.
  intros g fw self HM92 C.
  after_acknowledge M92_line self.
  match goal with
  | |- data (?E _) _ = _ =>
      assert (H : emits_at g fw eepromDataSteps (M92_fields ++ []) E)
  end.
  { apply emits_seq.
    - apply emits_on_match_some
        with (m := [VStr M92_line; VStr "X"; VStr "80.00"; VStr "Y";
                    VStr "80.00"; VStr "Z"; VStr "400.00"; VStr "E";
                    VStr "500.00"]).
      + rewrite HM92; vm_compute; reflexivity.
      + apply (@emits_seq _ _ _ [_] [_; _; _]);
          [exact (@emits_push _ _ _ _ _) | ].
        apply (@emits_seq _ _ _ [_] [_; _]);
          [exact (@emits_push _ _ _ _ _) | ].
        apply (@emits_seq _ _ _ [_] [_]); exact (@emits_push _ _ _ _ _).
    - untouched_walk. }
  destruct (H (acknowledge M92_line self) (acknowledge_context M92_line C))
    as [_ Hd].
  rewrite Hd, acknowledge_data, app_nil_r. reflexivity.
Qed.

(** C2: whatever version [setRegExVars] was called with, and whatever the
    firmware name and the arrays are, extracting the line
    "M92 X80.00 Y80.00 Z400.00 E500.00" in live mode appends exactly four
    entries to the steps-per-unit array: M92 X, M92 Y, M92 Z and M92 E with
    the values 80.00, 80.00, 400.00 and 500.00, each with unit "mm",
    description "steps per unit" and [origValue] equal to [value]. *)
Theorem steps_per_unit_line_appends_four :
  forall version self0,
    let self := setRegExVars version self0 in
    data (eepromFieldParse M92_line false self) eepromDataSteps =
    data self eepromDataSteps ++ M92_fields /\
    map dataType M92_fields = ["M92 X"; "M92 Y"; "M92 Z"; "M92 E"] /\
    map value M92_fields =
    [VStr "80.00"; VStr "80.00"; VStr "400.00"; VStr "500.00"] /\
    Forall (fun f => unit_ f = "mm" /\ description f = "steps per unit" /\
                     origValue f = value f) M92_fields.
Proof.
  intros version self0 self. split; [ | split; [ | split]].
  - apply M92_line_emits with (g := re self) (fw := FIRMWARE_NAME self).
    + apply (setRegExVars_all_versions version self0).
    + split; reflexivity.
  - reflexivity.
  - reflexivity.
  - repeat constructor.
Qed.

(** ** Extracting a line twice *)

Lemma eepromFieldParse_twice :
  forall s, s <> eepromDataFilament ->
  forall line restoreBackup self,
    exists new,
      data (eepromFieldParse line restoreBackup self) s =
      data self s ++ new /\
      data (eepromFieldParse line restoreBackup
              (eepromFieldParse line restoreBackup self)) s =
      data self s ++ new ++ new.
Proof.
  intros s Hs line rb self.
  destruct (@eepromFieldParse_emits (re self) (FIRMWARE_NAME self) line rb
              s Hs) as [new H].
  assert (C : context (re self) (FIRMWARE_NAME self) self)
    by (split; reflexivity).
  exists new; split.
  - apply (H self C).
  - destruct (H _ (eepromFieldParse_context line rb C)) as [_ ->].
    destruct (H self C) as [_ ->]. rewrite app_assoc; reflexivity.
Qed.

(** C8: on every array but the filament one, extracting a line a second
    time appends the same entries once more, after the first copy; two
    passes over one steps-per-unit line, starting from empty arrays, leave
    the two groups of four entries, eight in all, in the steps array. *)
Theorem second_extraction_appends_again :
  (forall s, s <> eepromDataFilament ->
   forall line restoreBackup self,
     exists new,
       data (eepromFieldParse line restoreBackup self) s =
       data self s ++ new /\
       data (eepromFieldParse line restoreBackup
               (eepromFieldParse line restoreBackup self)) s =
       data self s ++ new ++ new) /\
  (forall version self0,
     let self := setRegExVars version (reset_arrays self0) in
     let twice :=
       eepromFieldParse M92_line false
         (eepromFieldParse M92_line false self) in
     data twice eepromDataSteps = M92_fields ++ M92_fields /\
     List.length (data twice eepromDataSteps) = 8).
Proof.
  split; [exact eepromFieldParse_twice | ].
  intros version self0 self twice.
  assert (C : context (re self) (FIRMWARE_NAME self) self)
    by (split; reflexivity).
  assert (HM : eepromM92RegEx (re self) = Lit.M92)
    by apply (setRegExVars_all_versions version (reset_arrays self0)).
  assert (H : data twice eepromDataSteps = M92_fields ++ M92_fields).
  { unfold twice.
    rewrite (M92_line_emits HM (eepromFieldParse_context M92_line false C)).
    rewrite (M92_line_emits HM C). reflexivity. }
  split; [exact H | rewrite H; reflexivity].
Qed.

(** ** Bed leveling *)

(** The guard on the length of the match array never fails. *)
Lemma M420_guard :
  forall line m,
    exec Lit.M420 line = Some m -> (3 <=? List.length m)%nat = true.
Proof.
  intros line m H. rewrite (exec_length _ _ H). reflexivity.
Qed.

(** Outside the release-candidate and 1.0.2 families, a line the
    bed-leveling pattern matches appends the two entries. *)
Lemma M420_line_emits :
  forall g fw line m restoreBackup self,
    eepromM420RegEx g = Lit.M420 ->
    existsb (String.eqb fw) rc_names = false ->
    existsb (String.eqb fw) legacy_names = false ->
    context g fw self ->
    exec Lit.M420 line = Some m ->
    data (eepromFieldParse line restoreBackup self) eepromDataLevel =
    data self eepromDataLevel ++ M420_fields restoreBackup m.
Proof.
  intros g fw line m rb self HM420 Hrc Hlegacy C Hm.
  after_acknowledge line self.
  assert (Hlast :
            emits_at g fw eepromDataLevel (M420_fields rb m)
              (on_match eepromM420RegEx line
                 (fun m =>
                    push eepromDataLevel
                      {| dataType := "M420 S"; label := "Auto Bed Leveling";
                         origValue := (if rb then VStr "" else m.[2]);
                         value := m.[2]; unit_ := "0/1"; description := "" |} ;;
                    when (3 <=? List.length m)%nat
                      (push eepromDataLevel
                         {| dataType := "M420 Z"; label := "Fade height";
                            origValue := (if rb then VStr "" else m.[4]);
                            value := m.[4]; unit_ := "mm";
                            description := "" |})))).
  { apply emits_on_match_some with (m := m); [rewrite HM420; exact Hm | ].
    apply (@emits_seq _ _ _ [_] [_]); [exact (@emits_push _ _ _ _ _) | ].
    rewrite (M420_guard _ Hm). apply emits_when_true.
    exact (@emits_push _ _ _ _ _). }
  match goal with
  | |- data (?E _) _ = _ =>
      assert (H : emits_at g fw eepromDataLevel (M420_fields rb m) E)
  end.
  { skip_untouched.
    apply emits_if_firmware_name; intros _.
    { skip_untouched. exact Hlast. }
    apply emits_if_firmware_name; intros E; [unfold rc_names in Hrc; congruence | ].
    apply emits_if_firmware_name; intros E';
      [unfold legacy_names in Hlegacy; congruence | ].
    skip_untouched. exact Hlast. }
  destruct (H (acknowledge line self) (acknowledge_context line C)) as [_ Hd].
  rewrite Hd, acknowledge_data. reflexivity.
Qed.

(** C3: with the firmware name "Marlin 1.1.8" and its patterns, the
    bed-leveling line "M420 S1", which carries the enable slot only, appends
    two entries to the leveling array, not one: M420 S with the value 1 and
    M420 Z with the empty value.  The guard on the length of the match array
    holds for every match, and a line with both slots appends two entries as
    well. *)
Theorem leveling_line_always_appends_two :
  forall self0,
    let self :=
      setRegExVars "Marlin 1.1.8" (set_FIRMWARE_NAME self0 "Marlin 1.1.8") in
    data (eepromFieldParse "M420 S1" false self) eepromDataLevel =
    data self eepromDataLevel ++
    [{| dataType := "M420 S"; label := "Auto Bed Leveling";
        origValue := VStr "1"; value := VStr "1";
        unit_ := "0/1"; description := "" |};
     {| dataType := "M420 Z"; label := "Fade height";
        origValue := VStr ""; value := VStr "";
        unit_ := "mm"; description := "" |}] /\
    data (eepromFieldParse "M420 S1 Z10.00" false self) eepromDataLevel =
    data self eepromDataLevel ++
    [{| dataType := "M420 S"; label := "Auto Bed Leveling";
        origValue := VStr "1"; value := VStr "1";
        unit_ := "0/1"; description := "" |};
     {| dataType := "M420 Z"; label := "Fade height";
        origValue := VStr "10.00"; value := VStr "10.00";
        unit_ := "mm"; description := "" |}].
Proof.
  intros self0 self.
  assert (C : context (re self) "Marlin 1.1.8" self) by (split; reflexivity).
  split.
  - apply (@M420_line_emits (re self) "Marlin 1.1.8" "M420 S1"
             [VStr "M420 S1"; VStr "S"; VStr "1"; VStr ""; VStr ""]
             false self eq_refl eq_refl eq_refl C).
    vm_compute; reflexivity.
  - apply (@M420_line_emits (re self) "Marlin 1.1.8" "M420 S1 Z10.00"
             [VStr "M420 S1 Z10.00"; VStr "S"; VStr "1"; VStr "";
              VStr "10.00"]
             false self eq_refl eq_refl eq_refl C).
    vm_compute; reflexivity.
Qed.

(** ** Filament diameter *)

Lemma filament_is_context :
  forall g fw d self, filament_is g fw d self -> context g fw self.
Proof. intros g fw d self [C _]; exact C. Qed.

Lemma filament_is_push :
  forall g fw d s f,
    s <> eepromDataFilament -> preserves (filament_is g fw d) (push s f).
Proof.
  intros g fw d s f Hs self [C D]; split.
  - exact (context_only_data (only_data_push s f self) C).
  - rewrite data_push_other; [exact D | congruence].
Qed.

Lemma hoare_seq :
  forall (P Q R : VM -> Prop) (F G : VM -> VM),
    (forall self, P self -> Q (F self)) ->
    (forall self, Q self -> R (G self)) ->
    forall self, P self -> R ((F ;; G) self).
Proof. intros P Q R F G HF HG self H; apply HG, HF, H. Qed.

Lemma hoare_preserved :
  forall (P R : VM -> Prop) (F G : VM -> VM),
    preserves P F ->
    (forall self, P self -> R (G self)) ->
    forall self, P self -> R ((F ;; G) self).
Proof. intros P R F G HF HG self H; apply HG, HF, H. Qed.

Lemma preserves_apply :
  forall (P : VM -> Prop) (F : VM -> VM),
    preserves P F -> forall self, P self -> P (F self).
Proof. intros P F H; exact H. Qed.

(** Once the filament array holds an entry, the extractor leaves it as it
    is. *)
Lemma filament_kept :
  forall line restoreBackup self,
    data self eepromDataFilament <> [] ->
    data (eepromFieldParse line restoreBackup self) eepromDataFilament =
    data self eepromDataFilament.
Proof.
  intros line rb self Hne.
  set (g := re self). set (fw := FIRMWARE_NAME self).
  set (d := data self eepromDataFilament) in *.
  pose proof (@filament_is_context g fw d) as ctx.
  after_acknowledge line self.
  match goal with
  | |- data (?E _) _ = _ =>
      assert (H : preserves (filament_is g fw d) E)
  end.
  { preserves_walk ctx no_branch
      ltac:(first
              [ apply filament_is_push; discriminate
              | apply preserves_if_empty; intros ? [_ D] L;
                rewrite D in L; destruct d; [contradiction | discriminate] ]). }
  apply H. split.
  - apply acknowledge_context; split; reflexivity.
  - rewrite acknowledge_data; reflexivity.
Qed.

(** On an empty filament array, a line the filament pattern matches leaves
    exactly its entry. *)
Lemma filament_first :
  forall line restoreBackup self m,
    data self eepromDataFilament = [] ->
    exec (eepromM200RegEx (re self)) line = Some m ->
    data (eepromFieldParse line restoreBackup self) eepromDataFilament =
    [M200_field restoreBackup m].
Proof.
  intros line rb self m Hd Hm.
  set (g := re self) in *. set (fw := FIRMWARE_NAME self).
  pose proof (@filament_is_context g fw []) as ctx0.
  pose proof (@filament_is_context g fw [M200_field rb m]) as ctx1.
  after_acknowledge line self.
  match goal with
  | |- data (?E ?a) _ = _ =>
      assert (H : forall x, filament_is g fw [] x ->
                            filament_is g fw [M200_field rb m] (E x))
  end.
  { repeat (apply hoare_preserved;
            [ solve [preserves_walk ctx0 no_branch
                       ltac:(apply filament_is_push; discriminate)]
            | ]).
    apply (@hoare_seq _ (filament_is g fw [M200_field rb m])).
    - intros x [[Hr Hf] D]. unfold on_match, if_empty.
      rewrite Hr, Hm, D. simpl List.length. cbn [Nat.eqb]. split.
      + apply (context_only_data (only_data_push _ _ x)); split; assumption.
      + rewrite data_push_same, D. reflexivity.
    - apply preserves_apply.
      preserves_walk ctx1 no_branch
        ltac:(apply filament_is_push; discriminate). }
  apply H. split.
  - apply acknowledge_context; split; reflexivity.
  - rewrite acknowledge_data; exact Hd.
Qed.

(** C9: the filament-diameter family takes the first match only.  On an
    empty filament array a matching M200 line leaves exactly one entry;
    once the array is not empty, extracting any line leaves it as it is; so
    after a first matching line, a second line leaves the entry of the first
    and the length 1. *)
Theorem filament_first_match_only :
  (forall line restoreBackup self m,
     data self eepromDataFilament = [] ->
     exec (eepromM200RegEx (re self)) line = Some m ->
     data (eepromFieldParse line restoreBackup self) eepromDataFilament =
     [M200_field restoreBackup m]) /\
  (forall line restoreBackup self,
     data self eepromDataFilament <> [] ->
     data (eepromFieldParse line restoreBackup self) eepromDataFilament =
     data self eepromDataFilament) /\
  (forall line1 line2 restore1 restore2 self m,
     data self eepromDataFilament = [] ->
     exec (eepromM200RegEx (re self)) line1 = Some m ->
     let after :=
       eepromFieldParse line2 restore2
         (eepromFieldParse line1 restore1 self) in
     data after eepromDataFilament = [M200_field restore1 m] /\
     List.length (data after eepromDataFilament) = 1).
Proof.
  split; [exact filament_first | split; [exact filament_kept | ]].
  intros line1 line2 rb1 rb2 self m Hd Hm after.
  assert (H : data after eepromDataFilament = [M200_field rb1 m]).
  { unfold after. rewrite filament_kept.
    - exact (filament_first line1 rb1 self Hd Hm).
    - rewrite (filament_first line1 rb1 self Hd Hm); discriminate. }
  split; [exact H | rewrite H; reflexivity].
Qed.

(** ** Saving *)

Lemma loose_eq_spec : forall a b, reflect (a = b) (loose_eq a b).
Proof.
  intros [ | x] [ | y]; simpl; try (constructor; congruence).
  destruct (String.eqb_spec x y); constructor; congruence.
Qed.

(** An entry is dirty exactly when its two values differ. *)
Lemma dirty_iff : forall f, dirty f = true <-> origValue f <> value f.
Proof.
  intros f; unfold dirty, loose_neq.
  destruct (loose_eq_spec (origValue f) (value f)); simpl; split;
    congruence.
Qed.

Lemma committed_clean : forall f, dirty (committed f) = false.
Proof.
  intros f; unfold committed. destruct (dirty f) eqn:E; [ | exact E].
  unfold dirty, loose_neq; simpl.
  destruct (loose_eq_spec (value f) (value f)); [reflexivity | congruence].
Qed.

Lemma filter_dirty_committed :
  forall l, filter dirty (map committed l) = [].
Proof.
  induction l as [ | f l IH]; simpl; [reflexivity | ].
  rewrite committed_clean; exact IH.
Qed.

(** One pass of [saveEeprom] over an array. *)
Lemma save_each_spec :
  forall l self,
    save_each l self =
    (map committed l,
     set_sent self (sent self ++ map command_of (filter dirty l))).
Proof.
  induction l as [ | f l IH]; intros self; simpl.
  - rewrite app_nil_r; destruct self; reflexivity.
  - unfold committed; fold (dirty f). destruct (dirty f); rewrite IH; simpl.
    + rewrite <- app_assoc; reflexivity.
    + reflexivity.
Qed.

Lemma save_array_sent :
  forall s self,
    sent (save_array s self) =
    sent self ++ map command_of (filter dirty (data self s)).
Proof.
  intros s self; unfold save_array. rewrite save_each_spec; reflexivity.
Qed.

Lemma save_array_data :
  forall s self s',
    data (save_array s self) s' =
    if section_eqb s' s then map committed (data self s) else data self s'.
Proof.
  intros s self s'; unfold save_array. rewrite save_each_spec; reflexivity.
Qed.

Lemma save_array_rest :
  forall s self,
    save_array s self =
    set_data (set_sent self (sent (save_array s self)))
      (data (save_array s self)).
Proof.
  intros s self; unfold save_array. rewrite save_each_spec; reflexivity.
Qed.

(** The passes in a row: [save_arrays] is the fold over [array_order]. *)
Lemma save_arrays_fold :
  forall self,
    save_arrays self =
    fold_left (fun self s => save_array s self) array_order self.
Proof.
  intros self. cbv [save_arrays seq array_order fold_left]. reflexivity.
Qed.

Lemma array_order_NoDup : NoDup array_order.
Proof.
  unfold array_order.
  repeat (constructor; [simpl; intuition discriminate | ]).
  constructor.
Qed.

Lemma array_order_complete : forall s, In s array_order.
Proof. intros s; destruct s; simpl; tauto. Qed.

Lemma save_fold_data_other :
  forall l self s,
    ~ In s l ->
    data (fold_left (fun self s => save_array s self) l self) s =
    data self s.
Proof.
  induction l as [ | s0 l IH]; intros self s Hs; simpl; [reflexivity | ].
  rewrite IH by (intros H; apply Hs; right; exact H).
  rewrite save_array_data. unfold section_eqb.
  destruct (section_eq_dec s s0) as [-> | _]; [ | reflexivity].
  contradiction Hs; left; reflexivity.
Qed.

Lemma save_fold_data :
  forall l self s,
    NoDup l -> In s l ->
    data (fold_left (fun self s => save_array s self) l self) s =
    map committed (data self s).
Proof.
  induction l as [ | s0 l IH]; intros self s Hl Hs; simpl; [contradiction | ].
  inversion Hl as [ | ? ? Hs0 Hl']; subst.
  destruct Hs as [-> | Hs].
  - rewrite save_fold_data_other by exact Hs0.
    rewrite save_array_data. unfold section_eqb.
    destruct (section_eq_dec s s); [reflexivity | contradiction].
  - rewrite (IH _ _ Hl' Hs). rewrite save_array_data. unfold section_eqb.
    destruct (section_eq_dec s s0) as [-> | _]; [contradiction | reflexivity].
Qed.

Lemma flat_map_agree :
  forall (A B : Type) (f h : A -> list B) l,
    (forall a, In a l -> f a = h a) -> flat_map f l = flat_map h l.
Proof.
  intros A B f h l; induction l as [ | a l IH]; intros H; simpl.
  - reflexivity.
  - rewrite (H a (or_introl eq_refl)), IH; [reflexivity | ].
    intros b Hb; apply H; right; exact Hb.
Qed.

Lemma save_fold_sent :
  forall l self,
    NoDup l ->
    sent (fold_left (fun self s => save_array s self) l self) =
    sent self ++
    map command_of (flat_map (fun s => filter dirty (data self s)) l).
Proof.
  induction l as [ | s0 l IH]; intros self Hl; simpl.
  - rewrite app_nil_r; reflexivity.
  - inversion Hl as [ | ? ? Hs0 Hl']; subst.
    rewrite (IH _ Hl'), save_array_sent, map_app, <- app_assoc.
    do 3 f_equal. apply flat_map_agree; intros s Hs.
    rewrite save_array_data. unfold section_eqb.
    destruct (section_eq_dec s s0) as [-> | _]; [contradiction | reflexivity].
Qed.

Lemma save_fold_rest :
  forall l self,
    let self' := fold_left (fun self s => save_array s self) l self in
    self' = set_data (set_sent self (sent self')) (data self').
Proof.
  induction l as [ | s0 l IH]; intros self; simpl.
  - destruct self; reflexivity.
  - rewrite (IH (save_array s0 self)) at 1.
    rewrite (save_array_rest s0 self) at 1. reflexivity.
Qed.

(** The eighteen passes send one command per dirty entry, array by array. *)
Lemma save_arrays_sent :
  forall self, sent (save_arrays self) = sent self ++ map command_of (diff self).
Proof.
  intros self; rewrite save_arrays_fold.
  apply save_fold_sent, array_order_NoDup.
Qed.

(** The eighteen passes leave every array with its entries committed. *)
Lemma save_arrays_data :
  forall self s, data (save_arrays self) s = map committed (data self s).
Proof.
  intros self s; rewrite save_arrays_fold.
  apply save_fold_data; [apply array_order_NoDup | apply array_order_complete].
Qed.

Lemma save_arrays_rest :
  forall self,
    save_arrays self =
    set_data (set_sent self (sent (save_arrays self)))
      (data (save_arrays self)).
Proof. intros self; rewrite save_arrays_fold; apply save_fold_rest. Qed.

Lemma diff_after_save_arrays : forall self, diff (save_arrays self) = [].
Proof.
  intros self; unfold diff.
  generalize array_order; intros l.
  induction l as [ | s l IH]; cbn [flat_map]; [reflexivity | ].
  rewrite IH, save_arrays_data, filter_dirty_committed. reflexivity.
Qed.

(** ** The load cycle and [saveEeprom] *)

Lemma reset_arrays_data : forall self s, data (reset_arrays self) s = [].
Proof. intros self s; destruct s; reflexivity. Qed.

Lemma reset_arrays_sent : forall self, sent (reset_arrays self) = sent self.
Proof. reflexivity. Qed.

Lemma reset_arrays_isPrinting :
  forall self, isPrinting (reset_arrays self) = isPrinting self.
Proof. reflexivity. Qed.

Lemma _requestEepromData_data :
  forall self, data (_requestEepromData self) = data self.
Proof.
  intros self; unfold _requestEepromData.
  destruct (negb (isPrinting self)); reflexivity.
Qed.

Lemma _requestEepromData_sent :
  forall self,
    sent (_requestEepromData self) =
    sent self ++ (if isPrinting self then [] else ["M504"; "M501"]).
Proof.
  intros self; unfold _requestEepromData.
  destruct (isPrinting self); cbn [negb].
  - rewrite app_nil_r; reflexivity.
  - unfold seq, sendCustomCommand; cbn [sent set_sent].
    rewrite <- app_assoc; reflexivity.
Qed.

Lemma _requestEepromData_isPrinting :
  forall self, isPrinting (_requestEepromData self) = isPrinting self.
Proof.
  intros self; unfold _requestEepromData.
  destruct (negb (isPrinting self)); reflexivity.
Qed.

Lemma setControls_data :
  forall b self, data (setControls b self) = data self.
Proof. intros b self; unfold setControls; destruct (negb _); reflexivity. Qed.

Lemma setControls_sent :
  forall b self, sent (setControls b self) = sent self.
Proof. intros b self; unfold setControls; destruct (negb _); reflexivity. Qed.

Lemma setControls_isPrinting :
  forall b self, isPrinting (setControls b self) = isPrinting self.
Proof. intros b self; unfold setControls; destruct (negb _); reflexivity. Qed.

Lemma data_set_hasChangedEepromForm :
  forall self b, data (set_hasChangedEepromForm self b) = data self.
Proof. reflexivity. Qed.

Lemma sent_set_hasChangedEepromForm :
  forall self b, sent (set_hasChangedEepromForm self b) = sent self.
Proof. reflexivity. Qed.

Lemma isPrinting_set_hasChangedEepromForm :
  forall self b, isPrinting (set_hasChangedEepromForm self b) = isPrinting self.
Proof. reflexivity. Qed.

Lemma sent_sendCustomCommand :
  forall cmd self, sent (sendCustomCommand cmd self) = sent self ++ [cmd].
Proof. reflexivity. Qed.

Lemma isPrinting_sendCustomCommand :
  forall cmd self, isPrinting (sendCustomCommand cmd self) = isPrinting self.
Proof. reflexivity. Qed.

Lemma loadEeprom_data : forall self s, data (loadEeprom self) s = [].
Proof.
  intros self s. unfold loadEeprom, seq.
  rewrite data_set_hasChangedEepromForm, _requestEepromData_data.
  apply reset_arrays_data.
Qed.

Lemma loadEeprom_sent :
  forall self,
    sent (loadEeprom self) =
    sent self ++ (if isPrinting self then [] else ["M504"; "M501"]).
Proof.
  intros self. unfold loadEeprom, seq.
  rewrite sent_set_hasChangedEepromForm.
  rewrite _requestEepromData_sent, reset_arrays_sent, reset_arrays_isPrinting.
  rewrite setControls_sent, setControls_isPrinting. reflexivity.
Qed.

Lemma loadEeprom_isPrinting :
  forall self, isPrinting (loadEeprom self) = isPrinting self.
Proof.
  intros self. unfold loadEeprom, seq.
  rewrite isPrinting_set_hasChangedEepromForm.
  rewrite _requestEepromData_isPrinting, reset_arrays_isPrinting.
  apply setControls_isPrinting.
Qed.

Lemma diff_nil : forall self, (forall s, data self s = []) -> diff self = [].
Proof.
  intros self H; unfold diff. generalize array_order; intros l.
  induction l as [ | s l IH]; cbn [flat_map]; [reflexivity | ].
  rewrite IH, H; reflexivity.
Qed.

(** The state in which [saveEeprom] starts the load cycle. *)
Lemma saveEeprom_load :
  forall self,
    saveEeprom self =
    loadEeprom
      (sendCustomCommand "M504"
         (set_hasChangedEepromForm
            (sendCustomCommand "M500" (save_arrays (setControls false self)))
            false)).
Proof. intros self; unfold saveEeprom, seq; reflexivity. Qed.

Lemma diff_ext :
  forall a b, (forall s, data a s = data b s) -> diff a = diff b.
Proof.
  intros a b H; unfold diff. apply flat_map_agree; intros s _.
  rewrite H; reflexivity.
Qed.

Lemma save_arrays_isPrinting :
  forall self, isPrinting (save_arrays self) = isPrinting self.
Proof. intros self; rewrite save_arrays_rest; reflexivity. Qed.

(** The commands of a whole [saveEeprom]. *)
Lemma saveEeprom_sent :
  forall self,
    sent (saveEeprom self) =
    sent self ++ map command_of (diff self) ++ ["M500"; "M504"] ++
    (if isPrinting self then [] else ["M504"; "M501"]).
Proof.
  intros self. rewrite saveEeprom_load, loadEeprom_sent.
  rewrite !sent_sendCustomCommand, sent_set_hasChangedEepromForm.
  rewrite !isPrinting_sendCustomCommand, isPrinting_set_hasChangedEepromForm.
  rewrite !sent_sendCustomCommand, !isPrinting_sendCustomCommand.
  rewrite save_arrays_sent, save_arrays_isPrinting.
  rewrite setControls_sent, setControls_isPrinting.
  rewrite (diff_ext (setControls false self) self)
    by (intros s; rewrite setControls_data; reflexivity).
  rewrite <- !app_assoc. reflexivity.
Qed.

Lemma saveEeprom_data : forall self s, data (saveEeprom self) s = [].
Proof. intros self s; rewrite saveEeprom_load; apply loadEeprom_data. Qed.

Lemma saveEeprom_isPrinting :
  forall self, isPrinting (saveEeprom self) = isPrinting self.
Proof.
  intros self. rewrite saveEeprom_load, loadEeprom_isPrinting.
  rewrite !isPrinting_sendCustomCommand, isPrinting_set_hasChangedEepromForm.
  rewrite !isPrinting_sendCustomCommand.
  rewrite save_arrays_isPrinting. apply setControls_isPrinting.
Qed.

Lemma in_diff :
  forall self f,
    In f (diff self) <->
    exists s, In f (data self s) /\ origValue f <> value f.
Proof.
  intros self f; unfold diff. rewrite in_flat_map. split.
  - intros [s [_ H]]. apply filter_In in H. destruct H as [H D].
    exists s; split; [exact H | apply dirty_iff; exact D].
  - intros [s [H D]]. exists s; split; [apply array_order_complete | ].
    apply filter_In; split; [exact H | apply dirty_iff; exact D].
Qed.

(** C1: the passes of [saveEeprom] send a command for exactly the entries
    whose [origValue] differs from [value], in the order of the arrays;
    each such entry gets [origValue := value] and every other entry is left
    as it is; after the passes no entry is dirty, so passes run again at
    once send nothing; and a second [saveEeprom] right after a first sends
    no per-entry command, only the commit, the recompute and the load
    requests. *)
Theorem save_diff_exact_and_idempotent :
  forall self,
    sent (save_arrays self) =
    sent self ++
    map (fun f => (dataType f ++ to_str (value f))%string) (diff self) /\
    (forall f,
       In f (diff self) <->
       exists s, In f (data self s) /\ origValue f <> value f) /\
    (forall s,
       data (save_arrays self) s =
       map (fun f => if loose_neq (origValue f) (value f)
                     then set_origValue f (value f) else f)
         (data self s)) /\
    diff (save_arrays self) = [] /\
    sent (save_arrays (save_arrays self)) = sent (save_arrays self) /\
    diff (saveEeprom self) = [] /\
    sent (saveEeprom (saveEeprom self)) =
    sent (saveEeprom self) ++ ["M500"; "M504"] ++
    (if isPrinting self then [] else ["M504"; "M501"]).
Proof.
  intros self. repeat split.
  - apply save_arrays_sent.
  - apply in_diff.
  - apply in_diff.
  - apply save_arrays_data.
  - apply diff_after_save_arrays.
  - rewrite save_arrays_sent, diff_after_save_arrays, app_nil_r; reflexivity.
  - apply diff_nil, saveEeprom_data.
  - rewrite (saveEeprom_sent (saveEeprom self)).
    rewrite (diff_nil _ (saveEeprom_data self)), saveEeprom_isPrinting.
    reflexivity.
Qed.

(** C5: [saveEeprom] sends one command per dirty entry, the entry's
    [dataType] followed at once by its [value], then "M500", then "M504",
    and then runs [loadEeprom], which sends its own requests unless a print
    is running. *)
Theorem save_commands_in_order :
  forall self,
    exists before_load,
      saveEeprom self = loadEeprom before_load /\
      sent before_load =
      sent self ++
      map (fun f => (dataType f ++ to_str (value f))%string) (diff self) ++
      ["M500"; "M504"] /\
      sent (saveEeprom self) =
      sent before_load ++ (if isPrinting self then [] else ["M504"; "M501"]).
Proof.
  intros self. eexists; split; [apply saveEeprom_load | ].
  assert (H : forall x, sent (sendCustomCommand "M504"
                 (set_hasChangedEepromForm
                    (sendCustomCommand "M500" x) false)) =
              sent x ++ ["M500"; "M504"]).
  { intros x.
    rewrite sent_sendCustomCommand, sent_set_hasChangedEepromForm.
    rewrite sent_sendCustomCommand, <- app_assoc; reflexivity. }
  rewrite H, save_arrays_sent, setControls_sent.
  rewrite (diff_ext (setControls false self) self)
    by (intros s; rewrite setControls_data; reflexivity).
  split.
  - rewrite <- app_assoc; reflexivity.
  - rewrite saveEeprom_sent, <- !app_assoc; reflexivity.
Qed.

(** ** The fallback branch of [setRegExVars] *)

Lemma not_in_eqb :
  forall (v : string) l, ~ In v l -> existsb (String.eqb v) l = false.
Proof.
  intros v l; induction l as [ | x l IH]; intros H; simpl; [reflexivity | ].
  destruct (String.eqb_spec v x) as [-> | _].
  - contradiction H; left; reflexivity.
  - apply IH; intros H'; apply H; right; exact H'.
Qed.

(** C7: [setRegExVars] returns for every version string, and for a string
    that is none of the enumerated ones it assigns what it assigns for
    'latest': the patterns of the latest-stable branch, whatever patterns
    were there before.  The names 'Marlin 1.1.0-RC8' to 'Marlin 1.1.8' give
    the same patterns too. *)
Theorem fallback_is_latest_stable :
  forall version self,
    ~ In version enumerated_names ->
    setRegExVars version self = setRegExVars "latest" self /\
    re (setRegExVars version self) = stable_grammar /\
    Forall (fun name => re (setRegExVars name self) = stable_grammar)
      stable_names.
Proof.
  intros version self H.
  assert (E := not_in_eqb _ _ H).
  cbn [enumerated_names bugfix_names stable_names rc_names legacy_names
       app existsb] in E.
  repeat match goal with
         | E : (_ || _)%bool = false |- _ =>
             apply orb_false_elim in E; destruct E
         end.
  assert (HS : setRegExVars version self = setRegExVars "latest" self).
  { unfold setRegExVars. cbv zeta.
    repeat match goal with
           | E : (version =? _)%string = false |- _ => rewrite E; clear E
           end.
    reflexivity. }
  split; [exact HS | split; [rewrite HS; reflexivity | ]].
  repeat constructor.
Qed.

(** ** Restore from a file *)

Lemma each_cons :
  forall (A : Type) (x : A) l (f : A -> VM -> VM) self,
    each (x :: l) f self = each l f (f x self).
Proof. reflexivity. Qed.

Lemma each_nil :
  forall (A : Type) (f : A -> VM -> VM) self, each [] f self = self.
Proof. reflexivity. Qed.

(** Every entry of the arrays after the file-restore callback has an empty
    [origValue]. *)
Lemma handleFileSelect_onload_cleared :
  forall result self s,
    Forall (fun f => origValue f = VStr "")
      (data (handleFileSelect_onload result self) s).
Proof.
  intros result self s. unfold handleFileSelect_onload, seq.
  generalize (split_lines
                (backupConfig
                   (reset_arrays
                      (set_backupConfig (setControls false self) result)))).
  intros lines.
  assert (H0 : Forall (fun f => origValue f = VStr "")
                 (data (reset_arrays
                          (set_backupConfig (setControls false self) result))
                    s)).
  { rewrite reset_arrays_data; constructor. }
  revert H0.
  generalize (reset_arrays (set_backupConfig (setControls false self) result)).
  induction lines as [ | line lines IH]; intros x Hx.
  - rewrite each_nil; exact Hx.
  - rewrite each_cons. apply IH.
    destruct (appended_after_acknowledge line x
                (eepromFieldParse_restore line x) s)
      as [new [-> Hnew]].
    apply Forall_app; split; [exact Hx | ].
    revert Hnew; apply Forall_impl; intros f [Hf _]; exact Hf.
Qed.

(** ** The log feed *)

Lemma write_isMarlinFirmware_data :
  forall b self s,
    data (write_isMarlinFirmware b self) s = data self s \/
    data (write_isMarlinFirmware b self) s = [].
Proof.
  intros b self s; unfold write_isMarlinFirmware.
  destruct (Bool.eqb (isMarlinFirmware self) b); [left; reflexivity | ].
  right; apply loadEeprom_data.
Qed.

Lemma detect_firmware_data :
  forall line self s,
    data (detect_firmware line self) s = data self s \/
    data (detect_firmware line self) s = [].
Proof.
  intros line self s. unfold detect_firmware, seq.
  assert (H : forall x : VM,
             data match exec Lit.firmwareCap line with
                  | Some _ =>
                      set_FIRMWARE_INFO x
                        (FIRMWARE_INFO x ++ LF ++
                         remove_first "Recv: Cap:" line)%string
                  | None => x
                  end = data x).
  { intros x; destruct (exec Lit.firmwareCap line); reflexivity. }
  rewrite H; clear H.
  destruct (exec Lit.firmware line) as [m | ]; [ | left; reflexivity].
  destruct (exec Lit.marlin (to_str m.[0])); [ | left; reflexivity].
  destruct (write_isMarlinFirmware_data true
              (setRegExVars
                 (FIRMWARE_NAME
                    (set_FIRMWARE_INFO
                       (set_FIRMWARE_NAME self
                          (to_str m.[1] ++ " " ++ to_str m.[2])%string)
                       (remove_first "Recv: " line)))
                 (set_FIRMWARE_INFO
                    (set_FIRMWARE_NAME self
                       (to_str m.[1] ++ " " ++ to_str m.[2])%string)
                    (remove_first "Recv: " line))) s) as [H | H].
  - left; rewrite H; reflexivity.
  - right; exact H.
Qed.

Lemma each_detect_firmware_data :
  forall logs self s,
    data (each logs detect_firmware self) s = data self s \/
    data (each logs detect_firmware self) s = [].
Proof.
  induction logs as [ | line logs IH]; intros self s.
  - left; reflexivity.
  - rewrite each_cons.
    destruct (IH (detect_firmware line self) s) as [H | H].
    + rewrite H; apply detect_firmware_data.
    + right; exact H.
Qed.

Lemma capture_backup_data :
  forall now logs self, data (capture_backup now logs self) = data self.
Proof.
  intros now logs self. unfold capture_backup, seq.
  destruct (exec (eepromM501RegEx (re self)) (String.concat "," logs));
    match goal with
    | |- data (if ?b then _ else _) = _ => destruct b; [ | reflexivity]
    end;
    match goal with
    | |- data match ?a with _ => _ end = _ =>
        destruct a;
        [ reflexivity
        | match goal with
          | |- data match ?b with _ => _ end = _ =>
              destruct b; reflexivity
          end ]
    end.
Qed.

Lemma each_live :
  forall logs self s,
    exists new,
      data (each logs (fun line => eepromFieldParse line false) self) s =
      data self s ++ new /\
      Forall (fun f => origValue f = value f) new.
Proof.
  induction logs as [ | line logs IH]; intros self s.
  - exists []; split; [rewrite app_nil_r; reflexivity | constructor].
  - rewrite each_cons.
    destruct (IH (eepromFieldParse line false self) s) as [n2 [-> H2]].
    destruct (appended_after_acknowledge line self
                (eepromFieldParse_live line self) s)
      as [n1 [-> H1]].
    exists (n1 ++ n2); split; [rewrite app_assoc; reflexivity | ].
    apply Forall_app; split; [ | exact H2].
    revert H1; apply Forall_impl; intros f [Hf _]; exact Hf.
Qed.

(** An entry of the arrays after a batch of the log feed was there before
    or has [origValue] equal to [value]. *)
Lemma fromCurrentData_original :
  forall now logs self s,
    Forall (fun f => In f (data self s) \/ origValue f = value f)
      (data (fromCurrentData now logs self) s).
Proof.
  intros now logs self s. unfold fromCurrentData, seq.
  rewrite data_set_hasChangedEepromForm.
  assert (H0 : data (set_hasChangedEepromForm self true) s = data self s)
    by reflexivity.
  revert H0. generalize (set_hasChangedEepromForm self true); intros x Hx.
  assert (Hold : Forall (fun f => In f (data self s) \/ origValue f = value f)
                   (data x s)).
  { rewrite Hx. apply Forall_forall; intros f Hf; left; exact Hf. }
  destruct (negb (isMarlinFirmware x)).
  - destruct (each_detect_firmware_data logs x s) as [-> | ->];
      [exact Hold | constructor].
  - destruct (each_live logs (capture_backup now logs x) s) as [new [-> Hn]].
    rewrite capture_backup_data.
    apply Forall_app; split; [exact Hold | ].
    revert Hn; apply Forall_impl; intros f Hf; right; exact Hf.
Qed.

(** ** The acknowledgement in the extractor and in a backup session *)

Lemma eepromFieldParse_execBackup :
  forall line restoreBackup self,
    execBackup (eepromFieldParse line restoreBackup self) = execBackup self.
Proof.
  intros line rb self.
  rewrite (only_data_execBackup (eepromFieldParse_only_data line rb self)).
  unfold acknowledge; destruct (exec _ line); reflexivity.
Qed.

Lemma eepromFieldParse_downloads :
  forall line restoreBackup self,
    downloads (eepromFieldParse line restoreBackup self) = downloads self.
Proof.
  intros line rb self.
  rewrite (only_data_downloads (eepromFieldParse_only_data line rb self)).
  unfold acknowledge; destruct (exec _ line); reflexivity.
Qed.

Lemma each_extract_rest :
  forall logs restoreBackup self,
    let after :=
      each logs (fun line => eepromFieldParse line restoreBackup) self in
    execBackup after = execBackup self /\
    downloads after = downloads self /\
    exists t, timers after = timers self ++ t.
Proof.
  induction logs as [ | line logs IH]; intros rb self; cbv zeta.
  - rewrite each_nil. repeat split. exists []; rewrite app_nil_r; reflexivity.
  - rewrite each_cons.
    destruct (IH rb (eepromFieldParse line rb self)) as [He [Hd [t Ht]]].
    rewrite He, Hd, Ht.
    rewrite eepromFieldParse_execBackup, eepromFieldParse_downloads.
    rewrite eepromFieldParse_timers, <- app_assoc.
    repeat split. eexists; reflexivity.
Qed.

Lemma not_None : forall (A : Type) (o : option A), o <> None -> exists a, o = Some a.
Proof. intros A [a | ] H; [exists a; reflexivity | contradiction]. Qed.

(** A backup session ends on the batch that brings the two letters into the
    accumulated text. *)
Lemma capture_backup_ends :
  forall now logs self,
    eepromOKRegEx (re self) = Lit.OK ->
    execBackup self = true ->
    startBackup self = true \/
    exec (eepromM501RegEx (re self)) (String.concat "," logs) <> None ->
    occurs_in "ok" (backupConfig self ++ String.concat "," logs ++ LF) ->
    let after := capture_backup now logs self in
    execBackup after = false /\
    (exists d, downloads after = downloads self ++ [d]) /\
    timers after = timers self ++ [reenable].
Proof.
  intros now logs self HOK He Hs Hocc after. unfold after; clear after.
  apply exec_OK in Hocc. apply not_None in Hocc. destruct Hocc as [mOK HmOK].
  unfold capture_backup, seq.
  assert (HX : exists x,
             match exec (eepromM501RegEx (re self)) (String.concat "," logs)
             with
             | Some _ => set_startBackup self true
             | None => self
             end = x /\
             re x = re self /\ execBackup x = true /\ startBackup x = true /\
             backupConfig x = backupConfig self /\
             downloads x = downloads self /\ timers x = timers self).
  { destruct (exec (eepromM501RegEx (re self)) (String.concat "," logs)).
    - eexists; split; [reflexivity | ]. repeat split; assumption.
    - eexists; split; [reflexivity | ]. repeat split; try assumption.
      destruct Hs as [Hs | Hs]; [exact Hs | contradiction Hs; reflexivity]. }
  destruct HX as [x [-> [Hr [Hxe [Hxs [Hxb [Hxd Hxt]]]]]]].
  rewrite Hxe, Hxs. cbn [andb].
  cbv beta zeta.
  assert (HY : forall y,
             re y = re self -> backupConfig y =
               (backupConfig self ++ String.concat "," logs ++ LF)%string ->
             downloads y = downloads self -> timers y = timers self ->
             let z :=
               match exec (eepromM851RegEx (re y)) (backupConfig y),
                     exec (eepromOKRegEx (re y)) (backupConfig y) with
               | None, None => y
               | _, _ => finish_backup now y
               end in
             execBackup z = false /\
             (exists d, downloads z = downloads self ++ [d]) /\
             timers z = timers self ++ [reenable]).
  { intros y Hyr Hyb Hyd Hyt z.
    assert (Hz : z = finish_backup now y).
    { unfold z. rewrite Hyr, HOK, Hyb, HmOK.
      destruct (exec (eepromM851RegEx (re self)) _); reflexivity. }
    rewrite Hz. split; [reflexivity | split].
    - eexists. unfold finish_backup, seq. cbn [downloads set_downloads setTimeout set_timers].
      rewrite <- Hyd. reflexivity.
    - unfold finish_backup, seq. cbn [timers setTimeout set_timers set_downloads set_backupConfig set_execBackup].
      rewrite Hyt. reflexivity. }
  apply HY.
  - exact Hr.
  - cbn [backupConfig set_backupConfig]. rewrite Hxb; reflexivity.
  - exact Hxd.
  - exact Hxt.
Qed.

Lemma fromCurrentData_marlin :
  forall now logs self,
    isMarlinFirmware self = true ->
    fromCurrentData now logs self =
    set_hasChangedEepromForm
      (each logs (fun line => eepromFieldParse line false)
         (capture_backup now logs (set_hasChangedEepromForm self true)))
      false.
Proof.
  intros now logs self H. unfold fromCurrentData, seq.
  assert (E : isMarlinFirmware (set_hasChangedEepromForm self true) = true)
    by exact H.
  rewrite E. reflexivity.
Qed.

(** C10: the acknowledgement check is not anchored.  With the patterns of
    any [setRegExVars] call, [eepromFieldParse] schedules the 2000 ms timer
    that re-enables the controls exactly when the two letters "ok" occur
    somewhere in the line; and in a running backup session whose start
    marker was seen, the batch that brings "ok" anywhere into the
    accumulated text ends the session: [execBackup] is cleared, the file is
    offered for download and the timer is scheduled. *)
Theorem acknowledgement_is_unanchored :
  (forall version self0 line restoreBackup,
     let self := setRegExVars version self0 in
     let after := eepromFieldParse line restoreBackup self in
     (occurs_in "ok" line -> timers after = timers self ++ [reenable]) /\
     (~ occurs_in "ok" line -> timers after = timers self)) /\
  (forall version self0 now logs,
     let self := setRegExVars version self0 in
     isMarlinFirmware self = true ->
     execBackup self = true ->
     startBackup self = true \/
     exec Lit.M501 (String.concat "," logs) <> None ->
     occurs_in "ok" (backupConfig self ++ String.concat "," logs ++ LF) ->
     let after := fromCurrentData now logs self in
     execBackup after = false /\
     (exists d, downloads after = downloads self ++ [d]) /\
     (exists t, timers after = timers self ++ reenable :: t)).
Proof.
  split.
  - intros version self0 line rb self after. unfold after.
    rewrite eepromFieldParse_timers.
    assert (HOK : eepromOKRegEx (re self) = Lit.OK)
      by apply (setRegExVars_all_versions version self0).
    rewrite HOK. split; intros H.
    + apply exec_OK, not_None in H. destruct H as [m ->]; reflexivity.
    + destruct (exec Lit.OK line) as [m | ] eqn:E.
      * contradiction H. apply exec_OK. rewrite E; discriminate.
      * rewrite app_nil_r; reflexivity.
  - intros version self0 now logs self HM He Hs Hocc after. unfold after.
    rewrite (fromCurrentData_marlin now logs self HM).
    set (x := set_hasChangedEepromForm self true).
    assert (HOK : eepromOKRegEx (re x) = Lit.OK)
      by apply (setRegExVars_all_versions version self0).
    assert (H501 : eepromM501RegEx (re x) = Lit.M501)
      by apply (setRegExVars_all_versions version self0).
    assert (Hs' : startBackup x = true \/
                  exec (eepromM501RegEx (re x)) (String.concat "," logs)
                  <> None) by (rewrite H501; exact Hs).
    destruct (@capture_backup_ends now logs x HOK He Hs' Hocc)
      as [Ce [[d Cd] Ct]].
    destruct (each_extract_rest logs false (capture_backup now logs x))
      as [Ee [Ed [t Et]]].
    split; [ | split].
    + change (execBackup
                (each logs (fun line => eepromFieldParse line false)
                   (capture_backup now logs x)) = false).
      rewrite Ee; exact Ce.
    + exists d.
      change (downloads
                (each logs (fun line => eepromFieldParse line false)
                   (capture_backup now logs x)) = downloads self ++ [d]).
      rewrite Ed; exact Cd.
    + exists t.
      change (timers
                (each logs (fun line => eepromFieldParse line false)
                   (capture_backup now logs x)) =
              timers self ++ reenable :: t).
      rewrite Et, Ct, <- app_assoc; reflexivity.
Qed.

(** C6: with a firmware name of the 1.0.2 family ('Marlin 1.0.2+',
    'Marlin V1.0.2;', 'Marlin 1.0.2', 'Marlin V1;') no line, in either mode
    and under any patterns, makes the extractor append an entry whose
    [dataType] is 'M205 Y'. *)
Theorem legacy_family_never_yields_Y_jerk :
  forall fw, In fw legacy_names ->
  forall line restoreBackup self,
    FIRMWARE_NAME self = fw ->
    forall s,
      exists new,
        data (eepromFieldParse line restoreBackup self) s =
        data self s ++ new /\
        Forall (fun f => dataType f <> "M205 Y") new.
Proof.
  intros fw Hfw line rb self Hself s.
  exact (appended_after_acknowledge line self
           (@eepromFieldParse_legacy fw Hfw line rb self Hself) s).
Qed.

(** ** The theorems at sample inputs *)

Lemma legacy_family_witness :
  In "Marlin 1.0.2" legacy_names /\
  FIRMWARE_NAME sample_legacy = "Marlin 1.0.2" /\
  exists new,
    data (eepromFieldParse M205_legacy_line false sample_legacy) eepromData2 =
    data sample_legacy eepromData2 ++ new /\
    Forall (fun f => dataType f <> "M205 Y") new.
Proof.
  assert (H1 : In "Marlin 1.0.2" legacy_names) by (simpl; tauto).
  assert (H2 : FIRMWARE_NAME sample_legacy = "Marlin 1.0.2")
    by (vm_compute; reflexivity).
  split; [exact H1 | split; [exact H2 | ]].
  exact (legacy_family_never_yields_Y_jerk H1 M205_legacy_line false
           sample_legacy H2 eepromData2).
Defined.

Lemma fallback_witness :
  ~ In "Smoothie 1.0" enumerated_names /\
  setRegExVars "Smoothie 1.0" (initial false) =
  setRegExVars "latest" (initial false) /\
  re (setRegExVars "Smoothie 1.0" (initial false)) = stable_grammar.
Proof.
  assert (H : ~ In "Smoothie 1.0" enumerated_names).
  { simpl; intuition discriminate. }
  split; [exact H | ].
  destruct (fallback_is_latest_stable (initial false) H) as [H1 [H2 _]].
  split; [exact H1 | exact H2].
Defined.

Lemma second_extraction_witness :
  eepromDataSteps <> eepromDataFilament /\
  exists new,
    data (eepromFieldParse M92_line false (initial false)) eepromDataSteps =
    data (initial false) eepromDataSteps ++ new /\
    data (eepromFieldParse M92_line false
            (eepromFieldParse M92_line false (initial false)))
      eepromDataSteps =
    data (initial false) eepromDataSteps ++ new ++ new.
Proof.
  assert (H : eepromDataSteps <> eepromDataFilament) by discriminate.
  split; [exact H | ].
  exact (proj1 second_extraction_appends_again eepromDataSteps H M92_line
           false (initial false)).
Defined.

Lemma filament_witness :
  data (initial false) eepromDataFilament = [] /\
  exec (eepromM200RegEx (re (initial false))) "M200 D1.75" =
  Some [VStr "M200 D1.75"; VStr "D"; VStr "1.75"] /\
  data (eepromFieldParse "M200 D3.00" false
          (eepromFieldParse "M200 D1.75" false (initial false)))
    eepromDataFilament =
  [M200_field false [VStr "M200 D1.75"; VStr "D"; VStr "1.75"]].
Proof.
  assert (H1 : data (initial false) eepromDataFilament = []) by reflexivity.
  assert (H2 : exec (eepromM200RegEx (re (initial false))) "M200 D1.75" =
               Some [VStr "M200 D1.75"; VStr "D"; VStr "1.75"])
    by (vm_compute; reflexivity).
  split; [exact H1 | split; [exact H2 | ]].
  exact (proj1 (proj2 (proj2 filament_first_match_only) "M200 D1.75"
                  "M200 D3.00" false false (initial false) _ H1 H2)).
Defined.

Lemma acknowledgement_witness :
  let self := setRegExVars "Marlin 1.1.8" sample_backup_session in
  let after := fromCurrentData sample_now sample_batch self in
  isMarlinFirmware self = true /\
  execBackup self = true /\
  exec Lit.M501 (String.concat "," sample_batch) <> None /\
  occurs_in "ok" (backupConfig self ++ String.concat "," sample_batch ++ LF) /\
  execBackup after = false /\
  (exists d, downloads after = downloads self ++ [d]) /\
  (exists t, timers after = timers self ++ reenable :: t).
Proof.
  intros self after.
  assert (H1 : isMarlinFirmware self = true) by (vm_compute; reflexivity).
  assert (H2 : execBackup self = true) by (vm_compute; reflexivity).
  assert (H3 : exec Lit.M501 (String.concat "," sample_batch) <> None)
    by (vm_compute; discriminate).
  assert (H4 : occurs_in "ok"
                 (backupConfig self ++ String.concat "," sample_batch ++ LF)).
  { exists "Send: M501,Recv: echo:  t", ("en" ++ LF)%string.
    vm_compute; reflexivity. }
  split; [exact H1 | split; [exact H2 | split; [exact H3 | ]]].
  split; [exact H4 | ].
  exact (proj2 acknowledgement_is_unanchored "Marlin 1.1.8"
           sample_backup_session sample_now sample_batch H1 H2
           (or_intror H3) H4).
Defined.

(** * Further properties *)

(** ** The matcher against the declarative reading of a pattern *)

Lemma repeat_greedy_inv :
  forall ic (R : Type) a s taken (k : cont R) r,
    repeat_greedy ic a s taken k = Some r ->
    exists t rest,
      s = t ++ rest /\
      Forall (fun c => atom_match ic a c = true) t /\
      k (rev taken ++ t) rest = Some r.
Proof.
  intros ic R a s; induction s as [ | c s' IH]; intros taken k r H;
    simpl in H.
  - exists [], []; repeat split; [constructor | ].
    rewrite app_nil_r; exact H.
  - assert (Hstop : k (rev taken) (c :: s') = Some r ->
                    exists t rest,
                      c :: s' = t ++ rest /\
                      Forall (fun c => atom_match ic a c = true) t /\
                      k (rev taken ++ t) rest = Some r).
    { intros Hk; exists [], (c :: s'); repeat split; [constructor | ].
      rewrite app_nil_r; exact Hk. }
    destruct (atom_match ic a c) eqn:Hc; [ | exact (Hstop H)].
    destruct (repeat_greedy ic a s' (c :: taken) k) as [r' | ] eqn:E;
      [ | exact (Hstop H)].
    injection H as <-. destruct (IH _ _ _ E) as [t [rest [-> [Ht Hk]]]].
    exists (c :: t), rest. simpl in Hk. rewrite <- app_assoc in Hk.
    repeat split; [constructor; assumption | exact Hk].
Qed.

Lemma piece_match_inv :
  forall ic (R : Type) p s (k : cont R) r,
    piece_match ic p s k = Some r ->
    exists t rest, s = t ++ rest /\ piece_ok ic p t /\ k t rest = Some r.
Proof.
  intros ic R p s k r H; destruct p as [a | a | a]; simpl in H.
  - destruct s as [ | c s']; [discriminate | ].
    destruct (atom_match ic a c) eqn:Hc; [ | discriminate].
    exists [c], s'; repeat split; [exists c; auto | exact H].
  - destruct (repeat_greedy_inv _ _ _ _ _ H) as [t [rest [-> [Ht Hk]]]].
    exists t, rest; auto.
  - destruct s as [ | c s']; [discriminate | ].
    destruct (atom_match ic a c) eqn:Hc; [ | discriminate].
    destruct (repeat_greedy_inv _ _ _ _ _ H) as [t [rest [-> [Ht Hk]]]].
    exists (c :: t), rest; repeat split.
    + discriminate.
    + constructor; assumption.
    + exact Hk.
Qed.

Lemma match_nodes_sound :
  forall ic re s whole caps f,
    match_nodes ic re s whole caps = Some f ->
    exists ts,
      Forall2 (fun n t => piece_ok ic (piece_of n) t) re ts /\
      s = List.concat ts ++ rest f /\
      matched f = rev whole ++ List.concat ts /\
      captures f = rev caps ++ group_texts re ts.
Proof.
  intros ic re; induction re as [ | n re' IH]; intros s whole caps f H;
    simpl in H.
  - injection H as <-; exists []; simpl.
    rewrite !app_nil_r; repeat split; constructor.
  - destruct n as [p | p];
      destruct (piece_match_inv _ _ _ _ H) as [t [r [-> [Ht Hk]]]];
      destruct (IH _ _ _ _ Hk) as [ts [Hts [-> [Hm Hc]]]];
      exists (t :: ts); simpl;
      (split; [constructor; assumption | ]);
      (split; [rewrite app_assoc; reflexivity | ]);
      (split; [rewrite Hm, rev_app_distr, rev_involutive, <- app_assoc;
               reflexivity | ]).
    + exact Hc.
    + rewrite Hc; simpl. rewrite <- app_assoc; reflexivity.
Qed.

(** What [exec] returns is a match: the text splits into what precedes the
    match, the texts the nodes consumed, and what follows; the array holds
    the matched text and the texts of the groups. *)
Lemma exec_sound :
  forall rx str m,
    exec rx str = Some m ->
    exists before ts after,
      list_ascii_of_string str = before ++ List.concat ts ++ after /\
      accepts rx ts /\
      m = VStr (string_of_list_ascii (List.concat ts)) :: group_texts (nodes rx) ts.
Proof.
  intros rx str m; unfold exec.
  induction (list_ascii_of_string str) as [ | c s IH]; simpl;
    destruct (match_here rx _) as [f | ] eqn:E; intros H; try discriminate.
  - injection H as <-. apply match_nodes_sound in E.
    destruct E as [ts [Hts [Hs [Hm Hc]]]].
    exists [], ts, (rest f); repeat split; [exact Hs | exact Hts | ].
    unfold match_array; rewrite Hm, Hc; reflexivity.
  - injection H as <-. apply match_nodes_sound in E.
    destruct E as [ts [Hts [Hs [Hm Hc]]]].
    exists [], ts, (rest f); repeat split; [exact Hs | exact Hts | ].
    unfold match_array; rewrite Hm, Hc; reflexivity.
  - destruct (IH H) as [b [ts [a [-> [Hts Hm]]]]].
    exists (c :: b), ts, a; auto.
Qed.

Lemma repeat_greedy_fallback :
  forall ic (R : Type) a s taken (k : cont R),
    repeat_greedy ic a s taken k = None -> k (rev taken) s = None.
Proof.
  intros ic R a s taken k H; destruct s as [ | c s']; simpl in H.
  - exact H.
  - destruct (atom_match ic a c); [ | exact H].
    destruct (repeat_greedy ic a s' (c :: taken) k); [discriminate | exact H].
Qed.

Lemma repeat_greedy_complete :
  forall ic (R : Type) a t rest taken (k : cont R),
    Forall (fun c => atom_match ic a c = true) t ->
    k (rev taken ++ t) rest <> None ->
    repeat_greedy ic a (t ++ rest) taken k <> None.
Proof.
  intros ic R a t; induction t as [ | c t IH]; intros rest taken k Ht Hk.
  - rewrite app_nil_r in Hk. intros H.
    apply repeat_greedy_fallback in H. contradiction.
  - inversion Ht as [ | ? ? Hc Ht']; subst. simpl. rewrite Hc.
    assert (H : repeat_greedy ic a (t ++ rest) (c :: taken) k <> None).
    { apply IH; [exact Ht' | ]. simpl. rewrite <- app_assoc. exact Hk. }
    destruct (repeat_greedy ic a (t ++ rest) (c :: taken) k);
      [discriminate | contradiction].
Qed.

Lemma piece_match_complete :
  forall ic (R : Type) p t rest (k : cont R),
    piece_ok ic p t ->
    k t rest <> None ->
    piece_match ic p (t ++ rest) k <> None.
Proof.
  intros ic R p t rest k Hp Hk; destruct p as [a | a | a]; simpl in *.
  - destruct Hp as [c [-> Hc]]; simpl. rewrite Hc; exact Hk.
  - apply repeat_greedy_complete; assumption.
  - destruct Hp as [Hne Ht]. destruct t as [ | c t]; [contradiction | ].
    inversion Ht as [ | ? ? Hc Ht']; subst. simpl. rewrite Hc.
    apply repeat_greedy_complete; assumption.
Qed.

Lemma match_nodes_complete :
  forall ic re ts rest whole caps,
    Forall2 (fun n t => piece_ok ic (piece_of n) t) re ts ->
    match_nodes ic re (List.concat ts ++ rest) whole caps <> None.
Proof.
  intros ic re; induction re as [ | n re' IH]; intros ts rest whole caps H;
    inversion H as [ | ? t ? ts' Hp Hts]; subst; simpl.
  - discriminate.
  - rewrite <- app_assoc.
    destruct n as [p | p]; apply piece_match_complete;
      try exact Hp; apply IH; exact Hts.
Qed.

(** A text in which the pattern has a match somewhere is matched by
    [exec]. *)
Lemma exec_complete :
  forall rx str before ts after,
    list_ascii_of_string str = before ++ List.concat ts ++ after ->
    accepts rx ts ->
    exec rx str <> None.
Proof.
  intros rx str before ts after Hs Hts; unfold exec. rewrite Hs; clear Hs.
  induction before as [ | c b IH]; simpl.
  - assert (H := @match_nodes_complete (ignoreCase rx) (nodes rx) ts after
                   [] [] Hts).
    assert (H' : forall s,
               match_here rx s <> None -> search rx s <> None).
    { intros s Hs. destruct s; simpl;
        destruct (match_here rx _); try discriminate; contradiction. }
    apply H'. exact H.
  - destruct (match_here rx (c :: b ++ List.concat ts ++ after));
      [discriminate | exact IH].
Qed.

(** The entries of a match array are strings. *)
Lemma group_texts_strings :
  forall ns ts, Forall (fun v => exists s, v = VStr s) (group_texts ns ts).
Proof.
  induction ns as [ | n ns IH]; intros ts; simpl; [constructor | ].
  destruct n, ts; try constructor; eauto.
Qed.

Lemma exec_in_range :
  forall rx str m k,
    exec rx str = Some m -> (k <=? groups rx)%nat = true ->
    exists s, m.[k] = VStr s.
Proof.
  intros rx str m k H Hk.
  assert (Hl := exec_length _ _ H).
  apply exec_sound in H. destruct H as [b [ts [a [_ [_ ->]]]]].
  assert (HF : Forall (fun v => exists s, v = VStr s)
                 (VStr (string_of_list_ascii (List.concat ts))
                  :: group_texts (nodes rx) ts)).
  { constructor; [eauto | apply group_texts_strings]. }
  rewrite Forall_forall in HF. apply HF. unfold at_index.
  apply nth_In. rewrite Hl. apply Nat.leb_le in Hk. lia.
Qed.

Lemma exec_past_end :
  forall rx str m k,
    exec rx str = Some m -> (groups rx <? k)%nat = true -> m.[k] = VUndef.
Proof.
  intros rx str m k H Hk. unfold at_index. apply nth_overflow.
  rewrite (exec_length _ _ H). apply Nat.ltb_lt in Hk. lia.
Qed.

(** ** The value of an entry, by mode *)

(** The text of a group is a string. *)
Lemma decoded_text :
  forall g line f, decoded g line f -> exists t, value f = VStr t.
Proof.
  intros g line f [rx [m [k [_ [Hm [[_ Hk] ->]]]]]].
  apply (@exec_in_range rx line m k Hm). apply Nat.leb_le. exact Hk.
Qed.

(** What is read past the groups is [undefined]. *)
Lemma past_the_groups_undefined :
  forall g line f, past_the_groups g line f -> value f = VUndef.
Proof.
  intros g line f [rx [m [k [_ [Hm [Hk ->]]]]]].
  apply (@exec_past_end rx line m k Hm). apply Nat.ltb_lt. exact Hk.
Qed.

(** C4: the values of an entry, by mode.  An entry the extractor builds in
    restore mode has the empty string as [origValue], an entry it builds in
    live mode has [origValue] equal to [value]; so after the file-restore
    callback every entry has an empty [origValue], and after a batch of the
    log feed every entry that was not there before has [origValue] equal to
    [value].  In both modes [value] is read in the match array at an index
    from 1 on: it is the text of a group of the pattern, a string, unless
    the index lies past the groups of the pattern, where it is
    [undefined].  The latter happens: restoring the line
    "echo:  M900 K0.22" under the patterns the constructor assigns builds
    the entry 'M900 R' with the value [undefined], which is the text of a
    group for no patterns and no line. *)
Theorem entry_values_by_mode :
  (forall line self s,
     exists new,
       data (eepromFieldParse line true self) s = data self s ++ new /\
       Forall (fun f =>
                 origValue f = VStr "" /\
                 (decoded (re self) line f /\ (exists t, value f = VStr t) \/
                  past_the_groups (re self) line f /\ value f = VUndef))
         new) /\
  (forall line self s,
     exists new,
       data (eepromFieldParse line false self) s = data self s ++ new /\
       Forall (fun f =>
                 origValue f = value f /\
                 (decoded (re self) line f /\ (exists t, value f = VStr t) \/
                  past_the_groups (re self) line f /\ value f = VUndef))
         new) /\
  (forall result self s,
     Forall (fun f => origValue f = VStr "")
       (data (handleFileSelect_onload result self) s)) /\
  (forall now logs self s,
     Forall (fun f => In f (data self s) \/ origValue f = value f)
       (data (fromCurrentData now logs self) s)) /\
  (let ratio := {| dataType := "M900 R"; label := "Linear Ratio";
                   origValue := VStr ""; value := VUndef;
                   unit_ := "mm"; description := "" |} in
   data (handleFileSelect_onload "echo:  M900 K0.22" (initial false))
     eepromDataLinear =
   [{| dataType := "M900 K"; label := "Linear Advance K";
       origValue := VStr ""; value := VStr "0.22";
       unit_ := "mm"; description := "" |};
    ratio] /\
   forall g line, ~ decoded g line ratio).
Proof.
  assert (Hv : forall g line f,
             decoded g line f \/ past_the_groups g line f ->
             decoded g line f /\ (exists t, value f = VStr t) \/
             past_the_groups g line f /\ value f = VUndef).
  { intros g line f [H | H].
    - left. split; [exact H | exact (decoded_text H)].
    - right. split; [exact H | exact (past_the_groups_undefined H)]. }
  split; [ | split; [ | split; [ | split]]].
  - intros line self s.
    destruct (appended_after_acknowledge line self
                (eepromFieldParse_restore line self) s) as [new [E Hn]].
    exists new. split; [exact E | ].
    revert Hn; apply Forall_impl. intros f [Ho Hd].
    split; [exact Ho | exact (Hv _ _ _ Hd)].
  - intros line self s.
    destruct (appended_after_acknowledge line self
                (eepromFieldParse_live line self) s) as [new [E Hn]].
    exists new. split; [exact E | ].
    revert Hn; apply Forall_impl. intros f [Ho Hd].
    split; [exact Ho | exact (Hv _ _ _ Hd)].
  - exact handleFileSelect_onload_cleared.
  - exact fromCurrentData_original.
  - cbv zeta. split; [vm_compute; reflexivity | ].
    intros g line H. destruct (decoded_text H) as [t Ht].
    discriminate Ht.
Qed.

(** ** What the extractor leaves alone *)

(** Every property of [self] but the arrays. *)
Ltac same_but_data H :=
  unfold only_data in H; rewrite H; reflexivity.

(** The extractor changes the arrays and the timers and nothing else, it
    only appends to the arrays, and it adds at most the one timer of the
    acknowledgement. *)
Lemma eepromFieldParse_rest :
  forall line restoreBackup self,
    let after := eepromFieldParse line restoreBackup self in
    re after = re self /\
    execBackup after = execBackup self /\
    startBackup after = startBackup self /\
    backupConfig after = backupConfig self /\
    stateControls after = stateControls self /\
    FIRMWARE_NAME after = FIRMWARE_NAME self /\
    FIRMWARE_INFO after = FIRMWARE_INFO self /\
    isMarlinFirmware after = isMarlinFirmware self /\
    isPrinting after = isPrinting self /\
    hasChangedEepromForm after = hasChangedEepromForm self /\
    sent after = sent self /\
    downloads after = downloads self /\
    (timers after = timers self \/ timers after = timers self ++ [reenable]) /\
    forall s, exists new, data after s = data self s ++ new.
Proof.
  intros line rb self after.
  assert (H := eepromFieldParse_only_data line rb self). fold after in H.
  unfold only_data in H.
  assert (A : forall (T : Type) (p : VM -> T),
             (forall x d, p (set_data x d) = p x) ->
             (forall x t, p (set_timers x t) = p x) ->
             p after = p self).
  { intros T p Hd Ht. rewrite H, Hd. unfold acknowledge, setTimeout.
    destruct (exec _ line); [apply Ht | reflexivity]. }
  repeat (split; [apply A; reflexivity | ]).
  split.
  - unfold after; rewrite eepromFieldParse_timers.
    destruct (exec _ line); [right; reflexivity | left; apply app_nil_r].
  - intros s. destruct rb.
    + destruct (appended_after_acknowledge line self
                  (eepromFieldParse_restore line self) s) as [new [E _]].
      exists new; exact E.
    + destruct (appended_after_acknowledge line self
                  (eepromFieldParse_live line self) s) as [new [E _]].
      exists new; exact E.
Qed.

(** ** The properties a handler can change *)

Lemma same_except_refl : forall l a, same_except l a a.
Proof. intros l a; unfold same_except; repeat split; right; reflexivity. Qed.

Lemma same_except_trans :
  forall l a b c, same_except l a b -> same_except l b c -> same_except l a c.
Proof.
  unfold same_except; intros l a b c Hab Hbc.
  repeat match goal with H : _ /\ _ |- _ => destruct H end.
  repeat split;
    match goal with
    | H1 : In ?p l \/ ?f b = ?f a, H2 : In ?p l \/ ?f c = ?f b
      |- In ?p l \/ ?f c = ?f a =>
        destruct H1 as [H1 | H1]; [left; exact H1 | ];
        destruct H2 as [H2 | H2]; [left; exact H2 | ];
        right; rewrite H2; exact H1
    end.
Qed.

Lemma same_except_weaken :
  forall l l' a b,
    (forall p, In p l -> In p l') -> same_except l a b -> same_except l' a b.
Proof.
  unfold same_except; intros l l' a b Hl H.
  repeat match goal with H : _ /\ _ |- _ => destruct H end.
  repeat split;
    match goal with
    | H1 : In ?p l \/ ?e |- In ?p l' \/ ?e =>
        destruct H1 as [H1 | H1]; [left; apply Hl; exact H1 | right; exact H1]
    end.
Qed.

Lemma changes_seq :
  forall l F G, changes l F -> changes l G -> changes l (F ;; G).
Proof.
  intros l F G HF HG self. apply same_except_trans with (b := F self); [apply HF | apply HG].
Qed.

Lemma changes_weaken :
  forall l l' F,
    (forall p, In p l -> In p l') -> changes l F -> changes l' F.
Proof. intros l l' F Hl H self; apply same_except_weaken with (l := l); [exact Hl | apply H]. Qed.

Lemma changes_each :
  forall (A : Type) l (xs : list A) (f : A -> VM -> VM),
    (forall x, changes l (f x)) -> changes l (each xs f).
Proof.
  intros A l xs f Hf. induction xs as [ | x xs IH]; intros self.
  - apply same_except_refl.
  - rewrite each_cons. apply same_except_trans with (b := f x self); [apply Hf | apply IH].
Qed.

Lemma changes_if :
  forall l (c : VM -> bool) (F G : VM -> VM),
    changes l F -> changes l G ->
    changes l (fun self => if c self then F self else G self).
Proof. intros l c F G HF HG self; destruct (c self); [apply HF | apply HG]. Qed.

Lemma changes_option :
  forall (A : Type) l (o : VM -> option A) (F : A -> VM -> VM) (G : VM -> VM),
    (forall a, changes l (F a)) -> changes l G ->
    changes l (fun self =>
                 match o self with Some a => F a self | None => G self end).
Proof.
  intros A l o F G HF HG self; destruct (o self); [apply HF | apply HG].
Qed.

(** A statement that assigns properties of [l] only. *)
Ltac assigns :=
  let self := fresh "self" in
  intros self; unfold same_except;
  repeat split;
  first [ right; reflexivity | left; simpl; tauto ].

Lemma changes_setControls :
  forall l b, In P_stateControls l -> changes l (setControls b).
Proof.
  intros l b Hl self. unfold setControls.
  destruct (negb _); [ | apply same_except_refl].
  unfold same_except; repeat split;
    first [right; reflexivity | left; exact Hl].
Qed.

Lemma changes_clear : forall l s, In P_data l -> changes l (clear s).
Proof.
  intros l s Hl self. unfold same_except; repeat split;
    first [right; reflexivity | left; exact Hl].
Qed.

Lemma changes_reset_arrays : forall l, In P_data l -> changes l reset_arrays.
Proof.
  intros l Hl. unfold reset_arrays.
  repeat first [apply changes_seq | apply changes_clear; exact Hl].
Qed.

Lemma changes_sendCustomCommand :
  forall l cmd, In P_sent l -> changes l (sendCustomCommand cmd).
Proof.
  intros l cmd Hl self. unfold same_except; repeat split;
    first [right; reflexivity | left; exact Hl].
Qed.

Lemma changes__requestEepromData :
  forall l, In P_sent l -> changes l _requestEepromData.
Proof.
  intros l Hl self. unfold _requestEepromData.
  destruct (negb _); [ | apply same_except_refl].
  apply changes_seq; apply changes_sendCustomCommand; exact Hl.
Qed.

Lemma changes_eepromFieldParse :
  forall l line restoreBackup,
    In P_data l -> In P_timers l ->
    changes l (eepromFieldParse line restoreBackup).
Proof.
  intros l line rb Hd Ht self.
  destruct (eepromFieldParse_rest line rb self)
    as [? [? [? [? [? [? [? [? [? [? [? [? _]]]]]]]]]]]].
  unfold same_except; repeat split;
    first [right; assumption | left; assumption].
Qed.

Lemma changes_save_arrays :
  forall l, In P_data l -> In P_sent l -> changes l save_arrays.
Proof.
  intros l Hd Hs self. rewrite save_arrays_rest.
  unfold same_except; repeat split;
    first [right; reflexivity | left; assumption].
Qed.

Ltac in_list := simpl; tauto.

Lemma changes_loadEeprom :
  forall l,
    In P_stateControls l -> In P_data l -> In P_sent l ->
    In P_hasChangedEepromForm l ->
    changes l loadEeprom.
Proof.
  intros l H1 H2 H3 H4. unfold loadEeprom.
  apply changes_seq; [apply changes_setControls; exact H1 | ].
  apply changes_seq; [apply changes_reset_arrays; exact H2 | ].
  apply changes_seq; [apply changes__requestEepromData; exact H3 | ].
  intros self; unfold same_except; repeat split;
    first [right; reflexivity | left; assumption].
Qed.

Lemma changes_setRegExVars :
  forall l version, In P_re l -> changes l (setRegExVars version).
Proof.
  intros l version Hl self. unfold same_except; repeat split;
    first [right; reflexivity | left; exact Hl].
Qed.

Lemma changes_backupEeprom :
  forall l,
    In P_stateControls l -> In P_execBackup l -> In P_backupConfig l ->
    In P_data l -> In P_sent l ->
    changes l backupEeprom.
Proof.
  intros l H1 H2 H3 H4 H5. unfold backupEeprom.
  apply changes_seq; [apply changes_setControls; exact H1 | ].
  apply changes_seq;
    [intros self; unfold same_except; repeat split;
     first [right; reflexivity | left; assumption] | ].
  apply changes_seq;
    [intros self; unfold same_except; repeat split;
     first [right; reflexivity | left; assumption] | ].
  apply changes_seq; [apply changes_reset_arrays; exact H4 | ].
  apply changes__requestEepromData; exact H5.
Qed.

Lemma changes_saveEeprom :
  forall l,
    In P_stateControls l -> In P_data l -> In P_sent l ->
    In P_hasChangedEepromForm l ->
    changes l saveEeprom.
Proof.
  intros l H1 H2 H3 H4. unfold saveEeprom. cbv zeta.
  apply changes_seq; [apply changes_setControls; exact H1 | ].
  apply changes_seq; [apply changes_save_arrays; assumption | ].
  apply changes_seq; [apply changes_sendCustomCommand; exact H3 | ].
  apply changes_seq;
    [intros self; unfold same_except; repeat split;
     first [right; reflexivity | left; assumption] | ].
  apply changes_seq; [apply changes_sendCustomCommand; exact H3 | ].
  apply changes_loadEeprom; assumption.
Qed.

Lemma changes_resetEeprom_onproceed :
  forall l,
    In P_stateControls l -> In P_data l -> In P_sent l ->
    In P_hasChangedEepromForm l ->
    changes l resetEeprom_onproceed.
Proof.
  intros l H1 H2 H3 H4. unfold resetEeprom_onproceed.
  apply changes_seq; [apply changes_setControls; exact H1 | ].
  apply changes_seq; [apply changes_sendCustomCommand; exact H3 | ].
  apply changes_seq; [apply changes_sendCustomCommand; exact H3 | ].
  apply changes_seq; [apply changes_sendCustomCommand; exact H3 | ].
  apply changes_loadEeprom; assumption.
Qed.

Lemma changes_handleFileSelect_onload :
  forall l result,
    In P_stateControls l -> In P_backupConfig l -> In P_data l ->
    In P_timers l ->
    changes l (handleFileSelect_onload result).
Proof.
  intros l result H1 H2 H3 H4. unfold handleFileSelect_onload.
  apply changes_seq; [apply changes_setControls; exact H1 | ].
  apply changes_seq;
    [intros self; unfold same_except; repeat split;
     first [right; reflexivity | left; assumption] | ].
  apply changes_seq; [apply changes_reset_arrays; exact H3 | ].
  intros self. generalize (split_lines (backupConfig self)); intros lines.
  apply changes_each. intros line. apply changes_eepromFieldParse; assumption.
Qed.

Lemma changes_write_isMarlinFirmware :
  forall l b,
    In P_isMarlinFirmware l ->
    In P_stateControls l -> In P_data l -> In P_sent l ->
    In P_hasChangedEepromForm l ->
    changes l (write_isMarlinFirmware b).
Proof.
  intros l b H0 H1 H2 H3 H4 self. unfold write_isMarlinFirmware.
  destruct (Bool.eqb _ _); [apply same_except_refl | ].
  apply same_except_trans with (b := set_isMarlinFirmware self b).
  - unfold same_except; repeat split;
      first [right; reflexivity | left; assumption].
  - apply changes_loadEeprom; assumption.
Qed.

Lemma changes__requestFirmwareInfo :
  forall l, In P_sent l -> changes l _requestFirmwareInfo.
Proof.
  intros l Hl self. unfold _requestFirmwareInfo.
  destruct (negb _); [ | apply same_except_refl].
  apply changes_sendCustomCommand; exact Hl.
Qed.

Lemma changes_detect_firmware :
  forall l line,
    In P_FIRMWARE_NAME l -> In P_FIRMWARE_INFO l -> In P_re l ->
    In P_isMarlinFirmware l ->
    In P_stateControls l -> In P_data l -> In P_sent l ->
    In P_hasChangedEepromForm l ->
    changes l (detect_firmware line).
Proof.
  intros l line Hn Hi Hr Hm H1 H2 H3 H4. unfold detect_firmware.
  apply changes_seq.
  - intros self. destruct (exec Lit.firmware line) as [m | ];
      [ | apply same_except_refl].
    revert self.
    apply changes_seq;
      [intros self; unfold same_except; repeat split;
       first [right; reflexivity | left; assumption] | ].
    apply changes_seq;
      [intros self; unfold same_except; repeat split;
       first [right; reflexivity | left; assumption] | ].
    apply changes_seq;
      [intros self; apply changes_setRegExVars; exact Hr | ].
    intros self. destruct (exec Lit.marlin _); [ | apply same_except_refl].
    apply changes_write_isMarlinFirmware; assumption.
  - intros self. destruct (exec Lit.firmwareCap line);
      [ | apply same_except_refl].
    unfold same_except; repeat split;
      first [right; reflexivity | left; assumption].
Qed.

Lemma changes_detect_firmware_history :
  forall l line,
    In P_FIRMWARE_NAME l -> In P_FIRMWARE_INFO l -> In P_re l ->
    In P_isMarlinFirmware l ->
    In P_stateControls l -> In P_data l -> In P_sent l ->
    In P_hasChangedEepromForm l ->
    changes l (detect_firmware_history line).
Proof.
  intros l line Hn Hi Hr Hm H1 H2 H3 H4. unfold detect_firmware_history.
  apply changes_seq.
  - intros self. destruct (exec Lit.firmware line) as [m | ];
      [ | apply same_except_refl].
    revert self.
    apply changes_seq;
      [intros self; unfold same_except; repeat split;
       first [right; reflexivity | left; assumption] | ].
    apply changes_seq;
      [intros self; unfold same_except; repeat split;
       first [right; reflexivity | left; assumption] | ].
    apply changes_seq;
      [intros self; apply changes_setRegExVars; exact Hr | ].
    intros self. destruct (exec Lit.marlin _); [ | apply same_except_refl].
    apply changes_write_isMarlinFirmware; assumption.
  - intros self. destruct (exec Lit.firmwareCap line);
      [ | apply same_except_refl].
    unfold same_except; repeat split;
      first [right; reflexivity | left; assumption].
Qed.

Lemma changes_finish_backup :
  forall l now,
    In P_execBackup l -> In P_backupConfig l -> In P_downloads l ->
    In P_timers l ->
    changes l (finish_backup now).
Proof.
  intros l now H1 H2 H3 H4. unfold finish_backup.
  repeat (apply changes_seq;
    [intros self; unfold same_except; repeat split;
     first [right; reflexivity | left; assumption] | ]).
  intros self; unfold same_except; repeat split;
     first [right; reflexivity | left; assumption].
Qed.

Lemma changes_capture_backup :
  forall l now logs,
    In P_startBackup l ->
    In P_execBackup l -> In P_backupConfig l -> In P_downloads l ->
    In P_timers l ->
    changes l (capture_backup now logs).
Proof.
  intros l now logs H0 H1 H2 H3 H4. unfold capture_backup.
  apply changes_seq.
  - intros self. destruct (exec _ _); [ | apply same_except_refl].
    unfold same_except; repeat split;
      first [right; reflexivity | left; assumption].
  - intros self. destruct (_ && _); [ | apply same_except_refl].
    revert self. apply changes_seq.
    + intros self; unfold same_except; repeat split;
        first [right; reflexivity | left; assumption].
    + intros self. cbv zeta.
      destruct (exec (eepromM851RegEx (re self)) (backupConfig self));
        destruct (exec (eepromOKRegEx (re self)) (backupConfig self));
        first [apply same_except_refl | apply changes_finish_backup; assumption].
Qed.

(** ** Reading a property that a handler does not change *)

Ltac not_listed :=
  let H := fresh in intros H; simpl in H; intuition discriminate.

Lemma kept_re :
  forall l a b,
    same_except l a b -> ~ In P_re l -> re b = re a.
Proof.
  unfold same_except; intros l a b H Hn.
  repeat match goal with H : _ /\ _ |- _ => destruct H end.
  match goal with
  | Hx : In P_re l \/ _ |- _ => destruct Hx as [Hx | Hx]; [contradiction | exact Hx]
  end.
Qed.

Lemma kept_execBackup :
  forall l a b,
    same_except l a b -> ~ In P_execBackup l -> execBackup b = execBackup a.
Proof.
  unfold same_except; intros l a b H Hn.
  repeat match goal with H : _ /\ _ |- _ => destruct H end.
  match goal with
  | Hx : In P_execBackup l \/ _ |- _ => destruct Hx as [Hx | Hx]; [contradiction | exact Hx]
  end.
Qed.

Lemma kept_startBackup :
  forall l a b,
    same_except l a b -> ~ In P_startBackup l -> startBackup b = startBackup a.
Proof.
  unfold same_except; intros l a b H Hn.
  repeat match goal with H : _ /\ _ |- _ => destruct H end.
  match goal with
  | Hx : In P_startBackup l \/ _ |- _ => destruct Hx as [Hx | Hx]; [contradiction | exact Hx]
  end.
Qed.

Lemma kept_backupConfig :
  forall l a b,
    same_except l a b -> ~ In P_backupConfig l -> backupConfig b = backupConfig a.
Proof.
  unfold same_except; intros l a b H Hn.
  repeat match goal with H : _ /\ _ |- _ => destruct H end.
  match goal with
  | Hx : In P_backupConfig l \/ _ |- _ => destruct Hx as [Hx | Hx]; [contradiction | exact Hx]
  end.
Qed.

Lemma kept_stateControls :
  forall l a b,
    same_except l a b -> ~ In P_stateControls l -> stateControls b = stateControls a.
Proof.
  unfold same_except; intros l a b H Hn.
  repeat match goal with H : _ /\ _ |- _ => destruct H end.
  match goal with
  | Hx : In P_stateControls l \/ _ |- _ => destruct Hx as [Hx | Hx]; [contradiction | exact Hx]
  end.
Qed.

Lemma kept_FIRMWARE_NAME :
  forall l a b,
    same_except l a b -> ~ In P_FIRMWARE_NAME l -> FIRMWARE_NAME b = FIRMWARE_NAME a.
Proof.
  unfold same_except; intros l a b H Hn.
  repeat match goal with H : _ /\ _ |- _ => destruct H end.
  match goal with
  | Hx : In P_FIRMWARE_NAME l \/ _ |- _ => destruct Hx as [Hx | Hx]; [contradiction | exact Hx]
  end.
Qed.

Lemma kept_FIRMWARE_INFO :
  forall l a b,
    same_except l a b -> ~ In P_FIRMWARE_INFO l -> FIRMWARE_INFO b = FIRMWARE_INFO a.
Proof.
  unfold same_except; intros l a b H Hn.
  repeat match goal with H : _ /\ _ |- _ => destruct H end.
  match goal with
  | Hx : In P_FIRMWARE_INFO l \/ _ |- _ => destruct Hx as [Hx | Hx]; [contradiction | exact Hx]
  end.
Qed.

Lemma kept_isMarlinFirmware :
  forall l a b,
    same_except l a b -> ~ In P_isMarlinFirmware l -> isMarlinFirmware b = isMarlinFirmware a.
Proof.
  unfold same_except; intros l a b H Hn.
  repeat match goal with H : _ /\ _ |- _ => destruct H end.
  match goal with
  | Hx : In P_isMarlinFirmware l \/ _ |- _ => destruct Hx as [Hx | Hx]; [contradiction | exact Hx]
  end.
Qed.

Lemma kept_isPrinting :
  forall l a b,
    same_except l a b -> ~ In P_isPrinting l -> isPrinting b = isPrinting a.
Proof.
  unfold same_except; intros l a b H Hn.
  repeat match goal with H : _ /\ _ |- _ => destruct H end.
  match goal with
  | Hx : In P_isPrinting l \/ _ |- _ => destruct Hx as [Hx | Hx]; [contradiction | exact Hx]
  end.
Qed.

Lemma kept_hasChangedEepromForm :
  forall l a b,
    same_except l a b -> ~ In P_hasChangedEepromForm l -> hasChangedEepromForm b = hasChangedEepromForm a.
Proof.
  unfold same_except; intros l a b H Hn.
  repeat match goal with H : _ /\ _ |- _ => destruct H end.
  match goal with
  | Hx : In P_hasChangedEepromForm l \/ _ |- _ => destruct Hx as [Hx | Hx]; [contradiction | exact Hx]
  end.
Qed.

Lemma kept_data :
  forall l a b,
    same_except l a b -> ~ In P_data l -> data b = data a.
Proof.
  unfold same_except; intros l a b H Hn.
  repeat match goal with H : _ /\ _ |- _ => destruct H end.
  match goal with
  | Hx : In P_data l \/ _ |- _ => destruct Hx as [Hx | Hx]; [contradiction | exact Hx]
  end.
Qed.

Lemma kept_sent :
  forall l a b,
    same_except l a b -> ~ In P_sent l -> sent b = sent a.
Proof.
  unfold same_except; intros l a b H Hn.
  repeat match goal with H : _ /\ _ |- _ => destruct H end.
  match goal with
  | Hx : In P_sent l \/ _ |- _ => destruct Hx as [Hx | Hx]; [contradiction | exact Hx]
  end.
Qed.

Lemma kept_timers :
  forall l a b,
    same_except l a b -> ~ In P_timers l -> timers b = timers a.
Proof.
  unfold same_except; intros l a b H Hn.
  repeat match goal with H : _ /\ _ |- _ => destruct H end.
  match goal with
  | Hx : In P_timers l \/ _ |- _ => destruct Hx as [Hx | Hx]; [contradiction | exact Hx]
  end.
Qed.

Lemma kept_downloads :
  forall l a b,
    same_except l a b -> ~ In P_downloads l -> downloads b = downloads a.
Proof.
  unfold same_except; intros l a b H Hn.
  repeat match goal with H : _ /\ _ |- _ => destruct H end.
  match goal with
  | Hx : In P_downloads l \/ _ |- _ => destruct Hx as [Hx | Hx]; [contradiction | exact Hx]
  end.
Qed.

(** ** The entry points and the properties they change *)

(** X1: what the entry points leave alone.  The extractor changes the
    arrays and the timers only; load, save and the confirmed reset change
    the controls, the arrays, the commands sent and the form flag; the
    backup button changes in addition the two session properties it sets
    and never the start marker; the restore callback sends nothing; the
    connection event only sends; the disconnection event and the historic
    log never touch a backup session, the timers or the downloads.  None of
    them changes [isPrinting]. *)
Theorem entry_points_change_only_their_properties :
  (forall line restoreBackup,
     changes [P_data; P_timers] (eepromFieldParse line restoreBackup)) /\
  changes [P_stateControls; P_data; P_sent; P_hasChangedEepromForm]
    loadEeprom /\
  changes [P_stateControls; P_execBackup; P_backupConfig; P_data; P_sent]
    backupEeprom /\
  changes [P_stateControls; P_data; P_sent; P_hasChangedEepromForm]
    saveEeprom /\
  changes [P_stateControls; P_data; P_sent; P_hasChangedEepromForm]
    resetEeprom_onproceed /\
  (forall result,
     changes [P_stateControls; P_backupConfig; P_data; P_timers]
       (handleFileSelect_onload result)) /\
  changes [P_sent] onEventConnected /\
  changes [P_isMarlinFirmware; P_stateControls; P_data; P_sent;
           P_hasChangedEepromForm] onEventDisconnected /\
  (forall logs,
     changes [P_FIRMWARE_NAME; P_FIRMWARE_INFO; P_re; P_isMarlinFirmware;
              P_stateControls; P_data; P_sent; P_hasChangedEepromForm]
       (fromHistoryData logs)).
Proof.
  split. { intros line rb. apply changes_eepromFieldParse; in_list. }
  split. { apply changes_loadEeprom; in_list. }
  split. { apply changes_backupEeprom; in_list. }
  split. { apply changes_saveEeprom; in_list. }
  split. { apply changes_resetEeprom_onproceed; in_list. }
  split. { intros result. apply changes_handleFileSelect_onload; in_list. }
  split. { apply changes__requestFirmwareInfo; in_list. }
  split. { apply changes_write_isMarlinFirmware; in_list. }
  intros logs. apply changes_each. intros line.
  apply changes_detect_firmware_history; in_list.
Qed.

Lemma fromCurrentData_other :
  forall now logs self,
    isMarlinFirmware self = false ->
    fromCurrentData now logs self =
    set_hasChangedEepromForm
      (each logs detect_firmware (set_hasChangedEepromForm self true))
      false.
Proof.
  intros now logs self H. unfold fromCurrentData, seq.
  assert (E : isMarlinFirmware (set_hasChangedEepromForm self true) = false)
    by exact H.
  rewrite E. reflexivity.
Qed.

Lemma changes_set_hasChangedEepromForm :
  forall l b,
    In P_hasChangedEepromForm l ->
    changes l (fun self => set_hasChangedEepromForm self b).
Proof.
  intros l b Hl self. unfold same_except; repeat split;
    first [right; reflexivity | left; exact Hl].
Qed.

Lemma fromCurrentData_changes :
  forall now logs self,
    same_except
      (if isMarlinFirmware self then
         [P_hasChangedEepromForm; P_startBackup; P_execBackup;
          P_backupConfig; P_downloads; P_timers; P_data]
       else
         [P_hasChangedEepromForm; P_FIRMWARE_NAME; P_FIRMWARE_INFO; P_re;
          P_isMarlinFirmware; P_stateControls; P_data; P_sent])
      self (fromCurrentData now logs self).
Proof.
  intros now logs self.
  destruct (isMarlinFirmware self) eqn:HM.
  - rewrite (fromCurrentData_marlin now logs self HM).
    match goal with
    | |- same_except ?l _ _ =>
        assert (H : changes l
                      ((fun self => set_hasChangedEepromForm self true) ;;
                       capture_backup now logs ;;
                       each logs (fun line => eepromFieldParse line false) ;;
                       (fun self => set_hasChangedEepromForm self false)))
    end.
    { apply changes_seq;
        [apply changes_set_hasChangedEepromForm; in_list | ].
      apply changes_seq; [apply changes_capture_backup; in_list | ].
      apply changes_seq;
        [ | apply changes_set_hasChangedEepromForm; in_list].
      apply changes_each; intros line.
      apply changes_eepromFieldParse; in_list. }
    exact (H self).
  - rewrite (fromCurrentData_other now logs self HM).
    match goal with
    | |- same_except ?l _ _ =>
        assert (H : changes l
                      ((fun self => set_hasChangedEepromForm self true) ;;
                       each logs detect_firmware ;;
                       (fun self => set_hasChangedEepromForm self false)))
    end.
    { apply changes_seq;
        [apply changes_set_hasChangedEepromForm; in_list | ].
      apply changes_seq;
        [ | apply changes_set_hasChangedEepromForm; in_list].
      apply changes_each; intros line.
      apply changes_detect_firmware; in_list. }
    exact (H self).
Qed.

(** X2: the log feed in its two modes.  Once the firmware is known to be
    Marlin a batch changes the backup session, the downloads, the timers,
    the arrays and the form flag: it sends nothing and leaves the controls,
    the firmware name and the patterns alone.  Before that a batch changes
    the identification, and through the load it triggers the controls, the
    arrays and the commands sent: it never reaches the extractor, so each
    array is what it was or empty, also when a line of the batch identifies
    a Marlin firmware and settings lines follow in the same batch. *)
Theorem feed_changes_by_mode :
  forall now logs self,
    let after := fromCurrentData now logs self in
    same_except
      (if isMarlinFirmware self then
         [P_hasChangedEepromForm; P_startBackup; P_execBackup;
          P_backupConfig; P_downloads; P_timers; P_data]
       else
         [P_hasChangedEepromForm; P_FIRMWARE_NAME; P_FIRMWARE_INFO; P_re;
          P_isMarlinFirmware; P_stateControls; P_data; P_sent])
      self after /\
    forall s,
      isMarlinFirmware self = true \/
      data after s = data self s \/ data after s = [].
Proof.
  intros now logs self after. unfold after; clear after.
  split; [apply fromCurrentData_changes | ].
  intros s. destruct (isMarlinFirmware self) eqn:HM; [left; reflexivity | ].
  right. rewrite (fromCurrentData_other now logs self HM).
  rewrite data_set_hasChangedEepromForm.
  destruct (each_detect_firmware_data logs
              (set_hasChangedEepromForm self true) s) as [-> | ->];
    [left; reflexivity | right; reflexivity].
Qed.

(** ** The buttons *)

Ltac changes_tac :=
  repeat
    match goal with
    | |- changes _ (_ ;; _) => apply changes_seq
    | |- changes _ (setControls _) => apply changes_setControls; in_list
    | |- changes _ reset_arrays => apply changes_reset_arrays; in_list
    | |- changes _ _requestEepromData =>
        apply changes__requestEepromData; in_list
    | |- changes _ (sendCustomCommand _) =>
        apply changes_sendCustomCommand; in_list
    | |- changes _ (fun self => set_hasChangedEepromForm self _) =>
        apply changes_set_hasChangedEepromForm; in_list
    | |- changes _ loadEeprom => apply changes_loadEeprom; in_list
    | |- changes _ save_arrays => apply changes_save_arrays; in_list
    end.

Lemma setControls_state :
  forall b self, stateControls (setControls b self) = b.
Proof.
  intros b self; unfold setControls.
  destruct (stateControls self) eqn:E, b; cbn [Bool.eqb negb];
    first [exact E | reflexivity].
Qed.

Lemma loadEeprom_stateControls :
  forall self, stateControls (loadEeprom self) = false.
Proof.
  intros self.
  assert (H : changes [P_data; P_sent; P_hasChangedEepromForm]
                (reset_arrays ;; _requestEepromData ;;
                 (fun self => set_hasChangedEepromForm self false)))
    by changes_tac.
  change (loadEeprom self)
    with ((reset_arrays ;; _requestEepromData ;;
           (fun self => set_hasChangedEepromForm self false))
            (setControls false self)).
  rewrite (kept_stateControls (H (setControls false self)))
    by not_listed.
  apply setControls_state.
Qed.

Lemma loadEeprom_hasChangedEepromForm :
  forall self, hasChangedEepromForm (loadEeprom self) = false.
Proof. reflexivity. Qed.

Lemma backupEeprom_stateControls :
  forall self, stateControls (backupEeprom self) = false.
Proof.
  intros self.
  assert (H : changes [P_execBackup; P_backupConfig; P_data; P_sent]
                ((fun self => set_execBackup self true) ;;
                 (fun self => set_backupConfig self "") ;;
                 reset_arrays ;; _requestEepromData)).
  { apply changes_seq; [assigns | ].
    apply changes_seq; [assigns | changes_tac]. }
  change (backupEeprom self)
    with (((fun self => set_execBackup self true) ;;
           (fun self => set_backupConfig self "") ;;
           reset_arrays ;; _requestEepromData)
            (setControls false self)).
  rewrite (kept_stateControls (H (setControls false self))) by not_listed.
  apply setControls_state.
Qed.

Lemma buttons_after_backup :
  forall self,
    execBackup (backupEeprom self) = true /\
    backupConfig (backupEeprom self) = "".
Proof.
  intros self. split.
  - assert (H : changes [P_backupConfig; P_data; P_sent]
                  ((fun self => set_backupConfig self "") ;;
                   reset_arrays ;; _requestEepromData)).
    { apply changes_seq; [assigns | changes_tac]. }
    change (backupEeprom self)
      with (((fun self => set_backupConfig self "") ;;
             reset_arrays ;; _requestEepromData)
              (set_execBackup (setControls false self) true)).
    rewrite (kept_execBackup
               (H (set_execBackup (setControls false self) true)))
      by not_listed.
    reflexivity.
  - assert (H : changes [P_data; P_sent]
                  (reset_arrays ;; _requestEepromData)) by changes_tac.
    change (backupEeprom self)
      with ((reset_arrays ;; _requestEepromData)
              (set_backupConfig
                 (set_execBackup (setControls false self) true) "")).
    rewrite (kept_backupConfig
               (H (set_backupConfig
                     (set_execBackup (setControls false self) true) "")))
      by not_listed.
    reflexivity.
Qed.

Lemma resetEeprom_onproceed_stateControls :
  forall self, stateControls (resetEeprom_onproceed self) = false.
Proof.
  intros self. unfold resetEeprom_onproceed, seq.
  apply loadEeprom_stateControls.
Qed.

(** X3: load, backup and the confirmed reset.  Each of them disables the
    controls and empties every array; a running print only keeps back the
    two requests of the load cycle, so the reset sends its three commands
    also while a print is running.  The backup button opens a session with
    an empty text and leaves the start marker as a former session left
    it. *)
Theorem buttons_disable_empty_and_request :
  forall self,
    let requests := if isPrinting self then [] else ["M504"; "M501"] in
    (stateControls (loadEeprom self) = false /\
     (forall s, data (loadEeprom self) s = []) /\
     sent (loadEeprom self) = sent self ++ requests /\
     hasChangedEepromForm (loadEeprom self) = false) /\
    (stateControls (backupEeprom self) = false /\
     (forall s, data (backupEeprom self) s = []) /\
     sent (backupEeprom self) = sent self ++ requests /\
     execBackup (backupEeprom self) = true /\
     backupConfig (backupEeprom self) = "" /\
     startBackup (backupEeprom self) = startBackup self) /\
    (stateControls (resetEeprom_onproceed self) = false /\
     (forall s, data (resetEeprom_onproceed self) s = []) /\
     sent (resetEeprom_onproceed self) =
     sent self ++ ["M502"; "M500"; "M504"] ++ requests /\
     hasChangedEepromForm (resetEeprom_onproceed self) = false).
Proof.
  intros self requests. unfold requests; clear requests.
  split; [ | split].
  - split; [apply loadEeprom_stateControls | ].
    split; [apply loadEeprom_data | ].
    split; [apply loadEeprom_sent | apply loadEeprom_hasChangedEepromForm].
  - split; [apply backupEeprom_stateControls | ].
    split.
    { intros s. unfold backupEeprom, seq.
      rewrite _requestEepromData_data. apply reset_arrays_data. }
    split.
    { unfold backupEeprom, seq.
      rewrite _requestEepromData_sent, reset_arrays_sent.
      rewrite reset_arrays_isPrinting.
      change (sent (set_backupConfig
                      (set_execBackup (setControls false self) true) ""))
        with (sent (setControls false self)).
      change (isPrinting (set_backupConfig
                      (set_execBackup (setControls false self) true) ""))
        with (isPrinting (setControls false self)).
      rewrite setControls_sent, setControls_isPrinting. reflexivity. }
    split; [apply buttons_after_backup | ].
    split; [apply buttons_after_backup | ].
    assert (H : changes [P_stateControls; P_execBackup; P_backupConfig;
                         P_data; P_sent] backupEeprom)
      by (apply changes_backupEeprom; in_list).
    apply (kept_startBackup (H self)). not_listed.
  - split; [apply resetEeprom_onproceed_stateControls | ].
    unfold resetEeprom_onproceed, seq.
    split; [apply loadEeprom_data | ].
    split; [ | apply loadEeprom_hasChangedEepromForm].
    rewrite loadEeprom_sent.
    rewrite !isPrinting_sendCustomCommand, !sent_sendCustomCommand.
    rewrite setControls_sent, setControls_isPrinting.
    rewrite <- !app_assoc. reflexivity.
Qed.

(** ** Restore from a file, and saving after it *)

Lemma each_restore :
  forall lines x s,
    let after := each lines (fun line => eepromFieldParse line true) x in
    timers after =
    timers x ++ map (fun _ => reenable) (filter (acknowledged (re x)) lines) /\
    exists new,
      data after s = data x s ++ new /\
      Forall (fun f => origValue f = VStr "" /\
                       exists line,
                         In line lines /\
                         (decoded (re x) line f \/
                          past_the_groups (re x) line f))
        new.
Proof.
  induction lines as [ | line lines IH]; intros x s; cbv zeta.
  - rewrite each_nil. split; [cbn [filter map]; rewrite app_nil_r; reflexivity | ].
    exists []; split; [rewrite app_nil_r; reflexivity | constructor].
  - rewrite each_cons.
    destruct (IH (eepromFieldParse line true x) s) as [Ht [new [Hd Hn]]].
    rewrite eepromFieldParse_re in Ht, Hn.
    split.
    + rewrite Ht, eepromFieldParse_timers, <- app_assoc.
      cbn [filter]. unfold acknowledged at 2.
      destruct (exec (eepromOKRegEx (re x)) line); reflexivity.
    + destruct (appended_after_acknowledge line x
                  (eepromFieldParse_restore line x) s)
        as [n1 [E1 H1]].
      exists (n1 ++ new); split.
      * rewrite Hd, E1, app_assoc; reflexivity.
      * apply Forall_app; split.
        -- revert H1; apply Forall_impl; intros f [Hf Hc].
           split; [exact Hf | ]. exists line; split; [left; reflexivity | exact Hc].
        -- revert Hn; apply Forall_impl; intros f [Hf [l [Hl Hc]]].
           split; [exact Hf | ]. exists l; split; [right; exact Hl | exact Hc].
Qed.

Lemma handleFileSelect_onload_each :
  forall result self,
    handleFileSelect_onload result self =
    each (split_lines result) (fun line => eepromFieldParse line true)
      (reset_arrays (set_backupConfig (setControls false self) result)).
Proof. reflexivity. Qed.

Lemma reset_arrays_only : changes [P_data] reset_arrays.
Proof. apply changes_reset_arrays; in_list. Qed.

Lemma setControls_only : forall b, changes [P_stateControls] (setControls b).
Proof. intros b; apply changes_setControls; in_list. Qed.

Lemma restore_start :
  forall result self,
    let x := reset_arrays (set_backupConfig (setControls false self) result) in
    re x = re self /\ timers x = timers self /\ forall s, data x s = [].
Proof.
  intros result self. cbv zeta. split; [ | split].
  - rewrite (kept_re (reset_arrays_only _)) by not_listed.
    cbn [re set_backupConfig].
    apply (kept_re (setControls_only false self)); not_listed.
  - rewrite (kept_timers (reset_arrays_only _)) by not_listed.
    cbn [timers set_backupConfig].
    apply (kept_timers (setControls_only false self)); not_listed.
  - intros s; apply reset_arrays_data.
Qed.

Lemma changes_handleFileSelect_onload_here :
  forall result,
    changes [P_stateControls; P_backupConfig; P_data; P_timers]
      (handleFileSelect_onload result).
Proof. intros result; apply changes_handleFileSelect_onload; in_list. Qed.

Lemma handleFileSelect_onload_stateControls :
  forall result self,
    stateControls (handleFileSelect_onload result self) = false.
Proof.
  intros result self.
  assert (H : changes [P_backupConfig; P_data; P_timers]
                ((fun self => set_backupConfig self result) ;;
                 reset_arrays ;;
                 (fun self =>
                    each (split_lines (backupConfig self))
                      (fun line => eepromFieldParse line true) self))).
  { apply changes_seq; [assigns | ].
    apply changes_seq; [apply changes_reset_arrays; in_list | ].
    intros x. generalize (split_lines (backupConfig x)); intros lines.
    apply changes_each; intros line.
    apply changes_eepromFieldParse; in_list. }
  change (handleFileSelect_onload result self)
    with (((fun self => set_backupConfig self result) ;;
           reset_arrays ;;
           (fun self =>
              each (split_lines (backupConfig self))
                (fun line => eepromFieldParse line true) self))
            (setControls false self)).
  rewrite (kept_stateControls (H (setControls false self))) by not_listed.
  apply setControls_state.
Qed.

Lemma handleFileSelect_onload_backupConfig :
  forall result self,
    backupConfig (handleFileSelect_onload result self) = result.
Proof.
  intros result self. rewrite handleFileSelect_onload_each.
  assert (H : changes [P_data; P_timers]
                (each (split_lines result)
                   (fun line => eepromFieldParse line true))).
  { apply changes_each; intros line.
    apply changes_eepromFieldParse; in_list. }
  rewrite (kept_backupConfig
             (H (reset_arrays
                   (set_backupConfig (setControls false self) result))))
    by not_listed.
  reflexivity.
Qed.

(** X4: the restore callback.  It disables the controls, keeps the text of
    the file in [backupConfig], sends nothing to the printer, and schedules
    one timer that re-enables the controls for every line of the file that
    passes the acknowledgement check, so none for a file without such a
    line.  Every entry of the arrays afterwards has an empty [origValue]
    and comes from a line of the file, under the patterns in place when the
    file was read: its [value] is the text of a group of one of the
    patterns on that line, a string, or it was read at an index past the
    groups of the pattern and is [undefined]. *)
Theorem restore_reads_the_file_and_sends_nothing :
  forall result self,
    let after := handleFileSelect_onload result self in
    stateControls after = false /\
    backupConfig after = result /\
    sent after = sent self /\
    timers after =
    timers self ++
    map (fun _ => reenable)
      (filter (acknowledged (re self)) (split_lines result)) /\
    forall s f,
      In f (data after s) ->
      origValue f = VStr "" /\
      exists line,
        In line (split_lines result) /\
        (decoded (re self) line f /\ (exists t, value f = VStr t) \/
         past_the_groups (re self) line f /\ value f = VUndef).
Proof.
  intros result self after. unfold after; clear after.
  split; [apply handleFileSelect_onload_stateControls | ].
  split; [apply handleFileSelect_onload_backupConfig | ].
  split.
  { apply (kept_sent (changes_handleFileSelect_onload_here result self)).
    not_listed. }
  destruct (restore_start result self) as [Hre [Ht Hd]].
  rewrite handleFileSelect_onload_each.
  split.
  - destruct (each_restore (split_lines result)
                (reset_arrays
                   (set_backupConfig (setControls false self) result))
                eepromData1) as [H _].
    rewrite H, Hre, Ht. reflexivity.
  - intros s f Hf.
    destruct (each_restore (split_lines result)
                (reset_arrays
                   (set_backupConfig (setControls false self) result))
                s) as [_ [new [E Hn]]].
    rewrite E, Hd in Hf. cbn [app] in Hf.
    rewrite Forall_forall in Hn. rewrite Hre in Hn.
    destruct (Hn f Hf) as [Ho [line [Hl Hv]]].
    split; [exact Ho | ]. exists line. split; [exact Hl | ].
    destruct Hv as [Hv | Hv].
    + left. split; [exact Hv | exact (decoded_text Hv)].
    + right. split; [exact Hv | exact (past_the_groups_undefined Hv)].
Qed.

Lemma loose_neq_empty :
  forall v, loose_neq (VStr "") v = negb (loose_eq v (VStr "")).
Proof.
  intros [ | s]; [reflexivity | ].
  unfold loose_neq, loose_eq. rewrite String.eqb_sym. reflexivity.
Qed.

(** X5: saving after a restore.  Every restored entry whose value is not
    the empty string is dirty, also one whose value is [undefined], so
    [saveEeprom] right after the restore callback sends one command for
    each of them, whatever the printer holds, then "M500", "M504" and the
    requests of the load cycle. *)
Theorem save_after_restore_sends_every_restored_value :
  forall result self,
    let restored := handleFileSelect_onload result self in
    (forall s f,
       In f (data restored s) -> (dirty f = true <-> value f <> VStr "")) /\
    sent (saveEeprom restored) =
    sent self ++
    map command_of
      (filter (fun f => negb (loose_eq (value f) (VStr "")))
         (entries restored)) ++
    ["M500"; "M504"] ++
    (if isPrinting self then [] else ["M504"; "M501"]).
Proof.
  intros result self restored.
  assert (Hc : forall s f, In f (data restored s) -> origValue f = VStr "").
  { intros s f Hf.
    pose proof (handleFileSelect_onload_cleared result self s) as H.
    rewrite Forall_forall in H. exact (H f Hf). }
  unfold restored in *; clear restored.
  split.
  - intros s f Hf. rewrite dirty_iff, (Hc s f Hf).
    split; intros H E; apply H; rewrite E; reflexivity.
  - rewrite saveEeprom_sent.
    rewrite (kept_sent (changes_handleFileSelect_onload_here result self))
      by not_listed.
    rewrite (kept_isPrinting
               (changes_handleFileSelect_onload_here result self))
      by not_listed.
    f_equal. f_equal. f_equal.
    unfold diff, entries. generalize array_order; intros l.
    induction l as [ | s l IH]; cbn [flat_map]; [reflexivity | ].
    rewrite filter_app, IH. f_equal.
    apply filter_ext_in. intros f Hf.
    unfold dirty. rewrite (Hc s f Hf). apply loose_neq_empty.
Qed.

(** ** The log feed keeps the arrays clean *)

Lemma diff_nil_iff :
  forall self,
    diff self = [] <-> forall s f, In f (data self s) -> dirty f = false.
Proof.
  intros self. split.
  - intros H s f Hf. destruct (dirty f) eqn:E; [ | reflexivity].
    assert (Hin : In f (diff self)).
    { apply in_diff. exists s; split; [exact Hf | ].
      apply dirty_iff; exact E. }
    rewrite H in Hin. contradiction.
  - intros H. destruct (diff self) as [ | f l] eqn:E; [reflexivity | ].
    assert (Hin : In f (diff self)) by (rewrite E; left; reflexivity).
    apply in_diff in Hin. destruct Hin as [s [Hf Hne]].
    apply dirty_iff in Hne. rewrite (H s f Hf) in Hne. discriminate.
Qed.

Lemma fromCurrentData_isPrinting :
  forall now logs self,
    isPrinting (fromCurrentData now logs self) = isPrinting self.
Proof.
  intros now logs self.
  pose proof (fromCurrentData_changes now logs self) as H.
  apply (kept_isPrinting H).
  destruct (isMarlinFirmware self); not_listed.
Qed.

(** X6: the log feed never makes an entry dirty.  If no entry is dirty
    before a batch, none is after it, in either mode of the feed; a
    [saveEeprom] that follows sends no parameter, only "M500", "M504" and
    the requests of the load cycle. *)
Theorem feed_keeps_the_arrays_clean :
  forall now logs self,
    diff self = [] ->
    let after := fromCurrentData now logs self in
    diff after = [] /\
    sent (saveEeprom after) =
    sent after ++ ["M500"; "M504"] ++
    (if isPrinting self then [] else ["M504"; "M501"]).
Proof.
  intros now logs self H after.
  assert (Hd : diff after = []).
  { apply diff_nil_iff. intros s f Hf.
    pose proof (fromCurrentData_original now logs self s) as Ho.
    rewrite Forall_forall in Ho. destruct (Ho f Hf) as [Hold | Heq].
    - rewrite diff_nil_iff in H. exact (H s f Hold).
    - destruct (dirty f) eqn:E; [ | reflexivity].
      apply dirty_iff in E. contradiction. }
  split; [exact Hd | ].
  rewrite saveEeprom_sent, Hd. unfold after.
  rewrite fromCurrentData_isPrinting. reflexivity.
Qed.

Lemma feed_keeps_the_arrays_clean_witness :
  diff sample_marlin = [] /\
  diff (fromCurrentData sample_now [M92_line] sample_marlin) = [] /\
  sent (saveEeprom (fromCurrentData sample_now [M92_line] sample_marlin)) =
  sent (fromCurrentData sample_now [M92_line] sample_marlin) ++
  ["M500"; "M504"] ++
  (if isPrinting sample_marlin then [] else ["M504"; "M501"]).
Proof.
  assert (H : diff sample_marlin = []) by (vm_compute; reflexivity).
  split; [exact H | ].
  exact (feed_keeps_the_arrays_clean sample_now [M92_line] sample_marlin H).
Defined.

(** ** One batch of a backup session *)

Lemma each_extract_session :
  forall logs self,
    let after := each logs (fun line => eepromFieldParse line false) self in
    startBackup after = startBackup self /\
    execBackup after = execBackup self /\
    backupConfig after = backupConfig self /\
    downloads after = downloads self.
Proof.
  intros logs self after.
  assert (H : changes [P_data; P_timers]
                (each logs (fun line => eepromFieldParse line false))).
  { apply changes_each; intros line.
    apply changes_eepromFieldParse; in_list. }
  split; [apply (kept_startBackup (H self)); not_listed | ].
  split; [apply (kept_execBackup (H self)); not_listed | ].
  split; [apply (kept_backupConfig (H self)); not_listed | ].
  apply (kept_downloads (H self)); not_listed.
Qed.

(** What [capture_backup] does to the session, case by case. *)
Lemma capture_backup_step :
  forall now logs self,
    execBackup self = true ->
    let after := capture_backup now logs self in
    let batch := String.concat "," logs in
    let text := (backupConfig self ++ batch ++ LF)%string in
    if startBackup self || matches (eepromM501RegEx (re self)) batch then
      startBackup after = true /\
      if matches (eepromM851RegEx (re self)) text
         || matches (eepromOKRegEx (re self)) text
      then
        execBackup after = false /\
        backupConfig after = tidy text /\
        exists name,
          downloads after =
          downloads self ++ [{| file_name := name; content := tidy text |}]
      else
        execBackup after = true /\
        backupConfig after = text /\
        downloads after = downloads self
    else
      startBackup after = false /\
      execBackup after = true /\
      backupConfig after = backupConfig self /\
      downloads after = downloads self.
Proof.
  intros now logs self He after batch text.
  unfold after, capture_backup, seq, matches. fold batch.
  set (x := match exec (eepromM501RegEx (re self)) batch with
            | Some _ => set_startBackup self true
            | None => self
            end).
  assert (Hx : re x = re self /\ execBackup x = true /\
               backupConfig x = backupConfig self /\
               downloads x = downloads self /\
               startBackup x =
               (startBackup self ||
                match exec (eepromM501RegEx (re self)) batch with
                | Some _ => true
                | None => false
                end)).
  { unfold x. destruct (exec (eepromM501RegEx (re self)) batch).
    - cbn [re execBackup backupConfig downloads startBackup set_startBackup].
      rewrite orb_true_r. repeat split; assumption.
    - rewrite orb_false_r. repeat split; assumption. }
  clearbody x. destruct Hx as [Hre [Hex [Hbc [Hdl Hsb]]]].
  rewrite Hex, Hsb. cbn [andb].
  destruct (startBackup self ||
            match exec (eepromM501RegEx (re self)) batch with
            | Some _ => true
            | None => false
            end) eqn:Hstart.
  - cbv beta zeta.
    set (y := set_backupConfig x (backupConfig x ++ batch ++ LF)).
    assert (Hy : re y = re self /\ backupConfig y = text /\
                 downloads y = downloads self /\ startBackup y = true /\
                 execBackup y = true).
    { unfold y.
      cbn [re backupConfig downloads startBackup execBackup
           set_backupConfig].
      rewrite Hbc. repeat split; assumption. }
    clearbody y. destruct Hy as [Yre [Ybc [Ydl [Ysb Yex]]]].
    rewrite Yre, Ybc.
    assert (Hf : startBackup (finish_backup now y) = true /\
                 execBackup (finish_backup now y) = false /\
                 backupConfig (finish_backup now y) = tidy text /\
                 exists name,
                   downloads (finish_backup now y) =
                   downloads self ++
                   [{| file_name := name; content := tidy text |}]).
    { unfold finish_backup, seq, setTimeout.
      cbn [startBackup execBackup backupConfig downloads set_timers
           set_downloads set_backupConfig set_execBackup].
      rewrite Ybc, Ydl. unfold tidy.
      split; [exact Ysb | split; [reflexivity | split; [reflexivity | ]]].
      eexists; reflexivity. }
    destruct Hf as [F1 F2].
    destruct (exec (eepromM851RegEx (re self)) text);
      destruct (exec (eepromOKRegEx (re self)) text); cbn [orb];
      try (split; [exact F1 | exact F2]).
    repeat split; assumption.
  - repeat split; assumption.
Qed.

(** X7: one batch of the log feed during a backup session.  Before the
    start marker has been seen, a batch without the marker is not kept.
    From the batch with the marker on, every batch is appended to the text
    of the session, its lines joined by commas and closed by a line feed;
    the session ends with the first batch after which the text matches the
    probe-offset pattern or passes the acknowledgement check, and the file
    offered for download then holds the text after its two replacements.
    The start marker stays set when the session ends. *)
Theorem backup_session_step :
  forall now logs self,
    isMarlinFirmware self = true ->
    execBackup self = true ->
    let after := fromCurrentData now logs self in
    let batch := String.concat "," logs in
    let text := (backupConfig self ++ batch ++ LF)%string in
    if startBackup self || matches (eepromM501RegEx (re self)) batch then
      startBackup after = true /\
      if matches (eepromM851RegEx (re self)) text
         || matches (eepromOKRegEx (re self)) text
      then
        execBackup after = false /\
        backupConfig after = tidy text /\
        exists name,
          downloads after =
          downloads self ++ [{| file_name := name; content := tidy text |}]
      else
        execBackup after = true /\
        backupConfig after = text /\
        downloads after = downloads self
    else
      startBackup after = false /\
      execBackup after = true /\
      backupConfig after = backupConfig self /\
      downloads after = downloads self.
Proof.
  intros now logs self HM He after batch text.
  unfold after. rewrite (fromCurrentData_marlin now logs self HM).
  cbn [startBackup execBackup backupConfig downloads
       set_hasChangedEepromForm].
  destruct (each_extract_session logs
              (capture_backup now logs (set_hasChangedEepromForm self true)))
    as [-> [-> [-> ->]]].
  exact (capture_backup_step now logs (set_hasChangedEepromForm self true) He).
Qed.

Lemma backup_session_step_witness :
  isMarlinFirmware sample_backup_session = true /\
  execBackup sample_backup_session = true /\
  startBackup
    (fromCurrentData sample_now sample_batch sample_backup_session) = true /\
  execBackup
    (fromCurrentData sample_now sample_batch sample_backup_session) = false.
Proof.
  assert (H1 : isMarlinFirmware sample_backup_session = true)
    by (vm_compute; reflexivity).
  assert (H2 : execBackup sample_backup_session = true)
    by (vm_compute; reflexivity).
  split; [exact H1 | split; [exact H2 | ]].
  pose proof (backup_session_step sample_now sample_batch
                sample_backup_session H1 H2) as H.
  cbv zeta in H.
  assert (C1 : startBackup sample_backup_session
               || matches (eepromM501RegEx (re sample_backup_session))
                    (String.concat "," sample_batch) = true)
    by (vm_compute; reflexivity).
  assert (C2 : matches (eepromM851RegEx (re sample_backup_session))
                 (backupConfig sample_backup_session ++
                  String.concat "," sample_batch ++ LF)
               || matches (eepromOKRegEx (re sample_backup_session))
                    (backupConfig sample_backup_session ++
                     String.concat "," sample_batch ++ LF) = true)
    by (vm_compute; reflexivity).
  rewrite C1, C2 in H. destruct H as [A [B _]]. split; [exact A | exact B].
Defined.

(** ** A backup session after a first one *)

(** X8: the start marker is asked for once.  No statement of the script
    clears [startBackup], so in a backup session that follows one whose
    marker was seen the first batch is kept whether or not it holds the
    marker: after the backup button and one batch, the text of the session
    is that batch, or the session has ended with that batch as its file. *)
Theorem later_session_needs_no_marker :
  forall now logs self,
    isMarlinFirmware self = true ->
    startBackup self = true ->
    let after := fromCurrentData now logs (backupEeprom self) in
    let text := (String.concat "," logs ++ LF)%string in
    (execBackup after = true /\ backupConfig after = text /\
     downloads after = downloads self) \/
    (execBackup after = false /\ backupConfig after = tidy text /\
     exists name,
       downloads after =
       downloads self ++ [{| file_name := name; content := tidy text |}]).
Proof.
  intros now logs self HM HS after text.
  assert (Hb : changes [P_stateControls; P_execBackup; P_backupConfig;
                        P_data; P_sent] backupEeprom)
    by (apply changes_backupEeprom; in_list).
  destruct (buttons_after_backup self) as [Be Bc].
  assert (BM : isMarlinFirmware (backupEeprom self) = true).
  { rewrite (kept_isMarlinFirmware (Hb self)) by not_listed. exact HM. }
  assert (BS : startBackup (backupEeprom self) = true).
  { rewrite (kept_startBackup (Hb self)) by not_listed. exact HS. }
  assert (BD : downloads (backupEeprom self) = downloads self).
  { apply (kept_downloads (Hb self)); not_listed. }
  unfold after; clear after Hb.
  revert Be Bc BM BS BD. generalize (backupEeprom self); intros b.
  intros Be Bc BM BS BD.
  rewrite (fromCurrentData_marlin now logs b BM).
  cbn [execBackup backupConfig downloads set_hasChangedEepromForm].
  destruct (each_extract_session logs
              (capture_backup now logs (set_hasChangedEepromForm b true)))
    as [_ [-> [-> ->]]].
  set (y := set_hasChangedEepromForm b true).
  assert (Hy : execBackup y = true /\ startBackup y = true /\
               backupConfig y = "" /\ downloads y = downloads self).
  { unfold y.
    cbn [execBackup startBackup backupConfig downloads
         set_hasChangedEepromForm].
    repeat split; assumption. }
  clearbody y. destruct Hy as [Ye [Ys [Yc Yd]]].
  pose proof (capture_backup_step now logs y Ye) as H.
  cbv zeta in H. rewrite Ys, Yc, Yd in H. cbn [orb] in H.
  change ("" ++ String.concat "," logs ++ LF)%string with text in H.
  destruct H as [_ H].
  destruct (matches (eepromM851RegEx (re y)) text
            || matches (eepromOKRegEx (re y)) text).
  - right. exact H.
  - left. exact H.
Qed.

Lemma later_session_needs_no_marker_witness :
  let self :=
    fromCurrentData sample_now sample_batch sample_backup_session in
  let after :=
    fromCurrentData sample_now ["Recv: echo:M92 X80"] (backupEeprom self) in
  isMarlinFirmware self = true /\
  startBackup self = true /\
  exec (eepromM501RegEx (re self)) "Recv: echo:M92 X80" = None /\
  ((execBackup after = true /\
    backupConfig after = ("Recv: echo:M92 X80" ++ LF)%string /\
    downloads after = downloads self) \/
   (execBackup after = false /\
    backupConfig after = tidy ("Recv: echo:M92 X80" ++ LF) /\
    exists name,
      downloads after =
      downloads self ++
      [{| file_name := name;
          content := tidy ("Recv: echo:M92 X80" ++ LF) |}])).
Proof.
  intros self after.
  assert (H1 : isMarlinFirmware self = true) by (vm_compute; reflexivity).
  assert (H2 : startBackup self = true) by (vm_compute; reflexivity).
  split; [exact H1 | split; [exact H2 | split; [vm_compute; reflexivity | ]]].
  exact (later_session_needs_no_marker sample_now ["Recv: echo:M92 X80"]
           self H1 H2).
Defined.

(** ** The firmware name *)

Lemma spaces_app :
  forall a b : string, spaces (a ++ b) = spaces a + spaces b.
Proof.
  intros a b. unfold spaces.
  rewrite list_ascii_of_string_app, filter_app, length_app. reflexivity.
Qed.

Lemma spaces_none :
  forall t,
    Forall (fun c => atom_match true (AClass true [CSpace]) c = true) t ->
    spaces (string_of_list_ascii t) = 0.
Proof.
  intros t H. unfold spaces. rewrite list_ascii_of_string_of_list_ascii.
  induction H as [ | c t Hc _ IH]; [reflexivity | ].
  cbn [filter]. cbn [atom_match existsb citem_match] in Hc.
  destruct (is_space c); [discriminate Hc | exact IH].
Qed.

(** The two captures of the firmware pattern hold no white space. *)
Lemma firmware_captures :
  forall line m,
    exec Lit.firmware line = Some m ->
    spaces (to_str m.[1] ++ " " ++ to_str m.[2]) = 1.
Proof.
  intros line m H. apply exec_sound in H.
  destruct H as [before [ts [after [_ [Hacc ->]]]]].
  unfold accepts in Hacc.
  cbn [nodes Lit.firmware lit list_ascii_of_string map app ignoreCase]
    in Hacc.
  repeat match goal with
         | H : Forall2 _ (_ :: _) _ |- _ =>
             inversion H; clear H; subst
         | H : Forall2 _ [] _ |- _ => inversion H; clear H; subst
         end.
  cbn [nodes Lit.firmware lit list_ascii_of_string map app group_texts
       at_index nth to_str].
  rewrite !spaces_app.
  repeat match goal with
         | H : piece_ok _ (piece_of (Group (Star _))) _ |- _ =>
             cbn [piece_ok piece_of] in H; rewrite (spaces_none H); clear H
         end.
  reflexivity.
Qed.

(** ** Identification of the firmware on one line *)

Lemma write_isMarlinFirmware_true :
  forall self,
    let after := write_isMarlinFirmware true self in
    isMarlinFirmware after = true /\
    if isMarlinFirmware self then after = self
    else
      same_except
        [P_isMarlinFirmware; P_stateControls; P_data; P_sent;
         P_hasChangedEepromForm] self after /\
      stateControls after = false /\
      (forall s, data after s = []) /\
      sent after =
      sent self ++ (if isPrinting self then [] else ["M504"; "M501"]).
Proof.
  intros self. cbv zeta. unfold write_isMarlinFirmware.
  destruct (isMarlinFirmware self) eqn:HM; cbn [Bool.eqb].
  - split; [exact HM | reflexivity].
  - assert (Hl : changes [P_stateControls; P_data; P_sent;
                          P_hasChangedEepromForm] loadEeprom)
      by (apply changes_loadEeprom; in_list).
    split.
    { rewrite (kept_isMarlinFirmware (Hl _)) by not_listed. reflexivity. }
    split.
    { apply same_except_trans with (b := set_isMarlinFirmware self true).
      - unfold same_except; repeat split;
          first [right; reflexivity | left; in_list].
      - apply changes_loadEeprom; in_list. }
    split; [apply loadEeprom_stateControls | ].
    split; [intros s; apply loadEeprom_data | ].
    rewrite loadEeprom_sent. reflexivity.
Qed.

(** The identification, for any way of recording the capabilities line. *)
Lemma identification_spec :
  forall (cap : VM -> VM) line self,
    changes [P_FIRMWARE_INFO] cap ->
    let after :=
      cap
        (match exec Lit.firmware line with
         | Some m =>
             ((fun self =>
                 set_FIRMWARE_NAME self
                   (to_str m.[1] ++ " " ++ to_str m.[2])%string) ;;
              (fun self =>
                 set_FIRMWARE_INFO self (remove_first "Recv: " line)) ;;
              (fun self => setRegExVars (FIRMWARE_NAME self) self) ;;
              (fun self =>
                 match exec Lit.marlin (to_str m.[0]) with
                 | Some _ => write_isMarlinFirmware true self
                 | None => self
                 end)) self
         | None => self
         end) in
    match exec Lit.firmware line with
    | Some m => identified m self after
    | None => same_except [P_FIRMWARE_INFO] self after
    end.
Proof.
  intros cap line self Hcap. cbv zeta.
  destruct (exec Lit.firmware line) as [m | ] eqn:Hm; [ | apply Hcap].
  unfold seq. cbn [FIRMWARE_NAME set_FIRMWARE_INFO set_FIRMWARE_NAME].
  set (name := (to_str m.[1] ++ " " ++ to_str m.[2])%string).
  set (x := setRegExVars name
              (set_FIRMWARE_INFO (set_FIRMWARE_NAME self name)
                 (remove_first "Recv: " line))).
  assert (Hx : same_except [P_FIRMWARE_NAME; P_FIRMWARE_INFO; P_re] self x).
  { unfold x. unfold same_except; repeat split;
      first [right; reflexivity | left; in_list]. }
  assert (Hn : FIRMWARE_NAME x = name) by reflexivity.
  assert (Hr : re x = re (setRegExVars name self)) by reflexivity.
  clearbody x.
  unfold identified. fold name.
  split; [ | split; [exact (firmware_captures line Hm) | split]].
  - rewrite (kept_FIRMWARE_NAME (Hcap _)) by not_listed.
    destruct (exec Lit.marlin (to_str m.[0])); [ | exact Hn].
    destruct (write_isMarlinFirmware_true x) as [_ H].
    destruct (isMarlinFirmware x).
    + rewrite H; exact Hn.
    + destruct H as [H _]. rewrite (kept_FIRMWARE_NAME H) by not_listed.
      exact Hn.
  - rewrite (kept_re (Hcap _)) by not_listed.
    destruct (exec Lit.marlin (to_str m.[0])); [ | exact Hr].
    destruct (write_isMarlinFirmware_true x) as [_ H].
    destruct (isMarlinFirmware x).
    + rewrite H; exact Hr.
    + destruct H as [H _]. rewrite (kept_re H) by not_listed. exact Hr.
  - unfold matches.
    assert (HM : isMarlinFirmware x = isMarlinFirmware self)
      by (apply (kept_isMarlinFirmware Hx); not_listed).
    assert (HP : isPrinting x = isPrinting self)
      by (apply (kept_isPrinting Hx); not_listed).
    assert (HS : sent x = sent self)
      by (apply (kept_sent Hx); not_listed).
    destruct (exec Lit.marlin (to_str m.[0])).
    + destruct (write_isMarlinFirmware_true x) as [Ht H].
      rewrite HM in H.
      split.
      { rewrite (kept_isMarlinFirmware (Hcap _)) by not_listed. exact Ht. }
      destruct (isMarlinFirmware self).
      * rewrite H.
        apply same_except_trans with (b := x); [exact Hx | ].
        apply same_except_weaken with (l := [P_FIRMWARE_INFO]);
          [in_list | apply Hcap].
      * destruct H as [Hw [Hc [Hd Hs]]].
        split; [ | split; [ | split]].
        -- apply same_except_trans with (b := x);
             [apply same_except_weaken
                with (l := [P_FIRMWARE_NAME; P_FIRMWARE_INFO; P_re]);
              [in_list | exact Hx] | ].
           apply same_except_trans with (b := write_isMarlinFirmware true x);
             [apply same_except_weaken
                with (l := [P_isMarlinFirmware; P_stateControls; P_data;
                            P_sent; P_hasChangedEepromForm]);
              [in_list | exact Hw] | ].
           apply same_except_weaken with (l := [P_FIRMWARE_INFO]);
             [in_list | apply Hcap].
        -- rewrite (kept_stateControls (Hcap _)) by not_listed. exact Hc.
        -- intros s. rewrite (kept_data (Hcap _)) by not_listed. apply Hd.
        -- rewrite (kept_sent (Hcap _)) by not_listed.
           rewrite Hs, HS, HP. reflexivity.
    + apply same_except_trans with (b := x); [exact Hx | ].
      apply same_except_weaken with (l := [P_FIRMWARE_INFO]);
        [in_list | apply Hcap].
Qed.

Lemma changes_cap :
  forall (o : option (list jsval)) (info : VM -> string),
    changes [P_FIRMWARE_INFO]
      (fun self =>
         match o with
         | Some _ => set_FIRMWARE_INFO self (info self)
         | None => self
         end).
Proof.
  intros o info self. destruct o; [ | apply same_except_refl].
  unfold same_except; repeat split;
    first [right; reflexivity | left; in_list].
Qed.

Lemma detect_firmware_identifies :
  forall line self,
    match exec Lit.firmware line with
    | Some m => identified m self (detect_firmware line self)
    | None => same_except [P_FIRMWARE_INFO] self (detect_firmware line self)
    end.
Proof.
  intros line self.
  exact (@identification_spec _ line self
           (changes_cap (exec Lit.firmwareCap line)
              (fun self =>
                 (FIRMWARE_INFO self ++ LF ++
                  remove_first "Recv: Cap:" line)%string))).
Qed.

Lemma detect_firmware_history_identifies :
  forall line self,
    match exec Lit.firmware line with
    | Some m => identified m self (detect_firmware_history line self)
    | None =>
        same_except [P_FIRMWARE_INFO] self (detect_firmware_history line self)
    end.
Proof.
  intros line self.
  exact (@identification_spec _ line self
           (changes_cap (exec Lit.firmwareCap line)
              (fun self =>
                 (LF ++ LF ++ FIRMWARE_INFO self ++ LF ++
                  remove_first "Recv: Cap:" line)%string))).
Qed.

(** X9: the identification of the firmware.  On a line that the firmware
    pattern matches, both log feeds set the name to the two captures joined
    by one space, and neither capture holds white space, so the name never
    is one of the strings with no or two spaces the script compares it
    with; they install the patterns [setRegExVars] assigns for that name;
    when the Marlin pattern matches the matched text they set
    [isMarlinFirmware], and if it was not set before, the load cycle runs:
    controls disabled, arrays emptied, requests sent unless a print is
    running.  Nothing else changes but the firmware information.  On any
    other line only the firmware information can change. *)
Theorem identification_on_one_line :
  forall line self,
    match exec Lit.firmware line with
    | Some m =>
        identified m self (detect_firmware line self) /\
        identified m self (detect_firmware_history line self)
    | None =>
        same_except [P_FIRMWARE_INFO] self (detect_firmware line self) /\
        same_except [P_FIRMWARE_INFO] self (detect_firmware_history line self)
    end.
Proof.
  intros line self.
  pose proof (detect_firmware_identifies line self) as H1.
  pose proof (detect_firmware_history_identifies line self) as H2.
  destruct (exec Lit.firmware line); split; assumption.
Qed.

(** ** What every entry point keeps *)

Ltac pose_footprints :=
  assert (Fe : forall line restoreBackup,
             changes [P_data; P_timers]
               (eepromFieldParse line restoreBackup))
    by (intros; apply changes_eepromFieldParse; in_list);
  assert (Fl : changes [P_stateControls; P_data; P_sent;
                        P_hasChangedEepromForm] loadEeprom)
    by (apply changes_loadEeprom; in_list);
  assert (Fb : changes [P_stateControls; P_execBackup; P_backupConfig;
                        P_data; P_sent] backupEeprom)
    by (apply changes_backupEeprom; in_list);
  assert (Fs : changes [P_stateControls; P_data; P_sent;
                        P_hasChangedEepromForm] saveEeprom)
    by (apply changes_saveEeprom; in_list);
  assert (Fr : changes [P_stateControls; P_data; P_sent;
                        P_hasChangedEepromForm] resetEeprom_onproceed)
    by (apply changes_resetEeprom_onproceed; in_list);
  assert (Ff : forall result,
             changes [P_stateControls; P_backupConfig; P_data; P_timers]
               (handleFileSelect_onload result))
    by (intros; apply changes_handleFileSelect_onload; in_list);
  assert (Fc : changes [P_sent] onEventConnected)
    by (apply changes__requestFirmwareInfo; in_list);
  assert (Fd : changes [P_isMarlinFirmware; P_stateControls; P_data; P_sent;
                        P_hasChangedEepromForm] onEventDisconnected)
    by (apply changes_write_isMarlinFirmware; in_list);
  assert (Fh : forall logs,
             changes [P_FIRMWARE_NAME; P_FIRMWARE_INFO; P_re;
                      P_isMarlinFirmware; P_stateControls; P_data; P_sent;
                      P_hasChangedEepromForm] (fromHistoryData logs))
    by (intros; apply changes_each; intros;
        apply changes_detect_firmware_history; in_list).

Ltac each_entry_point :=
  unfold entry_points;
  refine (conj _ (conj _ (conj _ (conj _ (conj _ (conj _ (conj _
            (conj _ _))))))));
  cbv beta.

Lemma le_same : forall a b : bool, b = a -> Bool.le a b.
Proof. intros [ | ] b ->; exact I || reflexivity. Qed.

Lemma le_false : forall a b : bool, a = false -> Bool.le a b.
Proof. intros a b ->; exact I. Qed.

Lemma le_trans :
  forall a b c : bool, Bool.le a b -> Bool.le b c -> Bool.le a c.
Proof. intros [ | ] [ | ] [ | ]; simpl; auto; discriminate. Qed.

Lemma each_related :
  forall (A : Type) (R : VM -> VM -> Prop) (f : A -> VM -> VM),
    (forall a, R a a) ->
    (forall a b c, R a b -> R b c -> R a c) ->
    (forall x a, R a (f x a)) ->
    forall l a, R a (each l f a).
Proof.
  intros A R f Hrefl Htrans Hstep l.
  induction l as [ | x l IH]; intros a.
  - rewrite each_nil; apply Hrefl.
  - rewrite each_cons. apply (Htrans _ _ _ (Hstep x a)). apply IH.
Qed.

Lemma capture_backup_startBackup :
  forall now logs self,
    startBackup (capture_backup now logs self) =
    startBackup self
    || matches (eepromM501RegEx (re self)) (String.concat "," logs).
Proof.
  intros now logs self. unfold capture_backup, seq, matches.
  set (x := match exec (eepromM501RegEx (re self)) (String.concat "," logs)
            with
            | Some _ => set_startBackup self true
            | None => self
            end).
  assert (Hx : startBackup x =
               (startBackup self ||
                match exec (eepromM501RegEx (re self))
                        (String.concat "," logs) with
                | Some _ => true
                | None => false
                end)).
  { unfold x.
    destruct (exec (eepromM501RegEx (re self)) (String.concat "," logs)).
    - cbn [startBackup set_startBackup]. rewrite orb_true_r; reflexivity.
    - rewrite orb_false_r; reflexivity. }
  clearbody x. rewrite <- Hx.
  destruct (execBackup x && startBackup x); [ | reflexivity].
  cbv beta zeta.
  set (y := set_backupConfig x
              (backupConfig x ++ String.concat "," logs ++ LF)).
  assert (Hy : startBackup y = startBackup x) by reflexivity.
  clearbody y. rewrite <- Hy.
  assert (Hf : startBackup (finish_backup now y) = startBackup y).
  { assert (H : changes [P_execBackup; P_backupConfig; P_downloads;
                         P_timers] (finish_backup now))
      by (apply changes_finish_backup; in_list).
    apply (kept_startBackup (H y)); not_listed. }
  destruct (exec (eepromM851RegEx (re y)) (backupConfig y));
    destruct (exec (eepromOKRegEx (re y)) (backupConfig y));
    first [exact Hf | reflexivity].
Qed.

Lemma fromCurrentData_startBackup :
  forall now logs self,
    Bool.le (startBackup self) (startBackup (fromCurrentData now logs self)).
Proof.
  intros now logs self.
  destruct (isMarlinFirmware self) eqn:HM.
  - rewrite (fromCurrentData_marlin now logs self HM).
    cbn [startBackup set_hasChangedEepromForm].
    destruct (each_extract_session logs
                (capture_backup now logs (set_hasChangedEepromForm self true)))
      as [-> _].
    rewrite capture_backup_startBackup.
    cbn [startBackup set_hasChangedEepromForm].
    destruct (startBackup self); [reflexivity | exact I].
  - pose proof (fromCurrentData_changes now logs self) as H.
    rewrite HM in H. apply le_same.
    apply (kept_startBackup H); not_listed.
Qed.

Lemma write_isMarlinFirmware_stateControls :
  forall b self,
    Bool.le (stateControls (write_isMarlinFirmware b self))
      (stateControls self).
Proof.
  intros b self. unfold write_isMarlinFirmware.
  destruct (Bool.eqb (isMarlinFirmware self) b);
    [apply le_same; reflexivity | ].
  apply le_false. apply loadEeprom_stateControls.
Qed.

Lemma identified_stateControls :
  forall m self after,
    identified m self after ->
    Bool.le (stateControls after) (stateControls self).
Proof.
  intros m self after [_ [_ [_ H]]].
  destruct (matches Lit.marlin (to_str m.[0])).
  - destruct H as [_ H]. destruct (isMarlinFirmware self).
    + apply le_same. symmetry. apply (kept_stateControls H); not_listed.
    + destruct H as [_ [H _]]. apply le_false; exact H.
  - apply le_same. symmetry. apply (kept_stateControls H); not_listed.
Qed.

Lemma detect_firmware_stateControls :
  forall line self,
    Bool.le (stateControls (detect_firmware line self)) (stateControls self).
Proof.
  intros line self. pose proof (detect_firmware_identifies line self) as H.
  destruct (exec Lit.firmware line) as [m | ].
  - exact (identified_stateControls H).
  - apply le_same. symmetry. apply (kept_stateControls H); not_listed.
Qed.

Lemma detect_firmware_history_stateControls :
  forall line self,
    Bool.le (stateControls (detect_firmware_history line self))
      (stateControls self).
Proof.
  intros line self.
  pose proof (detect_firmware_history_identifies line self) as H.
  destruct (exec Lit.firmware line) as [m | ].
  - exact (identified_stateControls H).
  - apply le_same. symmetry. apply (kept_stateControls H); not_listed.
Qed.

Lemma saveEeprom_stateControls :
  forall self, stateControls (saveEeprom self) = false.
Proof.
  intros self. rewrite saveEeprom_load. apply loadEeprom_stateControls.
Qed.

Lemma identified_name :
  forall m self after,
    identified m self after -> spaces (FIRMWARE_NAME after) = 1.
Proof. intros m self after [-> [H _]]. exact H. Qed.

Lemma detect_firmware_name :
  forall line self,
    FIRMWARE_NAME (detect_firmware line self) = FIRMWARE_NAME self \/
    spaces (FIRMWARE_NAME (detect_firmware line self)) = 1.
Proof.
  intros line self. pose proof (detect_firmware_identifies line self) as H.
  destruct (exec Lit.firmware line) as [m | ].
  - right. exact (identified_name H).
  - left. apply (kept_FIRMWARE_NAME H); not_listed.
Qed.

Lemma detect_firmware_history_name :
  forall line self,
    FIRMWARE_NAME (detect_firmware_history line self) = FIRMWARE_NAME self \/
    spaces (FIRMWARE_NAME (detect_firmware_history line self)) = 1.
Proof.
  intros line self.
  pose proof (detect_firmware_history_identifies line self) as H.
  destruct (exec Lit.firmware line) as [m | ].
  - right. exact (identified_name H).
  - left. apply (kept_FIRMWARE_NAME H); not_listed.
Qed.

Lemma name_related_trans :
  forall a b c : VM,
    FIRMWARE_NAME b = FIRMWARE_NAME a \/ spaces (FIRMWARE_NAME b) = 1 ->
    FIRMWARE_NAME c = FIRMWARE_NAME b \/ spaces (FIRMWARE_NAME c) = 1 ->
    FIRMWARE_NAME c = FIRMWARE_NAME a \/ spaces (FIRMWARE_NAME c) = 1.
Proof.
  intros a b c [H1 | H1] [H2 | H2].
  - left; rewrite H2; exact H1.
  - right; exact H2.
  - right; rewrite H2; exact H1.
  - right; exact H2.
Qed.

(** X10: what every entry point keeps.  None of them clears the start
    marker of the backup sessions; none of them enables the controls, which
    only a timer does; none of them changes [isPrinting]; and the firmware
    name after any of them is what it was or holds exactly one white-space
    character. *)
Theorem entry_points_never_enable_or_unmark :
  entry_points
    (fun F =>
       forall self,
         Bool.le (startBackup self) (startBackup (F self)) /\
         Bool.le (stateControls (F self)) (stateControls self) /\
         isPrinting (F self) = isPrinting self /\
         (FIRMWARE_NAME (F self) = FIRMWARE_NAME self \/
          spaces (FIRMWARE_NAME (F self)) = 1)).
Proof.
  pose_footprints.
  each_entry_point.
  - intros self.
    split; [apply le_same; apply (kept_startBackup (Fl self)); not_listed | ].
    split; [apply le_false; apply loadEeprom_stateControls | ].
    split; [apply (kept_isPrinting (Fl self)); not_listed | ].
    left; apply (kept_FIRMWARE_NAME (Fl self)); not_listed.
  - intros self.
    split; [apply le_same; apply (kept_startBackup (Fb self)); not_listed | ].
    split; [apply le_false; apply backupEeprom_stateControls | ].
    split; [apply (kept_isPrinting (Fb self)); not_listed | ].
    left; apply (kept_FIRMWARE_NAME (Fb self)); not_listed.
  - intros self.
    split; [apply le_same; apply (kept_startBackup (Fs self)); not_listed | ].
    split; [apply le_false; apply saveEeprom_stateControls | ].
    split; [apply (kept_isPrinting (Fs self)); not_listed | ].
    left; apply (kept_FIRMWARE_NAME (Fs self)); not_listed.
  - intros self.
    split; [apply le_same; apply (kept_startBackup (Fr self)); not_listed | ].
    split; [apply le_false; apply resetEeprom_onproceed_stateControls | ].
    split; [apply (kept_isPrinting (Fr self)); not_listed | ].
    left; apply (kept_FIRMWARE_NAME (Fr self)); not_listed.
  - intros self.
    split; [apply le_same; apply (kept_startBackup (Fc self)); not_listed | ].
    split; [apply le_same; symmetry;
            apply (kept_stateControls (Fc self)); not_listed | ].
    split; [apply (kept_isPrinting (Fc self)); not_listed | ].
    left; apply (kept_FIRMWARE_NAME (Fc self)); not_listed.
  - intros self.
    split; [apply le_same; apply (kept_startBackup (Fd self)); not_listed | ].
    split; [apply write_isMarlinFirmware_stateControls | ].
    split; [apply (kept_isPrinting (Fd self)); not_listed | ].
    left; apply (kept_FIRMWARE_NAME (Fd self)); not_listed.
  - intros result self.
    split; [apply le_same;
            apply (kept_startBackup (Ff result self)); not_listed | ].
    split; [apply le_false; apply handleFileSelect_onload_stateControls | ].
    split; [apply (kept_isPrinting (Ff result self)); not_listed | ].
    left; apply (kept_FIRMWARE_NAME (Ff result self)); not_listed.
  - intros logs self.
    split; [apply le_same;
            apply (kept_startBackup (Fh logs self)); not_listed | ].
    split.
    { unfold fromHistoryData.
      apply (each_related
               (fun a b => Bool.le (stateControls b) (stateControls a))).
      - intros a; apply le_same; reflexivity.
      - intros a b c H1 H2; exact (le_trans _ _ _ H2 H1).
      - intros x a; apply detect_firmware_history_stateControls. }
    split; [apply (kept_isPrinting (Fh logs self)); not_listed | ].
    unfold fromHistoryData.
    apply (each_related
             (fun a b => FIRMWARE_NAME b = FIRMWARE_NAME a \/
                         spaces (FIRMWARE_NAME b) = 1)).
    + intros a; left; reflexivity.
    + exact name_related_trans.
    + intros x a; apply detect_firmware_history_name.
  - intros now logs self.
    split; [apply fromCurrentData_startBackup | ].
    split; [ | split; [apply fromCurrentData_isPrinting | ]].
    + destruct (isMarlinFirmware self) eqn:HM.
      * pose proof (fromCurrentData_changes now logs self) as H.
        rewrite HM in H. apply le_same. symmetry.
        apply (kept_stateControls H); not_listed.
      * rewrite (fromCurrentData_other now logs self HM).
        cbn [stateControls set_hasChangedEepromForm].
        change (stateControls self)
          with (stateControls (set_hasChangedEepromForm self true)).
        apply (each_related
                 (fun a b => Bool.le (stateControls b) (stateControls a))).
        -- intros a; apply le_same; reflexivity.
        -- intros a b c H1 H2; exact (le_trans _ _ _ H2 H1).
        -- intros x a; apply detect_firmware_stateControls.
    + destruct (isMarlinFirmware self) eqn:HM.
      * pose proof (fromCurrentData_changes now logs self) as H.
        rewrite HM in H. left.
        apply (kept_FIRMWARE_NAME H); not_listed.
      * rewrite (fromCurrentData_other now logs self HM).
        cbn [FIRMWARE_NAME set_hasChangedEepromForm].
        change (FIRMWARE_NAME self)
          with (FIRMWARE_NAME (set_hasChangedEepromForm self true)).
        apply (each_related
                 (fun a b => FIRMWARE_NAME b = FIRMWARE_NAME a \/
                             spaces (FIRMWARE_NAME b) = 1)).
        -- intros a; left; reflexivity.
        -- exact name_related_trans.
        -- intros x a; apply detect_firmware_name.
Qed.

(** ** The patterns follow the name *)

Lemma in_step_same :
  forall a b,
    re b = re a -> FIRMWARE_NAME b = FIRMWARE_NAME a ->
    in_step a -> in_step b.
Proof.
  intros a b Hr Hn [[H1 H2] | [x Hx]].
  - left. rewrite Hr, Hn. split; assumption.
  - right. exists x. rewrite Hr, Hn. exact Hx.
Qed.

Lemma in_step_kept :
  forall l a b,
    same_except l a b -> ~ In P_re l -> ~ In P_FIRMWARE_NAME l ->
    in_step a -> in_step b.
Proof.
  intros l a b H H1 H2. apply in_step_same.
  - apply (kept_re H H1).
  - apply (kept_FIRMWARE_NAME H H2).
Qed.

Lemma identified_in_step :
  forall m self after, identified m self after -> in_step after.
Proof.
  intros m self after [Hn [_ [Hr _]]]. right. exists self.
  rewrite Hn. exact Hr.
Qed.

Lemma detect_firmware_in_step :
  forall line, preserves in_step (detect_firmware line).
Proof.
  intros line self Hs.
  pose proof (detect_firmware_identifies line self) as H.
  destruct (exec Lit.firmware line) as [m | ].
  - exact (identified_in_step H).
  - apply (in_step_kept H); [not_listed | not_listed | exact Hs].
Qed.

Lemma detect_firmware_history_in_step :
  forall line, preserves in_step (detect_firmware_history line).
Proof.
  intros line self Hs.
  pose proof (detect_firmware_history_identifies line self) as H.
  destruct (exec Lit.firmware line) as [m | ].
  - exact (identified_in_step H).
  - apply (in_step_kept H); [not_listed | not_listed | exact Hs].
Qed.

Lemma each_preserves :
  forall (A : Type) (Inv : VM -> Prop) (f : A -> VM -> VM),
    (forall x, preserves Inv (f x)) ->
    forall l, preserves Inv (each l f).
Proof.
  intros A Inv f Hf l. induction l as [ | x l IH]; intros self H.
  - rewrite each_nil; exact H.
  - rewrite each_cons. apply IH, Hf, H.
Qed.

(** X11: the patterns follow the name.  When its constructor returns the
    view model has no firmware name and holds the patterns of
    'Marlin bugfix-2.0.x'; every entry point keeps the patterns those that
    [setRegExVars] assigns for the firmware name, and so does the
    extractor, which therefore runs under the patterns of the name it
    branches on, or, in a restore made before any identification, under the
    constructor's patterns and the empty name. *)
Theorem patterns_follow_the_name :
  (forall printing,
     in_step (initial printing) /\
     FIRMWARE_NAME (initial printing) = "" /\
     re (initial printing) = re (setRegExVars "Marlin bugfix-2.0.x"
                                   (initial printing))) /\
  entry_points (preserves in_step) /\
  (forall line restoreBackup,
     preserves in_step (eepromFieldParse line restoreBackup)).
Proof.
  pose_footprints.
  split; [ | split].
  - intros printing. split; [ | split; reflexivity].
    left; split; reflexivity.
  - each_entry_point.
    + intros self. apply (in_step_kept (Fl self)); not_listed.
    + intros self. apply (in_step_kept (Fb self)); not_listed.
    + intros self. apply (in_step_kept (Fs self)); not_listed.
    + intros self. apply (in_step_kept (Fr self)); not_listed.
    + intros self. apply (in_step_kept (Fc self)); not_listed.
    + intros self. apply (in_step_kept (Fd self)); not_listed.
    + intros result self. apply (in_step_kept (Ff result self)); not_listed.
    + intros logs. unfold fromHistoryData. apply each_preserves.
      exact detect_firmware_history_in_step.
    + intros now logs self Hs.
      destruct (isMarlinFirmware self) eqn:HM.
      * pose proof (fromCurrentData_changes now logs self) as H.
        rewrite HM in H.
        apply (in_step_kept H); [not_listed | not_listed | exact Hs].
      * rewrite (fromCurrentData_other now logs self HM).
        apply in_step_same
          with (a := each logs detect_firmware
                       (set_hasChangedEepromForm self true));
          [reflexivity | reflexivity | ].
        apply each_preserves; [exact detect_firmware_in_step | ].
        apply in_step_same with (a := self);
          [reflexivity | reflexivity | exact Hs].
  - intros line rb self.
    apply (in_step_kept (Fe line rb self)); not_listed.
Qed.

(** ** The classes of firmware names *)

Lemma setRegExVars_other :
  forall version self,
    ~ In version enumerated_names ->
    re (setRegExVars version self) = stable_grammar.
Proof.
  intros version self H.
  assert (E := not_in_eqb _ _ H).
  cbn [enumerated_names bugfix_names stable_names rc_names legacy_names
       app existsb] in E.
  repeat match goal with
         | E : (_ || _)%bool = false |- _ =>
             apply orb_false_elim in E; destruct E
         end.
  unfold setRegExVars. cbv zeta.
  repeat match goal with
         | E : (version =? _)%string = false |- _ => rewrite E; clear E
         end.
  reflexivity.
Qed.

(** The tests of the extractor on a name. *)
Lemma branch_tests :
  forall fw,
    (In fw first_branch_names /\
     existsb (String.eqb fw)
       ["Marlin 1.1.0-RC8"; "Marlin 1.1.1"; "Marlin 1.1.2"; "Marlin 1.1.3";
       "Marlin 1.1.4"; "Marlin 1.1.5"; "Marlin 1.1.6"; "Marlin 1.1.7";
       "Marlin 1.1.8"; "Marlin bugfix-2.0.x";
       "Marlin bugfix-2.0.x (Github)"] = true) \/
    (In fw rc_names /\
     existsb (String.eqb fw)
       ["Marlin 1.1.0-RC8"; "Marlin 1.1.1"; "Marlin 1.1.2"; "Marlin 1.1.3";
       "Marlin 1.1.4"; "Marlin 1.1.5"; "Marlin 1.1.6"; "Marlin 1.1.7";
       "Marlin 1.1.8"; "Marlin bugfix-2.0.x";
       "Marlin bugfix-2.0.x (Github)"] = false /\
     existsb (String.eqb fw)
       ["Marlin 1.1.0-RC1"; "Marlin 1.1.0-RC2"; "Marlin 1.1.0-RC3";
       "Marlin 1.1.0-RC4"; "Marlin 1.1.0-RC5"; "Marlin 1.1.0-RC6";
       "Marlin 1.1.0-RC7"] = true) \/
    (In fw legacy_names /\
     existsb (String.eqb fw)
       ["Marlin 1.1.0-RC8"; "Marlin 1.1.1"; "Marlin 1.1.2"; "Marlin 1.1.3";
       "Marlin 1.1.4"; "Marlin 1.1.5"; "Marlin 1.1.6"; "Marlin 1.1.7";
       "Marlin 1.1.8"; "Marlin bugfix-2.0.x";
       "Marlin bugfix-2.0.x (Github)"] = false /\
     existsb (String.eqb fw)
       ["Marlin 1.1.0-RC1"; "Marlin 1.1.0-RC2"; "Marlin 1.1.0-RC3";
       "Marlin 1.1.0-RC4"; "Marlin 1.1.0-RC5"; "Marlin 1.1.0-RC6";
       "Marlin 1.1.0-RC7"] = false /\
     existsb (String.eqb fw)
       ["Marlin 1.0.2+"; "Marlin V1.0.2;"; "Marlin 1.0.2"; "Marlin V1;"] =
     true) \/
    (existsb (String.eqb fw)
       ["Marlin 1.1.0-RC8"; "Marlin 1.1.1"; "Marlin 1.1.2"; "Marlin 1.1.3";
       "Marlin 1.1.4"; "Marlin 1.1.5"; "Marlin 1.1.6"; "Marlin 1.1.7";
       "Marlin 1.1.8"; "Marlin bugfix-2.0.x";
       "Marlin bugfix-2.0.x (Github)"] = false /\
     existsb (String.eqb fw)
       ["Marlin 1.1.0-RC1"; "Marlin 1.1.0-RC2"; "Marlin 1.1.0-RC3";
       "Marlin 1.1.0-RC4"; "Marlin 1.1.0-RC5"; "Marlin 1.1.0-RC6";
       "Marlin 1.1.0-RC7"] = false /\
     existsb (String.eqb fw)
       ["Marlin 1.0.2+"; "Marlin V1.0.2;"; "Marlin 1.0.2"; "Marlin V1;"] =
     false).
Proof.
  intros fw.
  destruct (in_dec string_dec fw (first_branch_names ++ rc_names ++
                                   legacy_names)) as [Hin | Hnot].
  - unfold first_branch_names, rc_names, legacy_names in Hin.
    simpl in Hin.
    repeat match type of Hin with
           | _ \/ _ => destruct Hin as [Hin | Hin]
           end;
      try contradiction; subst fw;
      first
        [ left; split; [unfold first_branch_names; simpl; tauto
                       | vm_compute; reflexivity]
        | right; left; split; [unfold rc_names; simpl; tauto | ];
          split; vm_compute; reflexivity
        | right; right; left; split; [unfold legacy_names; simpl; tauto | ];
          repeat split; vm_compute; reflexivity ].
  - right; right; right.
    repeat split; apply not_in_eqb; intros H; apply Hnot;
      unfold first_branch_names, rc_names, legacy_names;
      simpl in H |- *; tauto.
Qed.

(** The patterns [setRegExVars] assigns for a name. *)
Lemma name_grammar :
  forall fw x,
    re (setRegExVars fw x) =
    if String.eqb fw "Marlin bugfix-2.0.x" then bugfix_grammar
    else if existsb (String.eqb fw) rc_names then rc_grammar
    else if existsb (String.eqb fw) legacy_names then legacy_grammar (re x)
    else stable_grammar.
Proof.
  intros fw x.
  destruct (in_dec string_dec fw enumerated_names) as [Hin | Hnot].
  - unfold enumerated_names, bugfix_names, stable_names, rc_names,
      legacy_names in Hin.
    simpl in Hin.
    repeat match type of Hin with
           | _ \/ _ => destruct Hin as [Hin | Hin]
           end;
      try contradiction; subst fw; vm_compute; reflexivity.
  - rewrite (setRegExVars_other _ Hnot).
    assert (E := not_in_eqb _ _ Hnot).
    unfold enumerated_names in E. rewrite !existsb_app in E.
    apply orb_false_elim in E. destruct E as [E1 E].
    apply orb_false_elim in E. destruct E as [_ E].
    apply orb_false_elim in E. destruct E as [E3 E4].
    cbn [bugfix_names existsb] in E1. rewrite orb_false_r in E1.
    rewrite E1, E3, E4. reflexivity.
Qed.

(** ** Values read past the end of a match array *)

(** The branch the tests on the firmware name select. *)
Ltac known_branch :=
  idtac;
  match goal with
  | E : existsb _ _ = _ |- _ =>
      try congruence; try (vm_compute in E; discriminate E)
  end.

(** An entry whose value is within the captures of the pattern is a
    string; the others are the two listed ones. *)
Ltac within_or_listed :=
  let Hu := fresh "Hu" in
  cbv beta; intros Hu; cbn [value] in Hu;
  first
    [ exfalso;
      match type of Hu with
      | ?m.[?k] = VUndef =>
          match goal with
          | Hm : exec ?rx _ = Some m |- _ =>
              let Hk := fresh in
              let Hs := fresh in
              assert (Hk : (k <=? groups rx)%nat = true)
                by (vm_compute; reflexivity);
              destruct (@exec_in_range _ _ _ k Hm Hk) as [? Hs];
              rewrite Hs in Hu; discriminate Hu
          end
      end
    | unfold reads_past_the_match; cbn [dataType];
      first [ left; split; [reflexivity | simpl; tauto]
            | right; split; [reflexivity | assumption] ] ].

(** The walk for a given name and given patterns. *)
Ltac table_walk line self fw G Hname Hre btac :=
  let a := fresh "a" in
  let Ca := fresh "Ca" in
  let ctx := fresh "ctx" in
  let H := fresh "H" in
  set (a := acknowledge line self);
  assert (Ca : context G fw a)
    by (apply acknowledge_context; split; [exact Hre | exact Hname]);
  pose proof (appended_context
                (P := fun f => value f = VUndef ->
                               reads_past_the_match fw f) Ca) as ctx;
  after_acknowledge line self; fold a;
  match goal with
  | |- appended ?P a (?E a) => assert (H : preserves (appended P a) E)
  end;
  [ appended_walk ctx btac within_or_listed
  | apply H, appended_refl ].

Lemma table_before_identification :
  forall line restoreBackup self,
    FIRMWARE_NAME self = "" ->
    re self = bugfix_grammar ->
    appended
      (fun f => value f = VUndef -> reads_past_the_match "" f)
      (acknowledge line self) (eepromFieldParse line restoreBackup self).
Proof.
  intros line rb self Hname Hre.
  table_walk line self "" bugfix_grammar Hname Hre known_branch.
Qed.

Lemma table_bugfix :
  forall line restoreBackup self,
    FIRMWARE_NAME self = "Marlin bugfix-2.0.x" ->
    re self = bugfix_grammar ->
    appended
      (fun f => value f = VUndef -> reads_past_the_match "Marlin bugfix-2.0.x" f)
      (acknowledge line self) (eepromFieldParse line restoreBackup self).
Proof.
  intros line rb self Hname Hre.
  table_walk line self "Marlin bugfix-2.0.x" bugfix_grammar Hname Hre
    known_branch.
Qed.

Lemma table_first_branch :
  forall fw line restoreBackup self,
    existsb (String.eqb fw)
      ["Marlin 1.1.0-RC8"; "Marlin 1.1.1"; "Marlin 1.1.2"; "Marlin 1.1.3";
       "Marlin 1.1.4"; "Marlin 1.1.5"; "Marlin 1.1.6"; "Marlin 1.1.7";
       "Marlin 1.1.8"; "Marlin bugfix-2.0.x";
       "Marlin bugfix-2.0.x (Github)"] = true ->
    FIRMWARE_NAME self = fw ->
    re self = stable_grammar ->
    appended
      (fun f => value f = VUndef -> reads_past_the_match fw f)
      (acknowledge line self) (eepromFieldParse line restoreBackup self).
Proof.
  intros fw line rb self T1 Hname Hre.
  table_walk line self fw stable_grammar Hname Hre known_branch.
Qed.

Lemma table_last_branch :
  forall fw line restoreBackup self,
    existsb (String.eqb fw)
      ["Marlin 1.1.0-RC8"; "Marlin 1.1.1"; "Marlin 1.1.2"; "Marlin 1.1.3";
       "Marlin 1.1.4"; "Marlin 1.1.5"; "Marlin 1.1.6"; "Marlin 1.1.7";
       "Marlin 1.1.8"; "Marlin bugfix-2.0.x";
       "Marlin bugfix-2.0.x (Github)"] = false ->
    existsb (String.eqb fw)
      ["Marlin 1.1.0-RC1"; "Marlin 1.1.0-RC2"; "Marlin 1.1.0-RC3";
       "Marlin 1.1.0-RC4"; "Marlin 1.1.0-RC5"; "Marlin 1.1.0-RC6";
       "Marlin 1.1.0-RC7"] = false ->
    existsb (String.eqb fw)
      ["Marlin 1.0.2+"; "Marlin V1.0.2;"; "Marlin 1.0.2"; "Marlin V1;"] =
    false ->
    FIRMWARE_NAME self = fw ->
    re self = stable_grammar ->
    appended
      (fun f => value f = VUndef -> reads_past_the_match fw f)
      (acknowledge line self) (eepromFieldParse line restoreBackup self).
Proof.
  intros fw line rb self T1 T2 T3 Hname Hre.
  table_walk line self fw stable_grammar Hname Hre known_branch.
Qed.

Lemma table_rc :
  forall fw line restoreBackup self,
    In fw rc_names ->
    existsb (String.eqb fw)
      ["Marlin 1.1.0-RC8"; "Marlin 1.1.1"; "Marlin 1.1.2"; "Marlin 1.1.3";
       "Marlin 1.1.4"; "Marlin 1.1.5"; "Marlin 1.1.6"; "Marlin 1.1.7";
       "Marlin 1.1.8"; "Marlin bugfix-2.0.x";
       "Marlin bugfix-2.0.x (Github)"] = false ->
    existsb (String.eqb fw)
      ["Marlin 1.1.0-RC1"; "Marlin 1.1.0-RC2"; "Marlin 1.1.0-RC3";
       "Marlin 1.1.0-RC4"; "Marlin 1.1.0-RC5"; "Marlin 1.1.0-RC6";
       "Marlin 1.1.0-RC7"] = true ->
    FIRMWARE_NAME self = fw ->
    re self = rc_grammar ->
    appended
      (fun f => value f = VUndef -> reads_past_the_match fw f)
      (acknowledge line self) (eepromFieldParse line restoreBackup self).
Proof.
  intros fw line rb self Hin T1 T2 Hname Hre.
  table_walk line self fw rc_grammar Hname Hre known_branch.
Qed.

Lemma table_legacy :
  forall fw old line restoreBackup self,
    existsb (String.eqb fw)
      ["Marlin 1.1.0-RC8"; "Marlin 1.1.1"; "Marlin 1.1.2"; "Marlin 1.1.3";
       "Marlin 1.1.4"; "Marlin 1.1.5"; "Marlin 1.1.6"; "Marlin 1.1.7";
       "Marlin 1.1.8"; "Marlin bugfix-2.0.x";
       "Marlin bugfix-2.0.x (Github)"] = false ->
    existsb (String.eqb fw)
      ["Marlin 1.1.0-RC1"; "Marlin 1.1.0-RC2"; "Marlin 1.1.0-RC3";
       "Marlin 1.1.0-RC4"; "Marlin 1.1.0-RC5"; "Marlin 1.1.0-RC6";
       "Marlin 1.1.0-RC7"] = false ->
    existsb (String.eqb fw)
      ["Marlin 1.0.2+"; "Marlin V1.0.2;"; "Marlin 1.0.2"; "Marlin V1;"] =
    true ->
    FIRMWARE_NAME self = fw ->
    re self = legacy_grammar old ->
    appended
      (fun f => value f = VUndef -> reads_past_the_match fw f)
      (acknowledge line self) (eepromFieldParse line restoreBackup self).
Proof.
  intros fw old line rb self T1 T2 T3 Hname Hre.
  table_walk line self fw (legacy_grammar old) Hname Hre known_branch.
Qed.

(** The extractor under the patterns of the name, class by class. *)
Lemma table_in_step :
  forall fw x line restoreBackup self,
    FIRMWARE_NAME self = fw ->
    re self = re (setRegExVars fw x) ->
    appended
      (fun f => value f = VUndef -> reads_past_the_match fw f)
      (acknowledge line self) (eepromFieldParse line restoreBackup self).
Proof.
  intros fw x line rb self Hname Hre.
  rewrite name_grammar in Hre.
  destruct (branch_tests fw)
    as [[Hin T1] | [[Hin [T1 T2]] | [[Hin [T1 [T2 T3]]] | [T1 [T2 T3]]]]].
  - destruct (String.eqb_spec fw "Marlin bugfix-2.0.x") as [E | E].
    + rewrite E in Hname |- *. apply table_bugfix; assumption.
    + assert (R : existsb (String.eqb fw) rc_names = false).
      { clear - Hin. unfold first_branch_names in Hin. simpl in Hin.
        repeat match type of Hin with
               | _ \/ _ => destruct Hin as [Hin | Hin]
               end;
          try contradiction; subst fw; reflexivity. }
      assert (L : existsb (String.eqb fw) legacy_names = false).
      { clear - Hin. unfold first_branch_names in Hin. simpl in Hin.
        repeat match type of Hin with
               | _ \/ _ => destruct Hin as [Hin | Hin]
               end;
          try contradiction; subst fw; reflexivity. }
      rewrite R, L in Hre.
      apply table_first_branch; assumption.
  - assert (B : String.eqb fw "Marlin bugfix-2.0.x" = false).
    { clear - Hin. unfold rc_names in Hin. simpl in Hin.
      repeat match type of Hin with
             | _ \/ _ => destruct Hin as [Hin | Hin]
             end;
        try contradiction; subst fw; reflexivity. }
    unfold rc_names in Hre. rewrite B, T2 in Hre.
    apply table_rc; assumption.
  - assert (B : String.eqb fw "Marlin bugfix-2.0.x" = false).
    { clear - Hin. unfold legacy_names in Hin. simpl in Hin.
      repeat match type of Hin with
             | _ \/ _ => destruct Hin as [Hin | Hin]
             end;
        try contradiction; subst fw; reflexivity. }
    unfold rc_names, legacy_names in Hre. rewrite B, T2, T3 in Hre.
    apply table_legacy with (old := re x); assumption.
  - assert (B : String.eqb fw "Marlin bugfix-2.0.x" = false).
    { cbn [existsb] in T1.
      repeat match goal with
             | E : (_ || _)%bool = false |- _ =>
                 apply orb_false_elim in E; destruct E
             end.
      assumption. }
    unfold rc_names, legacy_names in Hre. rewrite B, T2, T3 in Hre.
    apply table_last_branch; assumption.
Qed.

(** X12: the values that are [undefined].  When the patterns are in step
    with the firmware name, an entry the extractor appends has a string as
    its value, with two exceptions in which the script reads an index past
    the last capture: the linear-advance ratio 'M900 R' under the patterns
    of the bugfix branch (also those in place before any identification),
    and the E jerk 'M205 E' under the names of the release candidates 1
    to 7. *)
Theorem undefined_values_are_read_past_the_match :
  forall line restoreBackup self,
    in_step self ->
    forall s,
      exists new,
        data (eepromFieldParse line restoreBackup self) s =
        data self s ++ new /\
        Forall
          (fun f =>
             value f = VUndef ->
             reads_past_the_match (FIRMWARE_NAME self) f)
          new.
Proof.
  intros line rb self Hs.
  apply (appended_after_acknowledge line self).
  destruct Hs as [[Hn Hr] | [x Hx]].
  - rewrite Hn. apply table_before_identification; assumption.
  - exact (@table_in_step _ x line rb self eq_refl Hx).
Qed.

Lemma undefined_values_witness :
  in_step (initial false) /\
  exists new,
    data (eepromFieldParse "M900 K0.20" true (initial false))
      eepromDataLinear =
    data (initial false) eepromDataLinear ++ new /\
    Forall
      (fun f =>
         value f = VUndef ->
         reads_past_the_match (FIRMWARE_NAME (initial false)) f)
      new.
Proof.
  assert (H : in_step (initial false)) by (left; split; reflexivity).
  split; [exact H | ].
  exact (undefined_values_are_read_past_the_match "M900 K0.20" true H
           eepromDataLinear).
Defined.

(** ** Which letter an entry shows *)

Lemma group_texts_nth :
  forall ic ns ts,
    Forall2 (fun n t => piece_ok ic (piece_of n) t) ns ts ->
    forall k n,
      nth_error (filter is_group ns) k = Some n ->
      exists t,
        nth_error (group_texts ns ts) k = Some (VStr (string_of_list_ascii t)) /\
        piece_ok ic (piece_of n) t.
Proof.
  intros ic ns ts H. induction H as [ | n0 t0 ns ts Hp _ IH]; intros k n Hk.
  - destruct k; discriminate Hk.
  - destruct n0 as [p | p]; cbn [filter is_group group_texts] in *.
    + exact (IH k n Hk).
    + destruct k as [ | k]; cbn [nth_error] in *.
      * injection Hk as <-. exists t0; split; [reflexivity | exact Hp].
      * exact (IH k n Hk).
Qed.

(** A capture made of one given letter holds that letter. *)
Lemma exec_letter :
  forall rx str m k c,
    exec rx str = Some m ->
    ignoreCase rx = false ->
    nth_error (filter is_group (nodes rx)) k =
    Some (Group (One (AClass false [CChar c]))) ->
    m.[S k] = VStr (String c "").
Proof.
  intros rx str m k c H Hic Hk. apply exec_sound in H.
  destruct H as [b [ts [a [_ [Hacc ->]]]]].
  destruct (@group_texts_nth _ _ _ Hacc _ _ Hk) as [t [Ht Hp]].
  unfold at_index. cbn [nth].
  rewrite (@nth_error_nth _ _ _ _ VUndef Ht).
  cbn [piece_of piece_ok] in Hp. destruct Hp as [c' [-> Hc]].
  rewrite Hic in Hc. cbn [atom_match existsb citem_match xorb] in Hc.
  rewrite orb_false_r in Hc. unfold char_eq, canonicalize in Hc.
  apply Ascii.eqb_eq in Hc. subst c'. reflexivity.
Qed.

(** An entry read at the place of its letter, or one of the listed. *)
Ltac aligned_or_listed :=
  cbv beta;
  first
    [ left; unfold aligned; cbn [value dataType];
      match goal with
      | Hm : exec ?rx _ = Some ?m |- _ =>
          exists rx, m; eexists;
          split; [simpl; tauto | ];
          split; [exact Hm | ];
          split; [ | reflexivity];
          match goal with
          | |- _ = VStr (letter_of ?dt) =>
              let l := eval vm_compute in (letter_of dt) in
              change (letter_of dt) with l
          end;
          apply (@exec_letter _ _ _ _ _ Hm); vm_compute; reflexivity
      end
    | right; unfold misaligned; cbn [dataType];
      first [ left; simpl; tauto
            | right; left; split; [simpl; tauto | simpl; tauto]
            | right; right; split; [assumption | simpl; tauto] ] ].

Ltac letters_walk line self fw G Hname Hre btac :=
  let a := fresh "a" in
  let Ca := fresh "Ca" in
  let ctx := fresh "ctx" in
  let H := fresh "H" in
  set (a := acknowledge line self);
  assert (Ca : context G fw a)
    by (apply acknowledge_context; split; [exact Hre | exact Hname]);
  pose proof (appended_context
                (P := fun f => aligned G line f \/ misaligned fw f) Ca)
    as ctx;
  after_acknowledge line self; fold a;
  match goal with
  | |- appended ?P a (?E a) => assert (H : preserves (appended P a) E)
  end;
  [ appended_walk ctx btac aligned_or_listed
  | apply H, appended_refl ].

Lemma letters_before_identification :
  forall line restoreBackup self,
    FIRMWARE_NAME self = "" ->
    re self = bugfix_grammar ->
    appended
      (fun f => aligned bugfix_grammar line f \/ misaligned "" f)
      (acknowledge line self) (eepromFieldParse line restoreBackup self).
Proof.
  intros line rb self Hname Hre.
  letters_walk line self "" bugfix_grammar Hname Hre known_branch.
Qed.

Lemma letters_bugfix :
  forall line restoreBackup self,
    FIRMWARE_NAME self = "Marlin bugfix-2.0.x" ->
    re self = bugfix_grammar ->
    appended
      (fun f => aligned bugfix_grammar line f \/ misaligned "Marlin bugfix-2.0.x" f)
      (acknowledge line self) (eepromFieldParse line restoreBackup self).
Proof.
  intros line rb self Hname Hre.
  letters_walk line self "Marlin bugfix-2.0.x" bugfix_grammar Hname Hre
    known_branch.
Qed.

Lemma letters_first_branch :
  forall fw line restoreBackup self,
    existsb (String.eqb fw)
      ["Marlin 1.1.0-RC8"; "Marlin 1.1.1"; "Marlin 1.1.2"; "Marlin 1.1.3";
       "Marlin 1.1.4"; "Marlin 1.1.5"; "Marlin 1.1.6"; "Marlin 1.1.7";
       "Marlin 1.1.8"; "Marlin bugfix-2.0.x";
       "Marlin bugfix-2.0.x (Github)"] = true ->
    FIRMWARE_NAME self = fw ->
    re self = stable_grammar ->
    appended
      (fun f => aligned stable_grammar line f \/ misaligned fw f)
      (acknowledge line self) (eepromFieldParse line restoreBackup self).
Proof.
  intros fw line rb self T1 Hname Hre.
  letters_walk line self fw stable_grammar Hname Hre known_branch.
Qed.

Lemma letters_last_branch :
  forall fw line restoreBackup self,
    existsb (String.eqb fw)
      ["Marlin 1.1.0-RC8"; "Marlin 1.1.1"; "Marlin 1.1.2"; "Marlin 1.1.3";
       "Marlin 1.1.4"; "Marlin 1.1.5"; "Marlin 1.1.6"; "Marlin 1.1.7";
       "Marlin 1.1.8"; "Marlin bugfix-2.0.x";
       "Marlin bugfix-2.0.x (Github)"] = false ->
    existsb (String.eqb fw)
      ["Marlin 1.1.0-RC1"; "Marlin 1.1.0-RC2"; "Marlin 1.1.0-RC3";
       "Marlin 1.1.0-RC4"; "Marlin 1.1.0-RC5"; "Marlin 1.1.0-RC6";
       "Marlin 1.1.0-RC7"] = false ->
    existsb (String.eqb fw)
      ["Marlin 1.0.2+"; "Marlin V1.0.2;"; "Marlin 1.0.2"; "Marlin V1;"] =
    false ->
    FIRMWARE_NAME self = fw ->
    re self = stable_grammar ->
    appended
      (fun f => aligned stable_grammar line f \/ misaligned fw f)
      (acknowledge line self) (eepromFieldParse line restoreBackup self).
Proof.
  intros fw line rb self T1 T2 T3 Hname Hre.
  letters_walk line self fw stable_grammar Hname Hre known_branch.
Qed.

Lemma letters_rc :
  forall fw line restoreBackup self,
    In fw rc_names ->
    existsb (String.eqb fw)
      ["Marlin 1.1.0-RC8"; "Marlin 1.1.1"; "Marlin 1.1.2"; "Marlin 1.1.3";
       "Marlin 1.1.4"; "Marlin 1.1.5"; "Marlin 1.1.6"; "Marlin 1.1.7";
       "Marlin 1.1.8"; "Marlin bugfix-2.0.x";
       "Marlin bugfix-2.0.x (Github)"] = false ->
    existsb (String.eqb fw)
      ["Marlin 1.1.0-RC1"; "Marlin 1.1.0-RC2"; "Marlin 1.1.0-RC3";
       "Marlin 1.1.0-RC4"; "Marlin 1.1.0-RC5"; "Marlin 1.1.0-RC6";
       "Marlin 1.1.0-RC7"] = true ->
    FIRMWARE_NAME self = fw ->
    re self = rc_grammar ->
    appended
      (fun f => aligned rc_grammar line f \/ misaligned fw f)
      (acknowledge line self) (eepromFieldParse line restoreBackup self).
Proof.
  intros fw line rb self Hin T1 T2 Hname Hre.
  letters_walk line self fw rc_grammar Hname Hre known_branch.
Qed.

Lemma letters_legacy :
  forall fw old line restoreBackup self,
    existsb (String.eqb fw)
      ["Marlin 1.1.0-RC8"; "Marlin 1.1.1"; "Marlin 1.1.2"; "Marlin 1.1.3";
       "Marlin 1.1.4"; "Marlin 1.1.5"; "Marlin 1.1.6"; "Marlin 1.1.7";
       "Marlin 1.1.8"; "Marlin bugfix-2.0.x";
       "Marlin bugfix-2.0.x (Github)"] = false ->
    existsb (String.eqb fw)
      ["Marlin 1.1.0-RC1"; "Marlin 1.1.0-RC2"; "Marlin 1.1.0-RC3";
       "Marlin 1.1.0-RC4"; "Marlin 1.1.0-RC5"; "Marlin 1.1.0-RC6";
       "Marlin 1.1.0-RC7"] = false ->
    existsb (String.eqb fw)
      ["Marlin 1.0.2+"; "Marlin V1.0.2;"; "Marlin 1.0.2"; "Marlin V1;"] =
    true ->
    FIRMWARE_NAME self = fw ->
    re self = legacy_grammar old ->
    appended
      (fun f => aligned (legacy_grammar old) line f \/ misaligned fw f)
      (acknowledge line self) (eepromFieldParse line restoreBackup self).
Proof.
  intros fw old line rb self T1 T2 T3 Hname Hre.
  letters_walk line self fw (legacy_grammar old) Hname Hre known_branch.
Qed.

(** The extractor under the patterns of the name, class by class. *)
Lemma letters_in_step :
  forall fw x line restoreBackup self,
    FIRMWARE_NAME self = fw ->
    re self = re (setRegExVars fw x) ->
    appended
      (fun f => aligned (re self) line f \/ misaligned fw f)
      (acknowledge line self) (eepromFieldParse line restoreBackup self).
Proof.
  intros fw x line rb self Hname Hre.
  rewrite name_grammar in Hre.
  destruct (branch_tests fw)
    as [[Hin T1] | [[Hin [T1 T2]] | [[Hin [T1 [T2 T3]]] | [T1 [T2 T3]]]]].
  - destruct (String.eqb_spec fw "Marlin bugfix-2.0.x") as [E | E].
    + rewrite Hre. rewrite E in Hname |- *.
      apply letters_bugfix; assumption.
    + assert (R : existsb (String.eqb fw) rc_names = false).
      { clear - Hin. unfold first_branch_names in Hin. simpl in Hin.
        repeat match type of Hin with
               | _ \/ _ => destruct Hin as [Hin | Hin]
               end;
          try contradiction; subst fw; reflexivity. }
      assert (L : existsb (String.eqb fw) legacy_names = false).
      { clear - Hin. unfold first_branch_names in Hin. simpl in Hin.
        repeat match type of Hin with
               | _ \/ _ => destruct Hin as [Hin | Hin]
               end;
          try contradiction; subst fw; reflexivity. }
      rewrite R, L in Hre. rewrite Hre.
      apply letters_first_branch; assumption.
  - assert (B : String.eqb fw "Marlin bugfix-2.0.x" = false).
    { clear - Hin. unfold rc_names in Hin. simpl in Hin.
      repeat match type of Hin with
             | _ \/ _ => destruct Hin as [Hin | Hin]
             end;
        try contradiction; subst fw; reflexivity. }
    unfold rc_names in Hre. rewrite B, T2 in Hre. rewrite Hre.
    apply letters_rc; assumption.
  - assert (B : String.eqb fw "Marlin bugfix-2.0.x" = false).
    { clear - Hin. unfold legacy_names in Hin. simpl in Hin.
      repeat match type of Hin with
             | _ \/ _ => destruct Hin as [Hin | Hin]
             end;
        try contradiction; subst fw; reflexivity. }
    unfold rc_names, legacy_names in Hre. rewrite B, T2, T3 in Hre.
    rewrite Hre. apply letters_legacy with (old := re x); assumption.
  - assert (B : String.eqb fw "Marlin bugfix-2.0.x" = false).
    { cbn [existsb] in T1.
      repeat match goal with
             | E : (_ || _)%bool = false |- _ =>
                 apply orb_false_elim in E; destruct E
             end.
      assumption. }
    unfold rc_names, legacy_names in Hre. rewrite B, T2, T3 in Hre.
    rewrite Hre. apply letters_last_branch; assumption.
Qed.

(** X13: which letter an entry shows.  When the patterns are in step with
    the firmware name, the value of an entry the extractor appends is the
    capture that follows the capture of the entry's own letter, except for
    the listed entries: 'M665 S', 'M665 A' and 'M665 C', read where the
    pattern captures other letters; 'M420 Z', whose letter is optional in
    the pattern; 'M205 S', 'M205 T', 'M205 B' and 'M900 R' under the
    patterns of the bugfix branch; 'M205 Y', 'M205 Z' and 'M205 E' under
    the names of the release candidates 1 to 7. *)
Theorem entries_show_the_value_of_their_letter :
  forall line restoreBackup self,
    in_step self ->
    forall s,
      exists new,
        data (eepromFieldParse line restoreBackup self) s =
        data self s ++ new /\
        Forall
          (fun f =>
             aligned (re self) line f \/
             misaligned (FIRMWARE_NAME self) f)
          new.
Proof.
  intros line rb self Hs.
  apply (appended_after_acknowledge line self).
  destruct Hs as [[Hn Hr] | [x Hx]].
  - rewrite Hn, Hr. apply letters_before_identification; assumption.
  - exact (@letters_in_step _ x line rb self eq_refl Hx).
Qed.

Lemma entries_show_the_value_of_their_letter_witness :
  in_step sample_marlin /\
  exists new,
    data (eepromFieldParse "M665 L1 R2 H3 S4 B5 X6 Y7 Z8" false sample_marlin)
      eepromDataDelta1 =
    data sample_marlin eepromDataDelta1 ++ new /\
    Forall
      (fun f =>
         aligned (re sample_marlin) "M665 L1 R2 H3 S4 B5 X6 Y7 Z8" f \/
         misaligned (FIRMWARE_NAME sample_marlin) f)
      new.
Proof.
  assert (H : in_step sample_marlin).
  { right. exists (initial false). vm_compute. reflexivity. }
  split; [exact H | ].
  exact (entries_show_the_value_of_their_letter
           "M665 L1 R2 H3 S4 B5 X6 Y7 Z8" false H eepromDataDelta1).
Defined.

(** ** The jerks under the names of the release candidates *)

Lemma M205_rc_emits :
  forall g fw line m restoreBackup self,
    eepromM205RegEx g = Lit.M205_noY ->
    In fw rc_names ->
    context g fw self ->
    exec Lit.M205_noY line = Some m ->
    data (eepromFieldParse line restoreBackup self) eepromData2 =
    data self eepromData2 ++ M205_rc_jerks restoreBackup m.
Proof.
  intros g fw line m rb self HM205 Hin C Hm.
  assert (T1 : existsb (String.eqb fw)
                 ["Marlin 1.1.0-RC8"; "Marlin 1.1.1"; "Marlin 1.1.2";
                  "Marlin 1.1.3"; "Marlin 1.1.4"; "Marlin 1.1.5";
                  "Marlin 1.1.6"; "Marlin 1.1.7"; "Marlin 1.1.8";
                  "Marlin bugfix-2.0.x"; "Marlin bugfix-2.0.x (Github)"] =
               false).
  { unfold rc_names in Hin. simpl in Hin.
    repeat destruct Hin as [Hin | Hin]; try contradiction; subst fw;
      reflexivity. }
  assert (T2 : existsb (String.eqb fw)
                 ["Marlin 1.1.0-RC1"; "Marlin 1.1.0-RC2"; "Marlin 1.1.0-RC3";
                  "Marlin 1.1.0-RC4"; "Marlin 1.1.0-RC5"; "Marlin 1.1.0-RC6";
                  "Marlin 1.1.0-RC7"] = true).
  { unfold rc_names in Hin. simpl in Hin.
    repeat destruct Hin as [Hin | Hin]; try contradiction; subst fw;
      reflexivity. }
  after_acknowledge line self.
  match goal with
  | |- data (?E _) _ = _ =>
      assert (H : emits_at g fw eepromData2 (M205_rc_jerks rb m) E)
  end.
  { skip_untouched.
    apply emits_if_firmware_name; intros E; [congruence | ].
    apply emits_if_firmware_name; intros E'; [ | congruence].
    rewrite <- (app_nil_r (M205_rc_jerks rb m)).
    apply emits_seq; [ | untouched_walk].
    apply emits_on_match_some with (m := m); [rewrite HM205; exact Hm | ].
    apply (@emits_seq _ _ _ [] _); [exact (@emits_push _ _ _ _ _) | ].
    apply (@emits_seq _ _ _ [] _); [exact (@emits_push _ _ _ _ _) | ].
    apply (@emits_seq _ _ _ [] _); [exact (@emits_push _ _ _ _ _) | ].
    apply (@emits_seq _ _ _ [_] [_; _; _]);
      [exact (@emits_push _ _ _ _ _) | ].
    apply (@emits_seq _ _ _ [_] [_; _]);
      [exact (@emits_push _ _ _ _ _) | ].
    apply (@emits_seq _ _ _ [_] [_]); exact (@emits_push _ _ _ _ _). }
  destruct (H (acknowledge line self) (acknowledge_context line C)) as [_ Hd].
  rewrite Hd, acknowledge_data. reflexivity.
Qed.

(** X14: the jerks of the release candidates.  Under a firmware name of
    the release candidates 1 to 7 and its patterns, whose advanced pattern
    has no Y, a line that pattern matches appends four jerk entries read as
    if it had one: 'M205 Y' holds the value captured after the letter Z,
    'M205 Z' the value captured after the letter E, and 'M205 E' is
    [undefined]. *)
Theorem release_candidate_jerks_are_shifted :
  forall fw x line m restoreBackup self,
    In fw rc_names ->
    FIRMWARE_NAME self = fw ->
    re self = re (setRegExVars fw x) ->
    exec (eepromM205RegEx (re self)) line = Some m ->
    data (eepromFieldParse line restoreBackup self) eepromData2 =
    data self eepromData2 ++ M205_rc_jerks restoreBackup m /\
    map dataType (M205_rc_jerks restoreBackup m) =
    ["M205 X"; "M205 Y"; "M205 Z"; "M205 E"] /\
    map value (M205_rc_jerks restoreBackup m) =
    [m.[8]; m.[10]; m.[12]; VUndef] /\
    m.[7] = VStr "X" /\ m.[9] = VStr "Z" /\ m.[11] = VStr "E".
Proof.
  intros fw x line m rb self Hin Hname Hre Hm.
  assert (HG : eepromM205RegEx (re self) = Lit.M205_noY).
  { rewrite Hre. unfold rc_names in Hin. simpl in Hin.
    repeat destruct Hin as [Hin | Hin]; try contradiction; subst fw;
      reflexivity. }
  rewrite HG in Hm.
  split; [ | split; [reflexivity | split; [ | split; [ | split]]]].
  - apply M205_rc_emits with (g := re self) (fw := fw);
      [exact HG | exact Hin | split; [reflexivity | exact Hname] | exact Hm].
  - cbn [map M205_rc_jerks value].
    rewrite (@exec_past_end _ _ _ 14 Hm) by (vm_compute; reflexivity).
    reflexivity.
  - apply (@exec_letter _ _ _ 6 _ Hm); vm_compute; reflexivity.
  - apply (@exec_letter _ _ _ 8 _ Hm); vm_compute; reflexivity.
  - apply (@exec_letter _ _ _ 10 _ Hm); vm_compute; reflexivity.
Qed.

Lemma release_candidate_jerks_witness :
  let m :=
    [VStr "M205 S0.00 T0.00 B20000 X20.00 Z0.40 E5.00";
     VStr "S"; VStr "0.00"; VStr "T"; VStr "0.00"; VStr "B"; VStr "20000";
     VStr "X"; VStr "20.00"; VStr "Z"; VStr "0.40"; VStr "E"; VStr "5.00"] in
  In "Marlin 1.1.0-RC3" rc_names /\
  FIRMWARE_NAME sample_rc = "Marlin 1.1.0-RC3" /\
  re sample_rc = re (setRegExVars "Marlin 1.1.0-RC3" (initial false)) /\
  exec (eepromM205RegEx (re sample_rc)) M205_rc_line = Some m /\
  data (eepromFieldParse M205_rc_line false sample_rc) eepromData2 =
  data sample_rc eepromData2 ++ M205_rc_jerks false m /\
  map value (M205_rc_jerks false m) =
  [VStr "20.00"; VStr "0.40"; VStr "5.00"; VUndef].
Proof.
  intros m.
  assert (H1 : In "Marlin 1.1.0-RC3" rc_names) by (simpl; tauto).
  assert (H2 : FIRMWARE_NAME sample_rc = "Marlin 1.1.0-RC3")
    by (vm_compute; reflexivity).
  assert (H3 : re sample_rc =
               re (setRegExVars "Marlin 1.1.0-RC3" (initial false)))
    by (vm_compute; reflexivity).
  assert (H4 : exec (eepromM205RegEx (re sample_rc)) M205_rc_line = Some m)
    by (vm_compute; reflexivity).
  split; [exact H1 | split; [exact H2 | split; [exact H3 | ]]].
  split; [exact H4 | ].
  destruct (@release_candidate_jerks_are_shifted "Marlin 1.1.0-RC3"
              (initial false) M205_rc_line m false sample_rc H1 H2 H3 H4)
    as [A [_ [B _]]].
  split; [exact A | exact B].
Defined.

(** ** The linear-advance ratio after a restore *)

Lemma M900_emits :
  forall g fw line m restoreBackup self,
    context g fw self ->
    exec (eepromM900RegEx g) line = Some m ->
    data (eepromFieldParse line restoreBackup self) eepromDataLinear =
    data self eepromDataLinear ++ M900_fields restoreBackup m.
Proof.
  intros g fw line m rb self C Hm.
  after_acknowledge line self.
  match goal with
  | |- data (?E _) _ = _ =>
      assert (H : emits_at g fw eepromDataLinear (M900_fields rb m) E)
  end.
  { skip_untouched.
    rewrite <- (app_nil_r (M900_fields rb m)).
    apply emits_seq; [ | untouched_walk].
    apply emits_on_match_some with (m := m); [exact Hm | ].
    apply (@emits_seq _ _ _ [_] [_]); exact (@emits_push _ _ _ _ _). }
  destruct (H (acknowledge line self) (acknowledge_context line C)) as [_ Hd].
  rewrite Hd, acknowledge_data. reflexivity.
Qed.

Lemma each_restore_keeps :
  forall lines x s f,
    In f (data x s) ->
    In f (data (each lines (fun line => eepromFieldParse line true) x) s).
Proof.
  intros lines x s f Hf.
  destruct (each_restore lines x s) as [_ [new [-> _]]].
  apply in_or_app; left; exact Hf.
Qed.

Lemma each_restore_linear :
  forall lines x line m f,
    In line lines ->
    exec (eepromM900RegEx (re x)) line = Some m ->
    In f (M900_fields true m) ->
    In f (data (each lines (fun line => eepromFieldParse line true) x)
            eepromDataLinear).
Proof.
  induction lines as [ | l lines IH]; intros x line m f Hin Hm Hf;
    [contradiction Hin | ].
  rewrite each_cons. destruct Hin as [-> | Hin].
  - apply each_restore_keeps.
    rewrite (@M900_emits (re x) (FIRMWARE_NAME x) line m true x);
      [ | split; reflexivity | exact Hm].
    apply in_or_app; right; exact Hf.
  - apply (IH _ line m f Hin); [ | exact Hf].
    rewrite eepromFieldParse_re. exact Hm.
Qed.

(** X15: the linear-advance ratio after a restore.  Under the
    linear-advance pattern of the bugfix branch, which is also the one in
    place before any identification, the pattern has three captures and the
    script reads the fourth: restoring a file with a line the pattern
    matches builds an 'M900 R' entry whose value is [undefined] and whose
    [origValue] is the empty string, so the [saveEeprom] that follows
    sends the command "M900 Rundefined" to the printer. *)
Theorem restored_linear_ratio_is_sent_undefined :
  forall result self line m,
    eepromM900RegEx (re self) = Lit.M900_bugfix ->
    In line (split_lines result) ->
    exec Lit.M900_bugfix line = Some m ->
    let restored := handleFileSelect_onload result self in
    (exists f,
       In f (data restored eepromDataLinear) /\
       dataType f = "M900 R" /\ origValue f = VStr "" /\
       value f = VUndef) /\
    In "M900 Rundefined" (sent (saveEeprom restored)).
Proof.
  intros result self line m HG Hin Hm restored.
  set (f := {| dataType := "M900 R"; label := "Linear Ratio";
               origValue := VStr ""; value := VUndef;
               unit_ := "mm"; description := "" |}).
  assert (Hu : m.[4] = VUndef).
  { apply (@exec_past_end _ _ _ 4 Hm). vm_compute; reflexivity. }
  assert (Hf : In f (data restored eepromDataLinear)).
  { unfold restored. rewrite handleFileSelect_onload_each.
    destruct (restore_start result self) as [Hre _].
    apply (@each_restore_linear _ _ line m f Hin).
    - rewrite Hre, HG. exact Hm.
    - unfold M900_fields. rewrite Hu. right; left; reflexivity. }
  split.
  - exists f. repeat split; [exact Hf].
  - rewrite saveEeprom_sent.
    apply in_or_app; right. apply in_or_app; left.
    change "M900 Rundefined" with (command_of f).
    apply in_map. apply in_diff.
    exists eepromDataLinear. split; [exact Hf | discriminate].
Qed.

Lemma restored_linear_ratio_witness :
  let result := ("echo:  M92 X80.00 Y80.00 Z400.00 E500.00" ++ LF ++
                 "echo:  M900 K0.22")%string in
  eepromM900RegEx (re (initial false)) = Lit.M900_bugfix /\
  In "echo:  M900 K0.22" (split_lines result) /\
  exec Lit.M900_bugfix "echo:  M900 K0.22" =
  Some [VStr "M900 K0.22"; VStr "K"; VStr "0.22"; VStr ""] /\
  In "M900 Rundefined"
    (sent (saveEeprom (handleFileSelect_onload result (initial false)))).
Proof.
  intros result.
  assert (H1 : eepromM900RegEx (re (initial false)) = Lit.M900_bugfix)
    by reflexivity.
  assert (H2 : In "echo:  M900 K0.22" (split_lines result))
    by (vm_compute; tauto).
  assert (H3 : exec Lit.M900_bugfix "echo:  M900 K0.22" =
               Some [VStr "M900 K0.22"; VStr "K"; VStr "0.22"; VStr ""])
    by (vm_compute; reflexivity).
  split; [exact H1 | split; [exact H2 | split; [exact H3 | ]]].
  exact (proj2 (@restored_linear_ratio_is_sent_undefined result
                  (initial false) "echo:  M900 K0.22" _ H1 H2 H3)).
Defined.

(** ** What [setRegExVars] keeps *)

(** X16: [setRegExVars] overwrites.  The patterns after a call depend on
    the version alone, whatever was there before, except under the names of
    the 1.0.2 family, where the three material-heatup patterns are not
    assigned and stay what the former call made them. *)
Theorem setRegExVars_overwrites_but_the_legacy_heatup :
  forall version a b,
    re (setRegExVars version a) =
    if existsb (String.eqb version) legacy_names then
      keep_M145 (re a) (re (setRegExVars version b))
    else re (setRegExVars version b).
Proof.
  intros version a b.
  destruct (in_dec string_dec version compared_names) as [Hin | Hnot].
  - unfold compared_names, enumerated_names, bugfix_names, stable_names,
      rc_names, legacy_names in Hin.
    simpl in Hin.
    repeat match type of Hin with
           | _ \/ _ => destruct Hin as [Hin | Hin]
           end;
      try contradiction; subst version; vm_compute; reflexivity.
  - assert (He : ~ In version enumerated_names).
    { intros H; apply Hnot. unfold compared_names.
      apply in_or_app; left; exact H. }
    assert (Hl : existsb (String.eqb version) legacy_names = false).
    { apply not_in_eqb. intros H; apply He.
      unfold enumerated_names. apply in_or_app; right.
      apply in_or_app; right. apply in_or_app; right. exact H. }
    rewrite Hl, !(setRegExVars_other _ He). reflexivity.
Qed.

(** ** The visibility flags *)

Lemma positive_grows :
  forall a n : nat, Bool.le (0 <? a)%nat (0 <? a + n)%nat.
Proof.
  intros a n. destruct (0 <? a)%nat eqn:E; [ | exact I].
  apply Nat.ltb_lt in E. apply Nat.ltb_lt. lia.
Qed.

Lemma extractor_lengths :
  forall line restoreBackup self s,
    exists n,
      List.length (data (eepromFieldParse line restoreBackup self) s) =
      List.length (data self s) + n.
Proof.
  intros line rb self s.
  destruct (eepromFieldParse_rest line rb self)
    as [_ [_ [_ [_ [_ [_ [_ [_ [_ [_ [_ [_ [_ H]]]]]]]]]]]]].
  destruct (H s) as [new ->]. exists (List.length new). apply length_app.
Qed.

(** X17: the sections shown.  After [loadEeprom] the eleven computed
    flags are all false; the extractor never turns one off; and an entry of
    the bed-leveling array or of the linear-advance array turns none on:
    no flag reads these two arrays. *)
Theorem flags_follow_the_arrays :
  (forall self, flags (loadEeprom self) = repeat false 11) /\
  (forall line restoreBackup self,
     Forall2 Bool.le (flags self)
       (flags (eepromFieldParse line restoreBackup self))) /\
  (forall f self,
     flags (push eepromDataLevel f self) = flags self /\
     flags (push eepromDataLinear f self) = flags self).
Proof.
  split; [ | split].
  - intros self.
    unfold flags, eepromDataCount, eepromDataStepsCount,
      eepromDataFRatesCount, eepromDataMaxAccelCount, eepromDataAccelCount,
      eepromDataPIDCount, eepromDataHomingCount, eepromDataMaterialCount,
      eepromDataFilamentCount, eepromDataEndstopCount, eepromDataDeltaCount.
    rewrite !loadEeprom_data. reflexivity.
  - intros line rb self.
    unfold flags, eepromDataCount, eepromDataStepsCount,
      eepromDataFRatesCount, eepromDataMaxAccelCount, eepromDataAccelCount,
      eepromDataPIDCount, eepromDataHomingCount, eepromDataMaterialCount,
      eepromDataFilamentCount, eepromDataEndstopCount, eepromDataDeltaCount.
    repeat match goal with
           | |- context [List.length
                           (data (eepromFieldParse line rb self) ?s)] =>
               let n := fresh "n" in
               let E := fresh "E" in
               destruct (extractor_lengths line rb self s) as [n E];
               rewrite E; clear E
           end.
    repeat constructor;
      match goal with
      | |- Bool.le (0 <? ?a)%nat (0 <? ?b)%nat =>
          replace b with (a + (b - a)) by lia; apply positive_grows
      end.
  - intros f self. split; reflexivity.
Qed.

(** ** The last value of a line *)

(** A greedy repetition in front of a continuation that never fails takes
    all it can. *)
Lemma repeat_greedy_last :
  forall ic (R : Type) a s taken (g : list ascii -> list ascii -> R),
    exists t r,
      s = t ++ r /\
      Forall (fun c => atom_match ic a c = true) t /\
      (r = [] \/ exists c r', r = c :: r' /\ atom_match ic a c = false) /\
      repeat_greedy ic a s taken (fun t r => Some (g t r)) =
      Some (g (rev taken ++ t) r).
Proof.
  intros ic R a s; induction s as [ | c s IH]; intros taken g.
  - exists [], [].
    split; [reflexivity | split; [constructor | split; [left; reflexivity | ]]].
    cbn [repeat_greedy]. rewrite app_nil_r. reflexivity.
  - cbn [repeat_greedy]. destruct (atom_match ic a c) eqn:Hc.
    + destruct (IH (c :: taken) g) as [t [r [-> [Ht [Hr E]]]]].
      exists (c :: t), r. rewrite E.
      cbn [rev]. rewrite <- app_assoc.
      split; [reflexivity | ].
      split; [constructor; [exact Hc | exact Ht] | ].
      split; [exact Hr | reflexivity].
    + exists [], (c :: s).
      split; [reflexivity | ].
      split; [constructor | ].
      split; [ | rewrite app_nil_r; reflexivity].
      right; exists c, s; split; [reflexivity | exact Hc].
Qed.

Lemma match_nodes_last :
  forall ic ns a s whole caps f,
    match_nodes ic (ns ++ [Group (Star a)]) s whole caps = Some f ->
    (rest f = [] \/
     exists c r, rest f = c :: r /\ atom_match ic a c = false) /\
    exists t,
      Forall (fun c => atom_match ic a c = true) t /\
      (exists prefix, matched f = prefix ++ t) /\
      (exists before,
         captures f = before ++ [VStr (string_of_list_ascii t)]).
Proof.
  intros ic ns a; induction ns as [ | n ns IH]; intros s whole caps f H.
  - cbn [app match_nodes piece_match] in H.
    destruct (repeat_greedy_last ic a s []
                (fun t r =>
                   {| matched := rev (rev t ++ whole);
                      captures :=
                        rev (VStr (string_of_list_ascii t) :: caps);
                      rest := r |})) as [t [r [_ [Ht [Hr E]]]]].
    rewrite E in H. injection H as <-. cbn [rest matched captures rev app].
    split; [exact Hr | ].
    exists t. split; [exact Ht | ]. split.
    + exists (rev whole). rewrite rev_app_distr, rev_involutive. reflexivity.
    + exists (rev caps). reflexivity.
  - cbn [app match_nodes] in H.
    destruct n as [p | p];
      destruct (piece_match_inv _ _ _ _ H) as [t [r [_ [_ Hk]]]];
      exact (IH _ _ _ _ Hk).
Qed.

Lemma string_of_list_ascii_app :
  forall a b,
    string_of_list_ascii (a ++ b) =
    (string_of_list_ascii a ++ string_of_list_ascii b)%string.
Proof.
  intros a b; induction a as [ | c a IH]; [reflexivity | ].
  cbn [app string_of_list_ascii String.append]. rewrite IH. reflexivity.
Qed.

(** One position of the search: a match found here ends where the last
    group stops. *)
Lemma match_here_last :
  forall rx ns a s f,
    nodes rx = ns ++ [Group (Star a)] ->
    match_here rx s = Some f ->
    exists t,
      s = matched f ++ rest f /\
      (match_array f).[groups rx] = VStr (string_of_list_ascii t) /\
      Forall (fun c => atom_match (ignoreCase rx) a c = true) t /\
      (exists prefix, matched f = prefix ++ t) /\
      (rest f = [] \/
       exists c r', rest f = c :: r' /\
                    atom_match (ignoreCase rx) a c = false).
Proof.
  intros rx ns a s f Hn E.
  pose proof (match_nodes_captures _ _ _ _ _ E) as Hl.
  pose proof E as E'. unfold match_here in E'. rewrite Hn in E'.
  destruct (match_nodes_last _ _ _ _ _ _ E')
    as [Hr [t [Ht [[prefix Hm] [bc Hc]]]]].
  apply match_nodes_sound in E.
  destruct E as [ts [_ [Hs' [Hm' _]]]].
  exists t. cbn [app] in *.
  split; [rewrite Hs', Hm'; reflexivity | ].
  split.
  { unfold at_index, match_array, groups. simpl in Hl.
    rewrite <- Hl, Hc, length_app. cbn [List.length].
    rewrite Nat.add_1_r. cbn [nth].
    rewrite app_nth2 by lia. rewrite Nat.sub_diag. reflexivity. }
  split; [exact Ht | ].
  split; [exists prefix; exact Hm | exact Hr].
Qed.

(** The match of a pattern that ends in a greedy group reaches the first
    character the group rejects after the place where the group starts, or
    the end of the text. *)
Lemma exec_runs_to_end :
  forall rx ns a str m,
    nodes rx = ns ++ [Group (Star a)] ->
    exec rx str = Some m ->
    exists before v after,
      str = (before ++ to_str m.[0] ++ after)%string /\
      m.[groups rx] = VStr v /\
      (exists prefix, to_str m.[0] = (prefix ++ v)%string) /\
      Forall (fun c => atom_match (ignoreCase rx) a c = true)
        (list_ascii_of_string v) /\
      (after = "" \/
       exists c after', after = String c after' /\
                        atom_match (ignoreCase rx) a c = false).
Proof.
  intros rx ns a str m Hn H.
  assert (G : forall s,
             search rx s = Some m ->
             exists b w t r,
               s = b ++ w ++ r /\
               m.[0] = VStr (string_of_list_ascii w) /\
               m.[groups rx] = VStr (string_of_list_ascii t) /\
               Forall (fun c => atom_match (ignoreCase rx) a c = true) t /\
               (exists prefix, w = prefix ++ t) /\
               (r = [] \/
                exists c r', r = c :: r' /\
                             atom_match (ignoreCase rx) a c = false)).
  { assert (Here : forall s f,
               match_here rx s = Some f -> Some (match_array f) = Some m ->
               exists b w t r,
                 s = b ++ w ++ r /\
                 m.[0] = VStr (string_of_list_ascii w) /\
                 m.[groups rx] = VStr (string_of_list_ascii t) /\
                 Forall (fun c => atom_match (ignoreCase rx) a c = true) t /\
                 (exists prefix, w = prefix ++ t) /\
                 (r = [] \/
                  exists c r', r = c :: r' /\
                               atom_match (ignoreCase rx) a c = false)).
    { intros s f E Hs. injection Hs as <-.
      destruct (@match_here_last _ _ _ _ _ Hn E) as [t [Hs [Hg [Ht [Hp Hr]]]]].
      exists [], (matched f), t, (rest f).
      split; [exact Hs | ].
      split; [reflexivity | ].
      split; [exact Hg | ].
      split; [exact Ht | ].
      split; [exact Hp | exact Hr]. }
    induction s as [ | c s IH]; cbn [search];
      destruct (match_here rx _) as [f | ] eqn:E; intros Hs;
      try discriminate; try exact (Here _ _ E Hs).
    destruct (IH Hs) as [b [w [t [r [-> [H0 [Hg [Ht [Hp Hr]]]]]]]]].
    exists (c :: b), w, t, r. repeat split; assumption. }
  destruct (G _ H) as [b [w [t [r [Hs [H0 [Hg [Ht [[prefix Hp] Hr]]]]]]]]].
  exists (string_of_list_ascii b), (string_of_list_ascii t),
    (string_of_list_ascii r).
  rewrite H0. cbn [to_str].
  split.
  { rewrite <- !string_of_list_ascii_app, <- Hs.
    symmetry; apply string_of_list_ascii_of_string. }
  split; [exact Hg | ].
  split.
  { exists (string_of_list_ascii prefix).
    rewrite <- string_of_list_ascii_app, Hp. reflexivity. }
  split; [rewrite list_ascii_of_string_of_list_ascii; exact Ht | ].
  destruct Hr as [-> | [c [r' [-> Hc]]]]; [left; reflexivity | ].
  right. exists c, (string_of_list_ascii r'). split; [reflexivity | exact Hc].
Qed.

(** An open-ended pattern, node by node. *)
Lemma open_ended_nodes :
  forall rx,
    open_ended rx = true -> exists ns, nodes rx = ns ++ [Group (Star ADot)].
Proof.
  intros rx H. unfold open_ended in H.
  destruct (rev (nodes rx)) as [ | n l] eqn:E; [discriminate H | ].
  exists (rev l). rewrite <- (rev_involutive (nodes rx)), E. cbn [rev].
  destruct n as [p | p]; try discriminate H.
  destruct p as [a | a | a]; try discriminate H.
  destruct a; try discriminate H. reflexivity.
Qed.

(** What [setRegExVars] does to the parameter patterns: the ones it
    assigns are open-ended, and the 1.0.2 family keeps three of the former
    ones. *)
Lemma setRegExVars_open_ended :
  forall version, preserves lines_open_ended (setRegExVars version).
Proof.
  intros version self H. unfold lines_open_ended in *.
  rewrite name_grammar.
  destruct (String.eqb version "Marlin bugfix-2.0.x"); [reflexivity | ].
  destruct (existsb (String.eqb version) rc_names); [reflexivity | ].
  destruct (existsb (String.eqb version) legacy_names); [ | reflexivity].
  unfold line_patterns in H. cbn [forallb] in H.
  repeat match type of H with
         | (_ && _)%bool = true =>
             let H' := fresh "K" in
             apply andb_true_iff in H; destruct H as [H' H]
         end.
  unfold line_patterns.
  cbn [legacy_grammar eepromM145S0RegEx eepromM145S1RegEx eepromM145S2RegEx
       forallb].
  match goal with
  | H0 : open_ended (eepromM145S0RegEx _) = true,
    H1 : open_ended (eepromM145S1RegEx _) = true,
    H2 : open_ended (eepromM145S2RegEx _) = true |- _ =>
      rewrite H0, H1, H2
  end.
  reflexivity.
Qed.

Lemma open_ended_same :
  forall a b, re b = re a -> lines_open_ended a -> lines_open_ended b.
Proof. intros a b E H. unfold lines_open_ended in *. rewrite E. exact H. Qed.

Lemma open_ended_kept :
  forall l a b,
    same_except l a b -> ~ In P_re l ->
    lines_open_ended a -> lines_open_ended b.
Proof. intros l a b H Hl. apply open_ended_same, (kept_re H Hl). Qed.

Lemma identified_open_ended :
  forall m self after,
    identified m self after -> lines_open_ended self ->
    lines_open_ended after.
Proof.
  intros m self after [_ [_ [Hr _]]] H.
  apply open_ended_same with (a := setRegExVars
                                     (to_str m.[1] ++ " " ++ to_str m.[2])
                                     self);
    [exact Hr | apply setRegExVars_open_ended; exact H].
Qed.

Lemma detect_firmware_open_ended :
  forall line, preserves lines_open_ended (detect_firmware line).
Proof.
  intros line self Hs.
  pose proof (detect_firmware_identifies line self) as H.
  destruct (exec Lit.firmware line) as [m | ].
  - exact (identified_open_ended H Hs).
  - apply (open_ended_kept H); [not_listed | exact Hs].
Qed.

Lemma detect_firmware_history_open_ended :
  forall line, preserves lines_open_ended (detect_firmware_history line).
Proof.
  intros line self Hs.
  pose proof (detect_firmware_history_identifies line self) as H.
  destruct (exec Lit.firmware line) as [m | ].
  - exact (identified_open_ended H Hs).
  - apply (open_ended_kept H); [not_listed | exact Hs].
Qed.

Lemma entry_points_open_ended : entry_points (preserves lines_open_ended).
Proof.
  pose_footprints. each_entry_point.
  - intros self. apply (open_ended_kept (Fl self)); not_listed.
  - intros self. apply (open_ended_kept (Fb self)); not_listed.
  - intros self. apply (open_ended_kept (Fs self)); not_listed.
  - intros self. apply (open_ended_kept (Fr self)); not_listed.
  - intros self. apply (open_ended_kept (Fc self)); not_listed.
  - intros self. apply (open_ended_kept (Fd self)); not_listed.
  - intros result self. apply (open_ended_kept (Ff result self)); not_listed.
  - intros logs. unfold fromHistoryData. apply each_preserves.
    exact detect_firmware_history_open_ended.
  - intros now logs self Hs.
    destruct (isMarlinFirmware self) eqn:HM.
    + pose proof (fromCurrentData_changes now logs self) as H.
      rewrite HM in H.
      apply (open_ended_kept H); [not_listed | exact Hs].
    + rewrite (fromCurrentData_other now logs self HM).
      apply open_ended_same
        with (a := each logs detect_firmware
                     (set_hasChangedEepromForm self true));
        [reflexivity | ].
      apply each_preserves; [exact detect_firmware_open_ended | ].
      apply open_ended_same with (a := self); [reflexivity | exact Hs].
Qed.

(** X18: the last value of a line.  Each of the seventeen parameter
    patterns the view model holds ends in a greedy group of any characters:
    so it is when the constructor returns, and [setRegExVars], for every
    version, every entry point and the extractor keep it so.  Hence the
    text a parameter pattern matches ends at the end of the line or just
    before a line terminator, and the last capture is the end of that text
    and holds no line terminator: the value of the last letter of a line
    takes in whatever follows it, up to there.  The line terminator need
    not be the first one of the line, since a separator of the pattern can
    take one: on [two_returns] the match of the M92 pattern runs past the
    first carriage return. *)
Theorem last_value_runs_to_the_end_of_the_line :
  (forall printing, lines_open_ended (initial printing)) /\
  (forall version, preserves lines_open_ended (setRegExVars version)) /\
  entry_points (preserves lines_open_ended) /\
  (forall line restoreBackup,
     preserves lines_open_ended (eepromFieldParse line restoreBackup)) /\
  (forall self rx line m,
     lines_open_ended self ->
     In rx (line_patterns (re self)) ->
     exec rx line = Some m ->
     exists before v after,
       line = (before ++ to_str m.[0] ++ after)%string /\
       m.[groups rx] = VStr v /\
       (exists prefix, to_str m.[0] = (prefix ++ v)%string) /\
       Forall (fun c => is_line_terminator c = false)
         (list_ascii_of_string v) /\
       (after = "" \/
        exists c after', after = String c after' /\
                         is_line_terminator c = true)) /\
  exec Lit.M92 two_returns =
  Some [VStr ("M92 X1" ++ String "013" "Y2 Z3 E4");
        VStr "X"; VStr "1"; VStr "Y"; VStr "2"; VStr "Z"; VStr "3";
        VStr "E"; VStr "4"].
Proof.
  split; [intros printing; vm_compute; reflexivity | ].
  split; [exact setRegExVars_open_ended | ].
  split; [exact entry_points_open_ended | ].
  split.
  { intros line rb self.
    apply (@open_ended_kept [P_data; P_timers]);
      [apply changes_eepromFieldParse; in_list | not_listed]. }
  split; [ | vm_compute; reflexivity].
  intros self rx line m Hs Hin Hm.
  unfold lines_open_ended in Hs. rewrite forallb_forall in Hs.
  destruct (open_ended_nodes _ (Hs rx Hin)) as [ns Hn].
  destruct (@exec_runs_to_end _ _ _ _ _ Hn Hm)
    as [before [v [after [Hl [Hg [Hp [Hv Ha]]]]]]].
  exists before, v, after.
  split; [exact Hl | split; [exact Hg | split; [exact Hp | split]]].
  - revert Hv. apply Forall_impl. intros c Hc.
    cbn [atom_match] in Hc. destruct (is_line_terminator c);
      [discriminate Hc | reflexivity].
  - destruct Ha as [Ha | [c [a' [Ha Hc]]]]; [left; exact Ha | ].
    right. exists c, a'. split; [exact Ha | ].
    cbn [atom_match] in Hc. destruct (is_line_terminator c);
      [reflexivity | discriminate Hc].
Qed.

Lemma last_value_witness :
  let line := "echo:  M92 X80.00 Y80.00 Z400.00 E500.00,Send: M105" in
  let m := [VStr "M92 X80.00 Y80.00 Z400.00 E500.00,Send: M105";
            VStr "X"; VStr "80.00"; VStr "Y"; VStr "80.00"; VStr "Z";
            VStr "400.00"; VStr "E"; VStr "500.00,Send: M105"] in
  lines_open_ended sample_marlin /\
  In Lit.M92 (line_patterns (re sample_marlin)) /\
  exec Lit.M92 line = Some m /\
  exists before v after,
    line = (before ++ to_str m.[0] ++ after)%string /\
    m.[groups Lit.M92] = VStr v /\
    (exists prefix, to_str m.[0] = (prefix ++ v)%string) /\
    Forall (fun c => is_line_terminator c = false)
      (list_ascii_of_string v) /\
    (after = "" \/
     exists c after', after = String c after' /\
                      is_line_terminator c = true).
Proof.
  intros line m.
  assert (H0 : lines_open_ended sample_marlin) by (vm_compute; reflexivity).
  assert (H1 : In Lit.M92 (line_patterns (re sample_marlin)))
    by (left; vm_compute; reflexivity).
  assert (H2 : exec Lit.M92 line = Some m) by (vm_compute; reflexivity).
  split; [exact H0 | split; [exact H1 | split; [exact H2 | ]]].
  destruct last_value_runs_to_the_end_of_the_line as [_ [_ [_ [_ [H _]]]]].
  exact (H sample_marlin Lit.M92 line m H0 H1 H2).
Defined.

(** ** The lines of the backup file *)




















